(** * gocw: the acquisition stack of the ChipWhisperer-Lite driver

    A shallow embedding of the Go sources (usb_device.go, memory.go,
    fpga.go, adc.go, capture.go) and the properties of their specification.

    Conventions of the embedding:
    - Go's [uint8]/[uint32]/[int] values are integers of [Z] with the
      wrap-around of each operation written out;
    - a [[]byte] is a [list byte]; where the code tells a nil slice from an
      empty one the slice is an [option (list _)], [None] being nil;
    - a [float64] is a primitive binary64 float, so that the arithmetic of the
      code is the arithmetic of the model;
    - an [error] is the format string given to [fmt.Errorf] with its numeric
      arguments or with the error it wraps;
    - the USB device is an oracle that answers each transfer from the history
      of the transfers made so far; the history is the state the code threads. *)

From Stdlib Require Import String Ascii.
From Stdlib Require Import ZArith List Bool Lia.
From Stdlib.Strings Require Import Byte.
From Stdlib Require Import Floats Uint63.
Import ListNotations.

Open Scope string_scope.
Open Scope list_scope.
Open Scope Z_scope.

(* ================================================================== *)
(** * Part I: the embedding *)
(* ================================================================== *)

(** ** Go values *)

Module Go.

Definition byte := Byte.byte.

Definition byte_to_Z (b : byte) : Z := Z.of_N (Byte.to_N b).

Definition byte_of_Z (z : Z) : byte :=
  match Byte.of_N (Z.to_N (z mod 256)) with
  | Some b => b
  | None => Byte.x00
  end.

(** [a & b] on bytes. *)
Definition byte_and (a b : byte) : byte :=
  byte_of_Z (Z.land (byte_to_Z a) (byte_to_Z b)).

Definition byte_eqb (a b : byte) : bool := Byte.eqb a b.

(** [bytes.Equal]. *)
Fixpoint bytes_Equal (a b : list byte) : bool :=
  match a, b with
  | [], [] => true
  | x :: a', y :: b' => byte_eqb x y && bytes_Equal a' b'
  | _, _ => false
  end.

(** Conversions to the fixed-width integer types. *)
Definition uint8 (z : Z) : Z := z mod 2 ^ 8.
Definition uint32 (z : Z) : Z := z mod 2 ^ 32.
(** [int] is 64 bits wide on the platforms the driver runs on. *)
Definition int (z : Z) : Z := (z + 2 ^ 63) mod 2 ^ 64 - 2 ^ 63.

(** [float64(x)] for an integer [x] of the range of [int]; it is exact up to
    2^53 in magnitude. *)
Definition float64_of_int (x : Z) : float :=
  if x =? - 2 ^ 63 then PrimFloat.opp 9223372036854775808%float
  else if x <? 0 then PrimFloat.opp (PrimFloat.of_uint63 (Uint63.of_Z (- x)))
  else PrimFloat.of_uint63 (Uint63.of_Z x).

(** [binary.LittleEndian] / [binary.BigEndian] for unsigned integers. *)
Definition le_uint32 (z : Z) : list byte :=
  [byte_of_Z z; byte_of_Z (z / 2 ^ 8); byte_of_Z (z / 2 ^ 16); byte_of_Z (z / 2 ^ 24)].

Definition le_uint (bs : list byte) : Z :=
  fold_right (fun b acc => byte_to_Z b + 256 * acc) 0 bs.

Definition be_uint (bs : list byte) : Z :=
  fold_left (fun acc b => 256 * acc + byte_to_Z b) bs 0.

(** [fmt.Errorf(format, args...)] with numeric arguments, and
    [fmt.Errorf(format, err)] around the error it reports. *)
Inductive error : Type :=
| Errorf (format : string) (args : list Z)
| Wrapf (format : string) (cause : error).

(** A slice that may be nil: [None] is the nil slice. *)
Definition slice (A : Type) : Type := option (list A).

Definition len {A} (s : slice A) : Z :=
  match s with None => 0 | Some l => Z.of_nat (length l) end.

Definition elems {A} (s : slice A) : list A :=
  match s with None => [] | Some l => l end.


(** The state monad in which the code runs. *)
Definition State (S A : Type) : Type := S -> A * S.

Definition ret {S A} (a : A) : State S A := fun s => (a, s).

Definition bind {S A B} (m : State S A) (k : A -> State S B) : State S B :=
  fun s => let (a, s') := m s in k a s'.

End Go.

Import Go.

Declare Scope go_scope.
Delimit Scope go_scope with go.
Notation "x <- m ;; k" := (bind m (fun x => k))
  (at level 61, m at next level, right associativity) : go_scope.
Notation "m ;;; k" := (bind m (fun _ => k))
  (at level 61, right associativity) : go_scope.
Open Scope go_scope.

(** ** usb_device.go *)

Module Usb.

Definition Request := Z.

Definition ReqMemReadBulk : Request := 0x10.
Definition ReqMemWriteBulk : Request := 0x11.
Definition ReqMemReadCtrl : Request := 0x12.
Definition ReqMemWriteCtrl : Request := 0x13.
Definition ReqFpgaStatus : Request := 0x15.
Definition ReqFpgaProgram : Request := 0x16.

(** One interaction with the outside, as the code issues it. *)
Inductive Call : Type :=
| ControlInCall (request : Request) (val : Z) (size : nat)
| ControlOutCall (request : Request) (val : Z) (data : list byte)
| BulkReadCall (size : nat)
| BulkWriteCall (data : list byte)
| SleepCall (ms : Z).

Definition History := list Call.

(** The gousb handles behind [UsbDevice]: each answers from the history of the
    calls made before.  A transfer reports the bytes moved and an error. *)
Record Device : Type := {
  control_in : History -> Request -> Z -> nat -> list byte * option error;
  control_out : History -> Request -> Z -> list byte -> Z * option error;
  ep_in_read : History -> nat -> list byte * option error;
  ep_out_write : History -> list byte -> Z * option error
}.

Definition M := State History.

Definition record (c : Call) : M unit := fun h => (tt, h ++ [c]).

(** [time.Sleep]. *)
Definition Sleep (ms : Z) : M unit := record (SleepCall ms).

(** The slice expression [p[:32]] in the log lines of [UsbDevice.Read] and
    [UsbDevice.Write] panics when the capacity of [p] is below 32. *)
Definition dumpPanics (capacity : nat) : bool := (capacity <? 32)%nat.

(** The length of the buffer a bulk transfer was made with. *)
Definition bulkBuffer (c : Call) : option nat :=
  match c with
  | BulkReadCall size => Some size
  | BulkWriteCall data => Some (length data)
  | _ => None
  end.

Section UsbDevice.
Context (d : Device).

(** [UsbDevice.Read]: [(n, err)] with the bytes placed in [p].  This is the
    method on a buffer whose capacity is 32 and more: its log line takes
    [hex.Dump(p[:32])], which panics on a smaller one ([dumpPanics]). *)
Definition Read (size : nat) : M (list byte * option error) :=
  fun h => (ep_in_read d h size, h ++ [BulkReadCall size]).

(** [UsbDevice.Write], on a buffer whose capacity is 32 and more as well: its
    log line takes [hex.Dump(buf[:32])]. *)
Definition Write (buf : list byte) : M (Z * option error) :=
  fun h => (ep_out_write d h buf, h ++ [BulkWriteCall buf]).

(** [UsbDevice.ControlIn] for a destination of [size] bytes: the bytes read,
    still to be decoded by the caller's type. *)
Definition ControlIn (request : Request) (val : Z) (size : nat)
  : M (error + list byte) :=
  fun h =>
    let '(buf, err) := control_in d h request val size in
    let h' := h ++ [ControlInCall request val size] in
    match err with
    | Some e => (inl (Wrapf "dev.Control failed %v" e), h')
    | None =>
        if Nat.eqb (length buf) size then (inr buf, h')
        else (inl (Errorf "Failed to read entire buffer %v vs %v" [Z.of_nat (length buf); Z.of_nat size]), h')
    end.

(** [UsbDevice.ControlOut] for data already laid out by [binary.Write]. *)
Definition ControlOut (request : Request) (val : Z) (buf : list byte)
  : M (option error) :=
  fun h =>
    let '(n, err) := control_out d h request val buf in
    let h' := h ++ [ControlOutCall request val buf] in
    match err with
    | Some e => (Some (Wrapf "dev.Control failed %v" e), h')
    | None =>
        if n =? Z.of_nat (length buf) then (None, h')
        else (Some (Errorf "Failed to write entire buffer %v vs %v" [n; Z.of_nat (length buf)]), h')
    end.

End UsbDevice.

(** A device that accepts every transfer and whose every register and
    endpoint reads as zeros: an FPGA whose done bit never rises. *)
Definition zeroDevice : Device := {|
  control_in := fun _ _ _ size => (repeat Byte.x00 size, None);
  control_out := fun _ _ _ buf => (Z.of_nat (length buf), None);
  ep_in_read := fun _ size => (repeat Byte.x00 size, None);
  ep_out_write := fun _ buf => (Z.of_nat (length buf), None)
|}.

(** A test double in the manner of the mocks of memory_test.go: the k-th
    transfer is answered by the k-th entry of a script; writes succeed. *)
Definition transfers (h : History) : nat :=
  length (filter (fun c => match c with SleepCall _ => false | _ => true end) h).

Definition scripted (script : list (error + list byte)) : Device := {|
  control_in := fun h _ _ _ =>
    match nth_error script (transfers h) with
    | Some (inr bs) => (bs, None)
    | Some (inl e) => ([], Some e)
    | None => ([], Some (Errorf "unexpected call" []))
    end;
  control_out := fun h _ _ buf =>
    match nth_error script (transfers h) with
    | Some (inl e) => (0, Some e)
    | _ => (Z.of_nat (length buf), None)
    end;
  ep_in_read := fun h _ =>
    match nth_error script (transfers h) with
    | Some (inr bs) => (bs, None)
    | Some (inl e) => ([], Some e)
    | None => ([], Some (Errorf "unexpected call" []))
    end;
  ep_out_write := fun h buf =>
    match nth_error script (transfers h) with
    | Some (inl e) => (0, Some e)
    | _ => (Z.of_nat (length buf), None)
    end
|}.

End Usb.

Import Usb.

(** ** memory.go *)

Module Memory.

(** [binary.Write(LittleEndian, AddressBlock{Dlen, Addr})]. *)
Definition AddressBlock (Dlen Addr : Z) : list byte :=
  le_uint32 Dlen ++ le_uint32 Addr.

Definition errVerify : error := Errorf "Write verification failed" [].

Section Memory.
Context (d : Device).

(** Reads [size = len(data)] bytes from memory address [addr], by a control
    transfer or over the bulk endpoint according to the length; the result
    is the content of [data] afterwards. *)
Definition doRead (addr : Z) (size : nat) : M (error + list byte) :=
  let cmd := if Z.of_nat size <? 48 then ReqMemReadCtrl else ReqMemReadBulk in
  let info := AddressBlock (uint32 (Z.of_nat size)) (uint32 addr) in
  err <- ControlOut d cmd 0 info ;;
  match err with
  | Some e => ret (inl (Wrapf "ControlOut AddressBlock failed: %v" e))
  | None =>
      if cmd =? ReqMemReadBulk then
        r <- Read d size ;;
        match r with
        | (_, Some e) => ret (inl (Wrapf "ReqMemReadBulk data failed: %v" e))
        | (data, None) =>
            if Nat.eqb (length data) size then ret (inr data)
            else ret (inl (Errorf "Failed to read entire buffer over bulk interface" []))
        end
      else
        r <- ControlIn d ReqMemReadCtrl 0 size ;;
        match r with
        | inl e => ret (inl (Wrapf "ReqMemReadCtrl data failed: %v" e))
        | inr data => ret (inr data)
        end
  end.

(** [Memory.Read] into a destination of [size] bytes; the caller decodes. *)
Definition Read (addr : Z) (size : nat) : M (error + list byte) :=
  r <- doRead addr size ;;
  match r with
  | inl e => ret (inl (Wrapf "m.doRead failed %v" e))
  | inr buf => ret (inr buf)
  end.

(** The first half of [doWrite]: the header and the payload go out. *)
Definition doWrite_send (addr : Z) (data : list byte) : M (option error) :=
  let cmd := if Z.of_nat (length data) <? 48 then ReqMemWriteCtrl else ReqMemWriteBulk in
  let info := AddressBlock (uint32 (Z.of_nat (length data))) (uint32 addr) in
  let infoBuf := if cmd =? ReqMemWriteCtrl then info ++ data else info in
  err <- ControlOut d cmd 0 infoBuf ;;
  match err with
  | Some e => ret (Some (Wrapf "ControlOut AddressBlock failed: %v" e))
  | None =>
      if cmd =? ReqMemWriteBulk then
        r <- Write d data ;;
        match r with
        | (_, Some e) => ret (Some (Wrapf "ReqMemWriteBulk data failed: %v" e))
        | (written, None) =>
            if written =? Z.of_nat (length data) then ret None
            else ret (Some (Errorf "Failed to write entire buffer over bulk interface" []))
        end
      else ret None
  end.

(** [for i, m := range mask { buf[i] &= m }]. *)
Fixpoint and_mask (buf mask : list byte) : list byte :=
  match buf, mask with
  | b :: buf', m :: mask' => byte_and b m :: and_mask buf' mask'
  | _, _ => buf
  end.

(** The second half of [doWrite]: the read-back under [if validate]. *)
Definition doWrite_verify (addr : Z) (data : list byte) (mask : option (list byte))
  : M (option error) :=
  r <- Read addr (length data) ;;
  match r with
  | inl e => ret (Some (Wrapf "Read for verify failed %v" e))
  | inr actual =>
      let expected := data in
      match mask with
      | Some m =>
          if negb (Nat.eqb (length m) (length data)) then
            ret (Some (Errorf "Mask length (%v) doesn't match data length (%v)" [Z.of_nat (length m); Z.of_nat (length data)]))
          else if bytes_Equal (and_mask expected m) (and_mask actual m) then ret None
          else ret (Some errVerify)
      | None =>
          if bytes_Equal expected actual then ret None else ret (Some errVerify)
      end
  end.

Definition doWrite (addr : Z) (data : list byte) (validate : bool)
  (mask : option (list byte)) : M (option error) :=
  err <- doWrite_send addr data ;;
  match err with
  | Some e => ret (Some e)
  | None => if validate then doWrite_verify addr data mask else ret None
  end.

(** [Memory.Write] for data already laid out by [binary.Write]. *)
Definition Write (addr : Z) (data : list byte) (validate : bool)
  (mask : option (list byte)) : M (option error) :=
  err <- doWrite addr data validate mask ;;
  match err with
  | Some e => ret (Some (Wrapf "m.doWrite failed %v" e))
  | None => ret None
  end.

End Memory.

(** The transcript of TestMemoryWriteReadMaskPasses (memory_test.go): the
    write goes out, and the read-back differs from it in the second byte. *)
Definition testAddr : Z := 0x11223344.
Definition testData : list byte := [Byte.xaa; Byte.xbb; Byte.xcc].
Definition testDataRead : list byte := [Byte.xaa; Byte.xdd; Byte.xcc].
Definition testMask : list byte := [Byte.xff; Byte.x00; Byte.xff].
Definition testDevice : Device := scripted [inr []; inr []; inr testDataRead].

End Memory.

(** ** fpga.go *)

Module Fpga.

Definition errDonePin : error :=
  Errorf "FPGA done pin failed to go high, bad bitstream?" [].

Section Fpga.
Context (d : Device).

Definition IsProgrammed : M (error + bool) :=
  r <- ControlIn d ReqFpgaStatus 0 4 ;;
  match r with
  | inl e => ret (inl (Wrapf "ReqFpgaStatus: %v" e))
  | inr buf => ret (inr (Z.land (le_uint buf) 1 =? 1))
  end.

Definition ctrlProgram (val : Z) : M (option error) :=
  ControlOut d ReqFpgaProgram val [].

(** [io.Copy(f.dev, bitstream)]: the reader delivers the bitstream in chunks,
    and each goes out on the bulk endpoint. *)
Fixpoint io_Copy (bitstream : list (list byte)) : M (option error) :=
  match bitstream with
  | [] => ret None
  | chunk :: rest =>
      r <- Usb.Write d chunk ;;
      match r with
      | (_, Some e) => ret (Some e)
      | (n, None) =>
          if n =? Z.of_nat (length chunk) then io_Copy rest
          else ret (Some (Errorf "short write" []))
      end
  end.

(** [for attempts := 0; attempts < 5; attempts-- { ... }], one iteration for
    each unit of [fuel].  [None]: the loop is still running when the fuel is
    spent; [Some (inr ready)]: the loop was left with this value of [ready];
    [Some (inl err)]: [Program] returned [err] from inside the loop. *)
Fixpoint pollLoop (fuel : nat) (attempts : Z) : M (option (error + bool)) :=
  match fuel with
  | O => ret None
  | S fuel' =>
      if attempts <? 5 then
        r <- IsProgrammed ;;
        match r with
        | inl e => ret (Some (inl e))
        | inr true => ret (Some (inr true))
        | inr false => Sleep 10 ;;; pollLoop fuel' (int (attempts - 1))
        end
      else ret (Some (inr false))
  end.

(** [Fpga.Program]; [None] when the polling loop outlives the fuel. *)
Definition Program (fuel : nat) (bitstream : list (list byte))
  : M (option (option error)) :=
  err <- ctrlProgram 0xA0 ;;
  match err with
  | Some e => ret (Some (Some e))
  | None =>
  Sleep 10 ;;;
  err <- ctrlProgram 0xA1 ;;
  match err with
  | Some e => ret (Some (Some e))
  | None =>
  Sleep 10 ;;;
  err <- io_Copy bitstream ;;
  match err with
  | Some e => ret (Some (Some (Wrapf "Failed to download bitstream %v" e)))
  | None =>
  r <- pollLoop fuel 0 ;;
  match r with
  | None => ret None
  | Some (inl e) => ret (Some (Some e))
  | Some (inr ready) =>
      err <- ctrlProgram 0xA2 ;;
      match err with
      | Some e => ret (Some (Some e))
      | None => if negb ready then ret (Some (Some errDonePin)) else ret (Some None)
      end
  end end end end.

End Fpga.

(** The status polls and the exit-programming requests of a history. *)
Definition isStatusPoll (c : Call) : bool :=
  match c with
  | ControlInCall request _ _ => request =? ReqFpgaStatus
  | _ => false
  end.

Definition isExitProgramming (c : Call) : bool :=
  match c with
  | ControlOutCall request val _ => (request =? ReqFpgaProgram) && (val =? 0xA2)
  | _ => false
  end.

Definition statusPolls (h : History) : nat := length (filter isStatusPoll h).

Definition exitRequests (h : History) : nat := length (filter isExitProgramming h).


(** The transfers of [n] polls that found the FPGA not programmed. *)
Fixpoint failedPolls (n : nat) : list Call :=
  match n with
  | O => []
  | S n' => ControlInCall ReqFpgaStatus 0 4 :: SleepCall 10 :: failedPolls n'
  end.


End Fpga.

(** ** adc.go *)

Module Adc.

Definition addrGain : Z := 0.
Definition addrSettings : Z := 1.
Definition addrStatus : Z := 2.
Definition addrAdcData : Z := 3.
Definition addrSamples : Z := 16.
Definition addrBytestorx : Z := 18.
Definition addrOffset : Z := 26.

Definition settingsArm : Z := 0x08.
Definition settingsTrigNow : Z := 0x40.

(** The fields of [Adc] next to the [fpga] pointer; [err] is the sticky error. *)
Record Adc : Type := {
  err : option error;
  hwMaxSamples : Z;
  extClockFreq : Z
}.

(** The methods of [*Adc] run on the receiver and on the device behind it. *)
Definition A := State (Adc * History).

Definition mem {X} (m : M X) : A X :=
  fun s => let (x, h') := m (snd s) in (x, (fst s, h')).

Definition withErr (c : Adc) (e : option error) : Adc :=
  {| err := e; hwMaxSamples := hwMaxSamples c; extClockFreq := extClockFreq c |}.

(** [c.err = e]. *)
Definition setErr (e : option error) : A unit :=
  fun s => (tt, (withErr (fst s) e, snd s)).

Definition Error : A (option error) := fun s => (err (fst s), s).

Definition MaxSamples : A Z := fun s => (hwMaxSamples (fst s), s).

Definition errDataLength (n : nat) : error :=
  Errorf "Unexpected data length (%v)" [Z.of_nat n].

Definition errSyncByte (b : byte) : error :=
  Errorf "Unexpected sync byte %x" [byte_to_Z b].

(** [float64(w)/1024.0 - offset] with [offset := float64(0.5)]. *)
Definition measurement (w : Z) : float :=
  PrimFloat.sub (PrimFloat.div (float64_of_int w) 1024%float) 0.5%float.

(** The values of [for k := lo; k < hi; k++]. *)
Definition range (lo hi : Z) : list Z :=
  map (fun k => lo + Z.of_nat k) (seq 0 (Z.to_nat (hi - lo))).

(** [math.Abs(float64(freq - ((inpFreq * mul) / div)))], in [int] arithmetic
    under the conversion. *)
Definition clkError (freq inpFreq mul div : Z) : float :=
  PrimFloat.abs (float64_of_int (int (freq - int (Z.quot (int (inpFreq * mul)) div)))).

(** From datasheet, if input freq is < 52MHz limit max divide. *)
Definition maxDiv (inpFreq : Z) : Z :=
  if inpFreq <? 52000000 then int (Z.quot inpFreq 500000) else 256.

(** [lowError := 1e99], as the nearest binary64 value. *)
Definition lowError0 : float := 0x1.d42aea2879f2ep+328%float.

(** The body of the inner loop on [(lowError, bestMul, bestDiv)]. *)
Definition clkStep (freq inpFreq mul : Z) (st : float * Z * Z) (div : Z)
  : float * Z * Z :=
  let '(lowError, bestMul, bestDiv) := st in
  let err := clkError freq inpFreq mul div in
  if PrimFloat.ltb err lowError then (err, mul, div)
  else (lowError, bestMul, bestDiv).

(** Calculate Multiply & Divide settings based on input frequency. *)
Definition calcClkGenMulDiv (freq inpFreq : Z) : Z * Z :=
  let maxDiv := maxDiv inpFreq in
  let '(_, bestMul, bestDiv) :=
    fold_left (fun st mul => fold_left (clkStep freq inpFreq mul) (range 1 maxDiv) st)
      (range 2 257) (lowError0, 0, 0) in
  (bestMul, bestDiv).

(** The invariant of the search over the pairs [C] tried so far: none of them
    has an error below [lowError], and [lowError] is still the initial value
    or the error of the best pair, which is one of them. *)
Definition Best (freq inpFreq : Z) (C : Z -> Z -> Prop) (st : float * Z * Z) : Prop :=
  let '(lowError, bestMul, bestDiv) := st in
  (forall m d, C m d -> PrimFloat.ltb (clkError freq inpFreq m d) lowError = false) /\
  ((lowError = lowError0 /\ bestMul = 0 /\ bestDiv = 0) \/
   (lowError = clkError freq inpFreq bestMul bestDiv /\ C bestMul bestDiv)).

Section Adc.
Context (d : Device).

(** [c.err = c.fpga.Mem.Read(addr, &v)] for a [v] of [size] bytes. *)
Definition memRead (addr : Z) (size : nat) : A (option (list byte)) :=
  r <- mem (Memory.Read d addr size) ;;
  match r with
  | inl e => setErr (Some e) ;;; ret None
  | inr buf => setErr None ;;; ret (Some buf)
  end.

(** [c.err = c.fpga.Mem.Write(addr, &v, validate, mask)]. *)
Definition memWrite (addr : Z) (data : list byte) (validate : bool)
  (mask : option (list byte)) : A unit :=
  e <- mem (Memory.Write d addr data validate mask) ;;
  setErr e.

Definition Gain : A Z :=
  e <- Error ;;
  match e with
  | Some _ => ret 0
  | None =>
      r <- memRead addrGain 1 ;;
      match r with
      | None => ret 0
      | Some buf => ret (le_uint buf)
      end
  end.

Definition SetGain (gain : Z) : A unit :=
  e <- Error ;;
  match e with
  | Some _ => ret tt
  | None =>
      if 78 <? gain then
        setErr (Some (Errorf "Invalid gain (%v), range 0-78 only" [gain]))
      else memWrite addrGain [byte_of_Z gain] true None
  end.

Definition TriggerOffset : A Z :=
  e <- Error ;;
  match e with
  | Some _ => ret 0
  | None =>
      r <- memRead addrOffset 4 ;;
      match r with
      | None => ret 0
      | Some buf => ret (le_uint buf)
      end
  end.

Definition SetTriggerOffset (offset : Z) : A unit :=
  e <- Error ;;
  match e with
  | Some _ => ret tt
  | None => memWrite addrOffset (le_uint32 offset) true None
  end.

Definition status : A Z :=
  e <- Error ;;
  match e with
  | Some _ => ret 0
  | None =>
      r <- memRead addrStatus 1 ;;
      match r with
      | None => ret 0
      | Some buf => ret (le_uint buf)
      end
  end.

Definition settings : A Z :=
  e <- Error ;;
  match e with
  | Some _ => ret 0
  | None =>
      r <- memRead addrSettings 1 ;;
      match r with
      | None => ret 0
      | Some buf => ret (le_uint buf)
      end
  end.

Definition setSettings (settings : Z) (validate : bool) : A unit :=
  e <- Error ;;
  match e with
  | Some _ => ret tt
  | None => memWrite addrSettings [byte_of_Z settings] validate None
  end.

Definition numSamples : A Z :=
  e <- Error ;;
  match e with
  | Some _ => ret 0
  | None =>
      r <- memRead addrSamples 4 ;;
      match r with
      | None => ret 0
      | Some buf => ret (le_uint buf)
      end
  end.

Definition setNumSamples (n : Z) : A unit :=
  e <- Error ;;
  match e with
  | Some _ => ret tt
  | None => memWrite addrSamples (le_uint32 n) true None
  end.

Definition TotalSamples : A Z := numSamples.

Definition SetTotalSamples (samples : Z) : A unit :=
  max <- MaxSamples ;;
  if max <? samples then
    setErr (Some (Errorf "samples (%v) outside limit (%v)" [samples; max]))
  else setNumSamples samples.

Definition SetArmOn : A unit :=
  s <- settings ;;
  setSettings (Z.lor s settingsArm) true.

Definition SetArmOff : A unit :=
  s <- settings ;;
  setSettings (Z.land s (uint8 (Z.lnot settingsArm))) true.

Definition setTriggerNow : A unit :=
  e <- Error ;;
  match e with
  | Some _ => ret tt
  | None =>
      initial <- settings ;;
      setSettings (Z.lor initial settingsTrigNow) true ;;;
      setSettings (Z.land initial (uint8 (Z.lnot settingsTrigNow))) true
  end.

(** The loop of [ProcessTraceData] over [data[1:]], four bytes at a time. *)
Fixpoint decodeLoop (bs : list byte) (triggerFound : bool)
  (measurements : list float) : A (list float) :=
  match bs with
  | b0 :: b1 :: b2 :: b3 :: rest =>
      (* c.err = binary.Read(r, binary.BigEndian, &word) *)
      setErr None ;;;
      let word := be_uint [b0; b1; b2; b3] in
      let w1 := Z.land word 0x3ff in
      let w2 := Z.land (Z.shiftr word 10) 0x3ff in
      let w3 := Z.land (Z.shiftr word 20) 0x3ff in
      let m1 := measurement w1 in
      let m2 := measurement w2 in
      let m3 := measurement w3 in
      let trigger := Z.shiftr word 30 in
      if negb triggerFound then
        if trigger =? 3 then decodeLoop rest triggerFound measurements
        else
          let measurements := if trigger <? 3 then measurements ++ [m3] else measurements in
          let measurements := if trigger <? 2 then measurements ++ [m2] else measurements in
          let measurements := if trigger <? 1 then measurements ++ [m1] else measurements in
          decodeLoop rest true measurements
      else
        decodeLoop rest triggerFound (measurements ++ [m1; m2; m3])
  | _ => ret measurements
  end.

Definition ProcessTraceData (data : list byte) : A (list float) :=
  if (Z.of_nat (length data) <? 4) || negb (Z.of_nat (length data) mod 4 =? 0) then
    setErr (Some (errDataLength (length data))) ;;; ret []
  else
    match data with
    | [] => ret []
    | sync :: rest =>
        if negb (byte_to_Z sync =? 0xac) then
          setErr (Some (errSyncByte sync)) ;;; ret []
        else decodeLoop rest false []
    end.

(** The read length of [TraceData] before and after it is capped by the
    pending byte count, in [uint32] arithmetic. *)
Definition readBound (samples : Z) : Z :=
  let toRead := samples in
  let toRead :=
    if negb (toRead mod 3 =? 0) then uint32 (toRead + (3 - toRead mod 3)) else toRead in
  uint32 (uint32 (toRead * 4) / 3 + 256).

Definition toRead (samples pending : Z) : Z :=
  let toRead := readBound samples in
  if pending <? toRead then pending else toRead.

Definition TraceData : A (list float) :=
  r <- memRead addrBytestorx 4 ;;
  match r with
  | None => ret []
  | Some buf =>
      let pending := le_uint buf in
      if pending =? 0 then ret []
      else
        samples <- numSamples ;;
        r <- memRead addrAdcData (Z.to_nat (toRead samples pending)) ;;
        match r with
        | None =>
            e <- Error ;;
            match e with
            | Some e' => setErr (Some (Wrapf "Failed reading trace data: %v" e')) ;;; ret []
            | None => ret []
            end
        | Some data =>
            measurements <- ProcessTraceData data ;;
            e <- Error ;;
            match e with
            | Some _ => ret []
            | None =>
                if samples <? Z.of_nat (length measurements)
                then ret (firstn (Z.to_nat samples) measurements)
                else ret measurements
            end
        end
  end.

(** The operations of the controller modelled here, for statements about
    sequences of them; results are dropped. *)
Inductive Op : Type :=
| OpGain
| OpSetGain (gain : Z)
| OpTriggerOffset
| OpSetTriggerOffset (offset : Z)
| OpTotalSamples
| OpSetTotalSamples (samples : Z)
| OpStatus
| OpSetArmOn
| OpSetArmOff
| OpSetTriggerNow
| OpTraceData
| OpProcessTraceData (data : list byte).

Definition run (op : Op) : A unit :=
  match op with
  | OpGain => Gain ;;; ret tt
  | OpSetGain gain => SetGain gain
  | OpTriggerOffset => TriggerOffset ;;; ret tt
  | OpSetTriggerOffset offset => SetTriggerOffset offset
  | OpTotalSamples => TotalSamples ;;; ret tt
  | OpSetTotalSamples samples => SetTotalSamples samples
  | OpStatus => status ;;; ret tt
  | OpSetArmOn => SetArmOn
  | OpSetArmOff => SetArmOff
  | OpSetTriggerNow => setTriggerNow
  | OpTraceData => TraceData ;;; ret tt
  | OpProcessTraceData data => ProcessTraceData data ;;; ret tt
  end.

End Adc.

(** The operations that begin with [if c.err != nil { return }], themselves or
    in the helper they consist of. *)
Definition guarded (op : Op) : bool :=
  match op with
  | OpSetTotalSamples _ | OpTraceData | OpProcessTraceData _ => false
  | _ => true
  end.

(** A buffer of one word after the sync byte: tag 0 and the samples 1, 2, 3
    in bits [0:10), [10:20), [20:30); the last three bytes are padding to a
    multiple of four. *)
Definition oneWordBuffer : list byte :=
  [Byte.xac; Byte.x00; Byte.x30; Byte.x08; Byte.x01; Byte.x00; Byte.x00; Byte.x00].

(** A buffer of three words and three bytes of padding: a word of tag 3,
    a word of tag 1 with the samples 1, 2, 3 and a word of tag 0 with the
    samples 4, 5, 6. *)
Definition threeWordBuffer : list byte :=
  [Byte.xac; Byte.xc0; Byte.x70; Byte.x1c; Byte.x07;
   Byte.x40; Byte.x30; Byte.x08; Byte.x01;
   Byte.x00; Byte.x60; Byte.x14; Byte.x04; Byte.x00; Byte.x00; Byte.x00].

(** A capture cut short: 6 bytes are pending while 100 samples were asked
    for, and the 6 bytes read back start with the sync byte. *)
Definition shortCapture : Device :=
  scripted [inr []; inr [Byte.x06; Byte.x00; Byte.x00; Byte.x00];
            inr []; inr [Byte.x64; Byte.x00; Byte.x00; Byte.x00];
            inr []; inr [Byte.xac; Byte.x00; Byte.x30; Byte.x08; Byte.x01; Byte.x00]].

Definition freshAdc : Adc := {| err := None; hwMaxSamples := 24400; extClockFreq := 10000000 |}.

End Adc.

(** ** capture.go *)

Module Capture.

Record Trace : Type := {
  Key : slice byte;
  Pt : slice byte;
  Ct : slice byte;
  PowerMeasurements : slice float
}.

Definition Capture := slice Trace.








Definition answer (r : error + slice byte) : slice byte :=
  match r with inr bs => bs | inl _ => None end.









(** *** Persistence

    [SaveIo] hands the capture to [json.Encoder] over a [gzip.Writer];
    [LoadCaptureIo] reads it back through [gzip.Reader] and [json.Decoder].
    The text of the document and its compression belong to Go's libraries;
    the embedding keeps the document they carry.  A string is named by the
    bytes its base64 text stands for, a number by the [float64] whose
    shortest decimal form it is (the form [json.Encoder] writes), and the
    key of an object by its UTF-8 bytes. *)
#[warnings="-register-all"]
Inductive json : Type :=
| JNull
| JBool (b : bool)
| JString (bytes : list byte)
| JNumber (f : float)
| JArray (items : list json)
| JObject (fields : list (string * json)).

(** The first three bytes of a gzip member: the two magic bytes and the
    deflate method. *)
Definition gzipHeader (raw : list byte) : bool :=
  match raw with
  | id1 :: id2 :: cm :: _ =>
      (byte_to_Z id1 =? 0x1f) && (byte_to_Z id2 =? 0x8b) && (byte_to_Z cm =? 8)
  | _ => false
  end.

(** [gzip.NewReader] reads the ten bytes of the header before it looks at
    them. *)
Definition noGzipHeader (raw : list byte) : bool :=
  (length raw <? 10)%nat || negb (gzipHeader raw).

(** What was written to [dst], or is read from [src]: the stream that
    [gzip.Writer] makes of the text of a document, or bytes that
    [gzip.NewReader] turns down at the ten bytes of the header.  A source
    that begins as a gzip member and is no such stream (its optional header
    fields, its compressed data or the text in it are broken) is no value of
    this type. *)
Inductive file : Type :=
| Gzip (doc : json)
| NotGzip (raw : list byte) (turnedDown : noGzipHeader raw = true).

Definition errUnsupportedValue : error := Errorf "json: unsupported value" [].
Definition errUnmarshalType : error := Errorf "json: cannot unmarshal" [].
Definition errEOF : error := Errorf "EOF" [].
Definition errUnexpectedEOF : error := Errorf "unexpected EOF" [].
Definition errHeader : error := Errorf "gzip: invalid header" [].

(** The measurements [json.Encoder] can write: neither NaN nor infinite. *)
Definition finite (f : float) : bool :=
  negb (PrimFloat.is_nan f || PrimFloat.is_infinity f).

Definition encodeBytes (s : slice byte) : json :=
  match s with None => JNull | Some bs => JString bs end.

(** [encoding/json] refuses NaN and the infinities. *)
Definition encodeFloat (f : float) : error + json :=
  if PrimFloat.is_nan f || PrimFloat.is_infinity f then inl errUnsupportedValue
  else inr (JNumber f).

Fixpoint encodeList {X} (enc : X -> error + json) (l : list X) : error + list json :=
  match l with
  | [] => inr []
  | x :: l' =>
      match enc x with
      | inl e => inl e
      | inr j =>
          match encodeList enc l' with
          | inl e => inl e
          | inr js => inr (j :: js)
          end
      end
  end.

Definition encodeSlice {X} (enc : X -> error + json) (s : slice X) : error + json :=
  match s with
  | None => inr JNull
  | Some l =>
      match encodeList enc l with
      | inl e => inl e
      | inr js => inr (JArray js)
      end
  end.

Definition encodeTrace (t : Trace) : error + json :=
  match encodeSlice encodeFloat (PowerMeasurements t) with
  | inl e => inl e
  | inr pm =>
      inr (JObject [("k", encodeBytes (Key t)); ("pt", encodeBytes (Pt t));
                    ("ct", encodeBytes (Ct t)); ("pm", pm)])
  end.

Definition SaveIo (c : Capture) : error + file :=
  match encodeSlice encodeTrace c with
  | inl e => inl (Wrapf "JSON encoder failed %v" e)
  | inr doc => inr (Gzip doc)
  end.

(** The decoder stores a value into the variable it is given.  [null]
    leaves a number as it is and makes a slice nil; a value of another kind
    than the variable takes gives [UnmarshalTypeError].  The first such error
    is the one returned, and [LoadCaptureIo] then drops what was decoded. *)
Definition decodeFloat (old : float) (j : json) : error + float :=
  match j with
  | JNull => inr old
  | JNumber f =>
      (* no literal stands for NaN; one beyond the range of [float64] reads
         as an infinity and is refused *)
      if finite f then inr f else inl errUnmarshalType
  | _ => inl errUnmarshalType
  end.

(** A number stored into a [uint8] goes through [strconv.ParseUint]: the
    literal must be a run of digits, which is how the whole numbers from 0
    on are written (minus zero is written with its sign), and at most 255. *)
Definition uint8Of (f : float) : option byte :=
  match PrimFloat.classify f with
  | NZero => None
  | _ =>
      match find (fun n => PrimFloat.eqb (float64_of_int (Z.of_nat n)) f) (seq 0 256) with
      | Some n => Some (byte_of_Z (Z.of_nat n))
      | None => None
      end
  end.

Definition decodeUint8 (old : byte) (j : json) : error + byte :=
  match j with
  | JNull => inr old
  | JNumber f =>
      match uint8Of f with
      | Some b => inr b
      | None => inl errUnmarshalType
      end
  | _ => inl errUnmarshalType
  end.

(** The elements of an array are stored one after the other into the
    elements [held] of the slice's array, which is zero where it was never
    written. *)
Fixpoint storeList {X} (dec : X -> json -> error + X) (zero : X) (js : list json)
  (held : list X) : error + list X :=
  match js with
  | [] => inr []
  | j :: js' =>
      match dec (hd zero held) j with
      | inl e => inl e
      | inr x =>
          match storeList dec zero js' (tl held) with
          | inl e => inl e
          | inr xs => inr (x :: xs)
          end
      end
  end.

(** A slice being decoded, with what its array holds past its length: a
    shorter array decoded into the same slice leaves that behind, and a
    later, longer one finds it under its [null]s. *)
Definition target (X : Type) : Type := slice X * list X.

Definition decodeArray {X} (dec : X -> json -> error + X) (zero : X)
  (items : list json) (t : target X) : error + target X :=
  match items with
  | [] => inr (Some [], [])
  | _ =>
      let held := elems (fst t) ++ snd t in
      match storeList dec zero items held with
      | inl e => inl e
      | inr xs => inr (Some xs, skipn (length items) held)
      end
  end.

Definition decodeSlice {X} (dec : X -> json -> error + X) (zero : X)
  (j : json) (t : target X) : error + target X :=
  match j with
  | JNull => inr (None, [])
  | JArray items => decodeArray dec zero items t
  | _ => inl errUnmarshalType
  end.

(** A [[]byte] takes a base64 string, or an array of numbers as any other
    slice does. *)
Definition decodeBytes (j : json) (t : target byte) : error + target byte :=
  match j with
  | JString bs => inr (Some bs, [])
  | _ => decodeSlice decodeUint8 Byte.x00 j t
  end.

(** The keys of an object are matched with the names of the fields without
    regard to case, as by [bytes.EqualFold]; for names in ASCII letters
    this adds to the two cases of each letter the Kelvin sign (U+212A) for
    [k] and the long s (U+017F) for [s]. *)
Definition toLower (a : ascii) : ascii :=
  let n := nat_of_ascii a in
  if (65 <=? n)%nat && (n <=? 90)%nat then ascii_of_nat (n + 32) else a.

Fixpoint equalFold (name key : string) : bool :=
  match name, key with
  | EmptyString, EmptyString => true
  | String a name', String "226" (String "132" (String "170" key')) =>
      Ascii.eqb (toLower a) "k" && equalFold name' key'
  | String a name', String "197" (String "191" key') =>
      Ascii.eqb (toLower a) "s" && equalFold name' key'
  | String a name', String b key' =>
      (nat_of_ascii b <? 128)%nat && Ascii.eqb (toLower a) (toLower b)
      && equalFold name' key'
  | _, _ => false
  end.

Inductive field : Type := FieldKey | FieldPt | FieldCt | FieldPowerMeasurements.

Definition fieldName (f : field) : string :=
  match f with
  | FieldKey => "k"
  | FieldPt => "pt"
  | FieldCt => "ct"
  | FieldPowerMeasurements => "pm"
  end.

(** The field a key names: the one of that very name or else the first whose
    name it equals in folded case.  No two names of [Trace] differ in case
    only, so the second search finds what the first finds. *)
Definition findField (key : string) : option field :=
  let fields := [FieldKey; FieldPt; FieldCt; FieldPowerMeasurements] in
  match find (fun f => String.eqb (fieldName f) key) fields with
  | Some f => Some f
  | None => find (fun f => equalFold (fieldName f) key) fields
  end.

(** A [Trace] being decoded. *)
Record Decoding : Type := {
  key_ : target byte;
  pt_ : target byte;
  ct_ : target byte;
  pm_ : target float
}.

Definition zeroTrace : Trace :=
  {| Key := None; Pt := None; Ct := None; PowerMeasurements := None |}.

Definition decoded (s : Decoding) : Trace :=
  {| Key := fst (key_ s); Pt := fst (pt_ s); Ct := fst (ct_ s);
     PowerMeasurements := fst (pm_ s) |}.

(** The values of an object are stored one after the other, each into the
    field its key names; a key that names no field is skipped, and a field
    named twice is stored into twice. *)
Fixpoint decodeFields (fields : list (string * json)) (s : Decoding) : error + Decoding :=
  match fields with
  | [] => inr s
  | (key, j) :: rest =>
      match findField key with
      | None => decodeFields rest s
      | Some FieldKey =>
          match decodeBytes j (key_ s) with
          | inl e => inl e
          | inr v => decodeFields rest {| key_ := v; pt_ := pt_ s; ct_ := ct_ s; pm_ := pm_ s |}
          end
      | Some FieldPt =>
          match decodeBytes j (pt_ s) with
          | inl e => inl e
          | inr v => decodeFields rest {| key_ := key_ s; pt_ := v; ct_ := ct_ s; pm_ := pm_ s |}
          end
      | Some FieldCt =>
          match decodeBytes j (ct_ s) with
          | inl e => inl e
          | inr v => decodeFields rest {| key_ := key_ s; pt_ := pt_ s; ct_ := v; pm_ := pm_ s |}
          end
      | Some FieldPowerMeasurements =>
          match decodeSlice decodeFloat 0%float j (pm_ s) with
          | inl e => inl e
          | inr v => decodeFields rest {| key_ := key_ s; pt_ := pt_ s; ct_ := ct_ s; pm_ := v |}
          end
      end
  end.

(** A trace of the capture is decoded into a new element of the slice, a
    zero [Trace], which [null] leaves as it is. *)
Definition decodeTrace (j : json) : error + Trace :=
  match j with
  | JObject fields =>
      match decodeFields fields
              {| key_ := (None, []); pt_ := (None, []); ct_ := (None, []);
                 pm_ := (None, []) |} with
      | inl e => inl e
      | inr s => inr (decoded s)
      end
  | JNull => inr zeroTrace
  | _ => inl errUnmarshalType
  end.

(** [gzip.NewReader] on bytes it turns down: [io.ReadFull] of the ten bytes
    of the header gives [io.EOF] when there is no byte and
    [io.ErrUnexpectedEOF] when there are fewer than ten; ten bytes that do
    not start a gzip member give [gzip.ErrHeader]. *)
Definition gzip_NewReader (raw : list byte) : error :=
  if (length raw =? 0)%nat then errEOF
  else if (length raw <? 10)%nat then errUnexpectedEOF
  else errHeader.

Definition LoadCaptureIo (src : file) : error + Capture :=
  match src with
  | NotGzip raw _ => inl (Wrapf "gzip NewReader failed %v" (gzip_NewReader raw))
  | Gzip doc =>
      (* var capture Capture; decoder.Decode(&capture) *)
      match decodeSlice (fun _ => decodeTrace) zeroTrace doc (None, []) with
      | inl e => inl (Wrapf "JSON decoder failed %v" e)
      | inr capture => inr (fst capture)
      end
  end.

Definition finiteTrace (t : Trace) : bool :=
  forallb finite (elems (PowerMeasurements t)).

Definition finiteCapture (c : Capture) : bool := forallb finiteTrace (elems c).

(** The document of a trace whose measurements are finite. *)
Definition floatsJson (s : slice float) : json :=
  match s with None => JNull | Some l => JArray (map JNumber l) end.

Definition traceJson (t : Trace) : json :=
  JObject [("k", encodeBytes (Key t)); ("pt", encodeBytes (Pt t));
           ("ct", encodeBytes (Ct t)); ("pm", floatsJson (PowerMeasurements t))].

(** The capture of TestSaveLoad (capture_test.go), followed by a trace with
    an empty key, a nil plaintext and no measurements. *)
#[warnings="-inexact-float"]
Definition testCapture : Capture :=
  Some [ {| Key := Some [Byte.x01]; Pt := Some [Byte.x02]; Ct := Some [Byte.x03];
            PowerMeasurements := Some [4.5%float; 6.7%float] |};
         {| Key := Some []; Pt := None; Ct := Some [Byte.x03];
            PowerMeasurements := Some [] |} ].

(** A capture with a measurement that is not a number. *)
Definition nanCapture : Capture :=
  Some [ {| Key := Some [Byte.x01]; Pt := Some [Byte.x02]; Ct := Some [Byte.x03];
            PowerMeasurements := Some [PrimFloat.nan] |} ].

(** A capture with an infinite measurement in its second trace. *)
Definition infCapture : Capture :=
  Some [ {| Key := Some [Byte.x01]; Pt := Some [Byte.x02]; Ct := Some [Byte.x03];
            PowerMeasurements := Some [0.5%float] |};
         {| Key := Some [Byte.x01]; Pt := Some [Byte.x04]; Ct := Some [Byte.x05];
            PowerMeasurements := Some [0.25%float; PrimFloat.neg_infinity] |} ].

(** Documents no [SaveIo] writes: keys in capitals and with the Kelvin sign,
    a key twice, [null] for a measurement, bytes as an array of numbers. *)
Definition foreignDocument : json :=
  JArray [ JObject [("K", JString [Byte.x01]);
                    ("PM", JArray [JNumber 1%float; JNumber 2%float; JNumber 3%float]);
                    ("pm", JArray [JNumber 5%float]);
                    ("Pm", JArray [JNull; JNull; JNull; JNull]);
                    ("unknown", JBool true)];
           JNull;
           JObject [(String "226" (String "132" (String "170" EmptyString)),
                     JArray [JNumber 7%float; JNull; JNumber 255%float])] ].

End Capture.

(** ** The notions of the specification *)

Module Spec.




(** The decoding of the sample stream in the words of the specification and
    of the comment in [ProcessTraceData]: while no sample was produced a word
    of tag 3 gives nothing and a word of tag [t < 3] gives its last [3 - t]
    samples; every later word gives its three samples; always in the order of
    bits [0:10), [10:20), [20:30). *)
Definition wordSamples (word : Z) : list float :=
  [Adc.measurement (Z.land word 0x3ff);
   Adc.measurement (Z.land (Z.shiftr word 10) 0x3ff);
   Adc.measurement (Z.land (Z.shiftr word 20) 0x3ff)].

Fixpoint decode (words : list Z) (triggerFound : bool) : list float :=
  match words with
  | [] => []
  | w :: ws =>
      if triggerFound then wordSamples w ++ decode ws true
      else if Z.shiftr w 30 =? 3 then decode ws false
      else skipn (Z.to_nat (Z.shiftr w 30)) (wordSamples w) ++ decode ws true
  end.

(** The 4-byte big-endian words after the sync byte. *)
Fixpoint words (bs : list byte) : list Z :=
  match bs with
  | b0 :: b1 :: b2 :: b3 :: rest => be_uint [b0; b1; b2; b3] :: words rest
  | _ => []
  end.

(** The decoding as the loop of [ProcessTraceData] performs it: the samples
    kept of the first word that has any come out last-first. *)
Fixpoint decodeAsCoded (words : list Z) (triggerFound : bool) : list float :=
  match words with
  | [] => []
  | w :: ws =>
      if triggerFound then wordSamples w ++ decodeAsCoded ws true
      else if Z.shiftr w 30 =? 3 then decodeAsCoded ws false
      else rev (skipn (Z.to_nat (Z.shiftr w 30)) (wordSamples w)) ++ decodeAsCoded ws true
  end.

(** The clock-generator search in the words of the specification. *)
Definition maxDivider (inputFreq : Z) : Z :=
  if inputFreq <? 52000000 then Z.min 256 (inputFreq / 500000) else 256.

Definition freqError (targetFreq inputFreq multiplier divider : Z) : Z :=
  Z.abs (targetFreq - inputFreq * multiplier / divider).


End Spec.

(** ** adc_interface.go *)

Module AdcTypes.

(** [HwType] is an [int]; the controller obtains it from five bits of the
    version register. *)
Definition HwType := Z.

Definition HwUnknown : HwType := 0.
Definition HwChipWhispererLite : HwType := 8.
Definition HwChipWhispererCw1200 : HwType := 9.

(** [HwVersion{RegVersion, HwType, HwVersion}]. *)
Record HwVersion : Type := {
  RegVersion : Z;
  HwTypeOf : HwType;
  HwVersionOf : Z
}.

(** The enumerations; each is listed in the order of its [iota]. *)
Inductive GainMode : Type := GainModeHigh | GainModeLow.

Inductive TriggerMode : Type :=
| TriggerModeRisingEdge | TriggerModeFallingEdge | TriggerModeLow | TriggerModeHigh.

Inductive AdcSrc : Type := AdcSrcDcm | AdcSrcExtClk.

Inductive DcmInput : Type := DcmInputClkGen | DcmInputExtClk.

(** [AdcSrcTuple{AdcSrc, DcmOut, DcmInput}]; [DcmOut] is an [int]. *)
Record AdcSrcTuple : Type := {
  AdcSrcOf : AdcSrc;
  DcmOut : Z;
  DcmInputOf : DcmInput
}.

Definition AdcSrcExtClkDirect : AdcSrcTuple :=
  {| AdcSrcOf := AdcSrcExtClk; DcmOut := 4; DcmInputOf := DcmInputClkGen |}.
Definition AdcSrcExtClkX4ViaDcm : AdcSrcTuple :=
  {| AdcSrcOf := AdcSrcDcm; DcmOut := 4; DcmInputOf := DcmInputExtClk |}.
Definition AdcSrcExtClkX1ViaDcm : AdcSrcTuple :=
  {| AdcSrcOf := AdcSrcDcm; DcmOut := 1; DcmInputOf := DcmInputExtClk |}.
Definition AdcSrcClkGenX4ViaDcm : AdcSrcTuple :=
  {| AdcSrcOf := AdcSrcDcm; DcmOut := 4; DcmInputOf := DcmInputClkGen |}.
Definition AdcSrcClkGenX1ViaDcm : AdcSrcTuple :=
  {| AdcSrcOf := AdcSrcDcm; DcmOut := 1; DcmInputOf := DcmInputClkGen |}.

Inductive FreqCounterSrc : Type := FreqCounterExtClkInput | FreqCounterClkGenOutput.

Inductive ClkGenInputSrc : Type := ClkGenInputSystem | ClkGenInputExtClk.

Inductive TriggerTargetIoPin : Type :=
| TriggerTargetIoPin1 | TriggerTargetIoPin2 | TriggerTargetIoPin3 | TriggerTargetIoPin4.

Inductive TargetIoMode : Type :=
| TargetIoModeSerialRx | TargetIoModeSerialTx | TargetIoModeHighZ
| TargetIoModeGpioLow | TargetIoModeGpioHigh | TargetIoModeGpioDisabled.

(** The [int] behind a [TargetIoMode], as [%v] prints it. *)
Definition TargetIoMode_int (m : TargetIoMode) : Z :=
  match m with
  | TargetIoModeSerialRx => 0
  | TargetIoModeSerialTx => 1
  | TargetIoModeHighZ => 2
  | TargetIoModeGpioLow => 3
  | TargetIoModeGpioHigh => 4
  | TargetIoModeGpioDisabled => 5
  end.

Inductive Hs2Mode : Type := Hs2ModeDisabled | Hs2ModeClkGen | Hs2ModeGlitch.

Inductive GpioMode : Type := GpioLow | GpioHigh | GpioDisabled.

End AdcTypes.

(** ** adc.go: the registers of the controller *)

Module AdcRegisters.
Import Adc.
Import AdcTypes.

Definition addrFreq : Z := 5.
Definition addrAdvClk : Z := 6.
Definition addrSysFreq : Z := 7.
Definition addrAdcFreq : Z := 8.
Definition addrVersions : Z := 10.
Definition addrDecimate : Z := 15.
Definition addrPresamples : Z := 17.
Definition addrTriggerDur : Z := 20.
Definition addrExtClk : Z := 38.
Definition addrTrigSrc : Z := 39.
Definition addrIoRoute : Z := 55.

Definition settingsReset : Z := 0x01.
Definition settingsGainHigh : Z := 0x02.
Definition settingsTrigHigh : Z := 0x04.
Definition settingsTrigLow : Z := 0x00.
Definition settingsWaitYes : Z := 0x20.
Definition settingsWaitNo : Z := 0x00.

Definition statusArmMask : Z := 0x01.
Definition statusFifoMask : Z := 0x02.
Definition statusExtMask : Z := 0x04.

Definition pinRtio1 : Z := 0x04.
Definition pinRtio2 : Z := 0x08.
Definition pinRtio3 : Z := 0x10.
Definition pinRtio4 : Z := 0x20.
Definition modeOr : Z := 0x00.

Definition ioRouteHighZ : Z := 0x00.
Definition ioRouteSTX : Z := 0x01.
Definition ioRouteSRX : Z := 0x02.
Definition ioRouteUSIO : Z := 0x04.
Definition ioRouteUSII : Z := 0x08.
Definition ioRouteGpio : Z := 0x40.
Definition ioRouteGpioE : Z := 0x80.

Definition nrstPinNum : Z := 100.
Definition pdidPinNum : Z := 101.
Definition pdicPinNum : Z := 102.

Definition unknownHwVersion : HwVersion :=
  {| RegVersion := 0; HwTypeOf := HwUnknown; HwVersionOf := 0 |}.

Definition uint16 (z : Z) : Z := z mod 2 ^ 16.

Definition le_uint16 (z : Z) : list byte := [byte_of_Z z; byte_of_Z (z / 2 ^ 8)].

(** [x / y] on unsigned integers; [None] is the run-time panic of a division
    by zero. *)
Definition divide (x y : Z) : option Z :=
  if y =? 0 then None else Some (x / y).

(** [uint32(f)] for a [float64]: the fraction is discarded.  For a value that
    [uint32] cannot represent the language leaves the result to the
    implementation; the model keeps the low 32 bits of the truncated value,
    and 0 for an infinity or a NaN. *)
Definition truncate (f : float) : Z :=
  match Prim2SF f with
  | S754_finite s m e =>
      let v := if 0 <=? e then Z.pos m * 2 ^ e else Z.pos m / 2 ^ (- e) in
      if s then - v else v
  | _ => 0
  end.

Definition uint32_of_float64 (f : float) : Z := uint32 (truncate f).

(** [buf[i]] and [buf[i] = v] on a buffer that has an index [i]. *)
Definition at_ (buf : list byte) (i : nat) : Z := byte_to_Z (nth i buf Byte.x00).

Fixpoint store (buf : list byte) (i : nat) (v : Z) : list byte :=
  match buf, i with
  | [], _ => []
  | _ :: rest, O => byte_of_Z v :: rest
  | b :: rest, S i' => b :: store rest i' v
  end.

(** The four [uint8] fields of [AdvClkSettings], in the order in which
    [binary.Read] and [binary.Write] lay them out. *)
Record AdvClkSettings : Type := {
  SrcAndStatus : Z;
  Mul : Z;
  Div : Z;
  ClkGenFlags : Z
}.

Definition zeroAdvClk : AdvClkSettings :=
  {| SrcAndStatus := 0; Mul := 0; Div := 0; ClkGenFlags := 0 |}.

Definition decodeAdvClk (buf : list byte) : AdvClkSettings :=
  {| SrcAndStatus := at_ buf 0; Mul := at_ buf 1; Div := at_ buf 2; ClkGenFlags := at_ buf 3 |}.

Definition encodeAdvClk (s : AdvClkSettings) : list byte :=
  [byte_of_Z (SrcAndStatus s); byte_of_Z (Mul s); byte_of_Z (Div s); byte_of_Z (ClkGenFlags s)].

Definition withSrcAndStatus (s : AdvClkSettings) (v : Z) : AdvClkSettings :=
  {| SrcAndStatus := v; Mul := Mul s; Div := Div s; ClkGenFlags := ClkGenFlags s |}.

Definition withMul (s : AdvClkSettings) (v : Z) : AdvClkSettings :=
  {| SrcAndStatus := SrcAndStatus s; Mul := v; Div := Div s; ClkGenFlags := ClkGenFlags s |}.

Definition withDiv (s : AdvClkSettings) (v : Z) : AdvClkSettings :=
  {| SrcAndStatus := SrcAndStatus s; Mul := Mul s; Div := v; ClkGenFlags := ClkGenFlags s |}.

Definition withClkGenFlags (s : AdvClkSettings) (v : Z) : AdvClkSettings :=
  {| SrcAndStatus := SrcAndStatus s; Mul := Mul s; Div := Div s; ClkGenFlags := v |}.

Definition clkReadMask : list byte := [Byte.x1f; Byte.xff; Byte.xff; Byte.xfd].

(** [c.hwMaxSamples = n] and [c.extClockFreq = n]. *)
Definition setHwMaxSamples (n : Z) : A unit :=
  fun s => (tt, ({| err := err (fst s); hwMaxSamples := n;
                    extClockFreq := extClockFreq (fst s) |}, snd s)).

Definition setExtClockFreq (n : Z) : A unit :=
  fun s => (tt, ({| err := err (fst s); hwMaxSamples := hwMaxSamples (fst s);
                    extClockFreq := n |}, snd s)).

(** The bit of [buf[6]] that enables a special pin; the bit above it is the
    level of the pin. *)
Definition bitnum (pinnum : Z) : Z :=
  if pinnum =? nrstPinNum then 0
  else if pinnum =? pdidPinNum then 2
  else if pinnum =? pdicPinNum then 4
  else 0.

Section AdcRegisters.
Context (d : Device).

(** *** Hardware information *)

Definition Version : A HwVersion :=
  e <- Error ;;
  match e with
  | Some _ => ret unknownHwVersion
  | None =>
      r <- memRead d addrVersions 6 ;;
      match r with
      | None => ret unknownHwVersion
      | Some buf =>
          ret {| RegVersion := Z.land (at_ buf 0) 0xff;
                 HwTypeOf := Z.shiftr (at_ buf 1) 3;
                 HwVersionOf := Z.land (at_ buf 1) 0x07 |}
      end
  end.

Definition SysFreq : A Z :=
  e <- Error ;;
  match e with
  | Some _ => ret 0
  | None =>
      r <- memRead d addrSysFreq 4 ;;
      match r with
      | None => ret 0
      | Some buf => ret (le_uint buf)
      end
  end.

(** *** Gain and trigger settings *)

Definition GainMode : A AdcTypes.GainMode :=
  s <- settings d ;;
  if 0 <? Z.land s settingsGainHigh then ret GainModeHigh else ret GainModeLow.

Definition SetGainMode (mode : AdcTypes.GainMode) : A unit :=
  match mode with
  | GainModeHigh =>
      s <- settings d ;;
      setSettings d (Z.lor s settingsGainHigh) true
  | GainModeLow =>
      s <- settings d ;;
      setSettings d (Z.land s (uint8 (Z.lnot settingsGainHigh))) true
  end.

Definition TriggerPinState : A bool :=
  s <- status d ;;
  ret (0 <? Z.land s statusExtMask).

Definition TriggerMode : A AdcTypes.TriggerMode :=
  settings <- settings d ;;
  let c := Z.land settings (Z.lor settingsTrigHigh settingsWaitYes) in
  if c =? Z.lor settingsTrigHigh settingsWaitYes then ret TriggerModeRisingEdge
  else if c =? Z.lor settingsTrigLow settingsWaitYes then ret TriggerModeFallingEdge
  else if c =? Z.lor settingsTrigHigh settingsWaitNo then ret TriggerModeHigh
  else ret TriggerModeLow.

Definition SetTriggerMode (mode : AdcTypes.TriggerMode) : A unit :=
  settings <- settings d ;;
  let settings := Z.land settings (uint8 (Z.lnot (Z.lor settingsTrigHigh settingsWaitYes))) in
  let settings :=
    match mode with
    | TriggerModeRisingEdge => Z.lor settings (Z.lor settingsTrigHigh settingsWaitYes)
    | TriggerModeFallingEdge => Z.lor settings (Z.lor settingsTrigLow settingsWaitYes)
    | TriggerModeHigh => Z.lor settings (Z.lor settingsTrigHigh settingsWaitNo)
    | TriggerModeLow => Z.lor settings (Z.lor settingsTrigLow settingsWaitNo)
    end in
  setSettings d settings true.

Definition PreTriggerSamples : A Z :=
  e <- Error ;;
  match e with
  | Some _ => ret 0
  | None =>
      r <- memRead d addrPresamples 4 ;;
      match r with
      | None => ret 0
      | Some buf =>
          let samples := le_uint buf in
          ver <- Version ;;
          (* CW1200/CW-Lite reports presamples using different method *)
          if (HwTypeOf ver =? HwChipWhispererLite) || (HwTypeOf ver =? HwChipWhispererCw1200)
          then ret (uint32 (samples * 3))
          else ret samples
      end
  end.

Definition SetPreTriggerSamples (samples : Z) : A unit :=
  e <- Error ;;
  match e with
  | Some _ => ret tt
  | None =>
      ver <- Version ;;
      e <- Error ;;
      match e with
      | Some _ => ret tt
      | None =>
          if negb (HwTypeOf ver =? HwChipWhispererLite)
             && negb (HwTypeOf ver =? HwChipWhispererCw1200)
          then setErr (Some (Errorf "Not reliable on hardware" []))
          else memWrite d addrPresamples (le_uint32 samples) true None
      end
  end.

Definition decimate : A Z :=
  e <- Error ;;
  match e with
  | Some _ => ret 0
  | None =>
      r <- memRead d addrDecimate 2 ;;
      match r with
      | None => ret 0
      | Some buf => ret (uint16 (le_uint buf + 1))
      end
  end.

Definition setDecimate (n : Z) : A unit :=
  e <- Error ;;
  match e with
  | Some _ => ret tt
  | None =>
      let n := uint16 (n - 1) in
      memWrite d addrDecimate (le_uint16 n) true None
  end.

Definition DownsampleFactor : A Z := decimate.

Definition SetDownsampleFactor (factor : Z) : A unit := setDecimate factor.

Definition ActiveCount : A Z :=
  e <- Error ;;
  match e with
  | Some _ => ret 0
  | None =>
      r <- memRead d addrTriggerDur 4 ;;
      match r with
      | None => ret 0
      | Some buf => ret (le_uint buf)
      end
  end.

(** *** Clock settings *)

Definition advClock : A AdvClkSettings :=
  e <- Error ;;
  match e with
  | Some _ => ret zeroAdvClk
  | None =>
      r <- memRead d addrAdvClk 4 ;;
      match r with
      | None => ret zeroAdvClk
      | Some buf => ret (decodeAdvClk buf)
      end
  end.

Definition setAdvClock (settings : AdvClkSettings) (validate : bool) : A unit :=
  e <- Error ;;
  match e with
  | Some _ => ret tt
  | None => memWrite d addrAdvClk (encodeAdvClk settings) validate (Some clkReadMask)
  end.

Definition resetAdc : A unit :=
  e <- Error ;;
  match e with
  | Some _ => ret tt
  | None =>
      settings <- advClock ;;
      let settings := withSrcAndStatus settings (Z.lor (SrcAndStatus settings) 0x10) in
      setAdvClock settings false ;;;
      let settings :=
        withSrcAndStatus settings (Z.land (SrcAndStatus settings) (uint8 (Z.lnot 0x10))) in
      setAdvClock settings false
  end.

Definition AdcClockSource : A AdcSrcTuple :=
  e <- Error ;;
  match e with
  | Some _ => ret {| AdcSrcOf := AdcSrcDcm; DcmOut := 0; DcmInputOf := DcmInputClkGen |}
  | None =>
      settings <- advClock ;;
      let s := Z.land (SrcAndStatus settings) 0x07 in
      ret {| AdcSrcOf := if 0 <? Z.land s 0x01 then AdcSrcExtClk else AdcSrcDcm;
             DcmOut := if 0 <? Z.land s 0x02 then 1 else 4;
             DcmInputOf := if 0 <? Z.land s 0x04 then DcmInputExtClk else DcmInputClkGen |}
  end.

Definition SetAdcClockSource (src : AdcSrcTuple) : A unit :=
  e <- Error ;;
  match e with
  | Some _ => ret tt
  | None =>
      settings <- advClock ;;
      let s := Z.land (SrcAndStatus settings) (uint8 (Z.lnot 0x07)) in
      let s := match DcmInputOf src with
               | DcmInputClkGen => s
               | DcmInputExtClk => Z.lor s 0x04
               end in
      match (if DcmOut src =? 4 then Some s
             else if DcmOut src =? 1 then Some (Z.lor s 0x02)
             else None) with
      | None => setErr (Some (Errorf "Invalid DcmOut value" []))
      | Some s =>
          let s := match AdcSrcOf src with
                   | AdcSrcDcm => s
                   | AdcSrcExtClk => Z.lor s 0x01
                   end in
          setAdvClock (withSrcAndStatus settings s) true ;;;
          resetAdc
      end
  end.

(** [float64(count) * (float64(sysFreq) / float64(1<<23))] as a [uint32]. *)
Definition scaleFreq (sysFreq count : Z) : Z :=
  let sampleFreq := PrimFloat.div (float64_of_int sysFreq) (float64_of_int (2 ^ 23)) in
  uint32_of_float64 (PrimFloat.mul (float64_of_int count) sampleFreq).

Definition AdcFreq : A Z :=
  e <- Error ;;
  match e with
  | Some _ => ret 0
  | None =>
      sysFreq <- SysFreq ;;
      e <- Error ;;
      match e with
      | Some _ => ret 0
      | None =>
          r <- memRead d addrAdcFreq 4 ;;
          match r with
          | None => ret 0
          | Some buf => ret (scaleFreq sysFreq (le_uint buf))
          end
      end
  end.

(** ADC Sample Rate. Takes account of decimation factor (if set).  [None] is
    the panic of the division. *)
Definition AdcSampleRate : A (option Z) :=
  e <- Error ;;
  match e with
  | Some _ => ret (Some 0)
  | None =>
      decimation <- decimate ;;
      freq <- AdcFreq ;;
      ret (divide freq (uint32 decimation))
  end.

Definition FreqCounter : A Z :=
  e <- Error ;;
  match e with
  | Some _ => ret 0
  | None =>
      sysFreq <- SysFreq ;;
      e <- Error ;;
      match e with
      | Some _ => ret 0
      | None =>
          r <- memRead d addrFreq 4 ;;
          match r with
          | None => ret 0
          | Some buf => ret (scaleFreq sysFreq (le_uint buf))
          end
      end
  end.

Definition DcmLocked : A bool :=
  settings <- advClock ;;
  ret (0 <? Z.land (SrcAndStatus settings) 0x40).

Definition ClkGenDcmLocked : A bool :=
  settings <- advClock ;;
  ret (0 <? Z.land (SrcAndStatus settings) 0x20).

Definition FreqCounterSource : A FreqCounterSrc :=
  settings <- advClock ;;
  if 0 <? Z.land (ClkGenFlags settings) 0x08 then ret FreqCounterClkGenOutput
  else ret FreqCounterExtClkInput.

Definition ClkGenInputSource : A ClkGenInputSrc :=
  settings <- advClock ;;
  if 0 <? Z.land (SrcAndStatus settings) 0x08 then ret ClkGenInputExtClk
  else ret ClkGenInputSystem.

Definition SetClkGenInputSource (src : ClkGenInputSrc) : A unit :=
  e <- Error ;;
  match e with
  | Some _ => ret tt
  | None =>
      settings <- advClock ;;
      let s := Z.land (SrcAndStatus settings) (uint8 (Z.lnot 0x08)) in
      let s := match src with
               | ClkGenInputSystem => s
               | ClkGenInputExtClk => Z.lor s 0x08
               end in
      setAdvClock (withSrcAndStatus settings s) true
  end.

Definition ExtClockFreq : A Z := fun s => (extClockFreq (fst s), s).

Definition SetExtClockFreq (freq : Z) : A unit :=
  e <- Error ;;
  match e with
  | Some _ => ret tt
  | None => setExtClockFreq freq
  end.

Definition reloadClkGen : A unit :=
  e <- Error ;;
  match e with
  | Some _ => ret tt
  | None =>
      settings <- advClock ;;
      let settings := withClkGenFlags settings (Z.lor (ClkGenFlags settings) 0x01) in
      setAdvClock settings true ;;;
      let settings :=
        withClkGenFlags settings (Z.land (ClkGenFlags settings) (uint8 (Z.lnot 0x01))) in
      setAdvClock settings true
  end.

Definition resetClkGen : A unit :=
  e <- Error ;;
  match e with
  | Some _ => ret tt
  | None =>
      settings <- advClock ;;
      let settings := withClkGenFlags settings (Z.lor (ClkGenFlags settings) 0x04) in
      setAdvClock settings false ;;;
      let settings :=
        withClkGenFlags settings (Z.land (ClkGenFlags settings) (uint8 (Z.lnot 0x04))) in
      setAdvClock settings false ;;;
      reloadClkGen
  end.

Definition SetFreqCounterSource (src : FreqCounterSrc) : A unit :=
  e <- Error ;;
  match e with
  | Some _ => ret tt
  | None =>
      settings <- advClock ;;
      let f := Z.land (ClkGenFlags settings) (uint8 (Z.lnot 0x08)) in
      let f := match src with
               | FreqCounterExtClkInput => f
               | FreqCounterClkGenOutput => Z.lor f 0x08
               end in
      setAdvClock (withClkGenFlags settings f) true ;;;
      resetClkGen ;;;
      resetAdc
  end.

Definition setClkGenMul (mul : Z) : A unit :=
  e <- Error ;;
  match e with
  | Some _ => ret tt
  | None =>
      if mul <? 2 then setErr (Some (Errorf "mul %v out of range" [mul]))
      else
        settings <- advClock ;;
        let settings := withMul settings (uint8 (uint8 mul - 1)) in
        let settings := withClkGenFlags settings (Z.lor (ClkGenFlags settings) 0x01) in
        setAdvClock settings true ;;;
        let settings :=
          withClkGenFlags settings (Z.land (ClkGenFlags settings) (uint8 (Z.lnot 0x01))) in
        setAdvClock settings true
  end.

Definition setClkGenDiv (div : Z) : A unit :=
  e <- Error ;;
  match e with
  | Some _ => ret tt
  | None =>
      if div <? 1 then setErr (Some (Errorf "div %v out of range" [div]))
      else
        settings <- advClock ;;
        let settings := withDiv settings (uint8 (uint8 div - 1)) in
        let settings := withClkGenFlags settings (Z.lor (ClkGenFlags settings) 0x01) in
        setAdvClock settings true ;;;
        let settings :=
          withClkGenFlags settings (Z.land (ClkGenFlags settings) (uint8 (Z.lnot 0x01))) in
        setAdvClock settings true
  end.

(** [for tries := 0; tries < 2; tries++ { ... }] of [clkGenMul], with the
    iterations that are left, and what follows the loop. *)
Fixpoint clkGenMulLoop (left : nat) : A Z :=
  match left with
  | O => setErr (Some (Errorf "Failed to read CLKGEN MUL value" [])) ;;; ret 0
  | S left' =>
      settings <- advClock ;;
      if Mul settings =? 0 then
        (* Fix initialization on FPGA *)
        setClkGenMul 2 ;;; clkGenMulLoop left'
      else if 0 <? Z.land (ClkGenFlags settings) 0x02 then ret (Mul settings + 1)
      else reloadClkGen ;;; clkGenMulLoop left'
  end.

Definition clkGenMul : A Z :=
  e <- Error ;;
  match e with
  | Some _ => ret 0
  | None => clkGenMulLoop 2
  end.

Fixpoint clkGenDivLoop (left : nat) : A Z :=
  match left with
  | O => setErr (Some (Errorf "Failed to read CLKGEN DIV value" [])) ;;; ret 1
  | S left' =>
      settings <- advClock ;;
      if 0 <? Z.land (ClkGenFlags settings) 0x02 then ret (Div settings + 1)
      else reloadClkGen ;;; clkGenDivLoop left'
  end.

Definition clkGenDiv : A Z :=
  e <- Error ;;
  match e with
  | Some _ => ret 1
  | None => clkGenDivLoop 2
  end.

(** The [switch c.ClkGenInputSource()] of the two functions below. *)
Definition clkGenInputFreq : A Z :=
  src <- ClkGenInputSource ;;
  match src with
  | ClkGenInputExtClk => ExtClockFreq
  | ClkGenInputSystem => SysFreq
  end.

(** [None] is the panic of the division. *)
Definition ClkGenOutputFreq : A (option Z) :=
  e <- Error ;;
  match e with
  | Some _ => ret (Some 0)
  | None =>
      inpFreq <- clkGenInputFreq ;;
      mul <- clkGenMul ;;
      div <- clkGenDiv ;;
      ret (divide (uint32 (inpFreq * mul)) div)
  end.

Definition SetClkGenOutputFreq (freq : Z) : A unit :=
  e <- Error ;;
  match e with
  | Some _ => ret tt
  | None =>
      inpFreq <- clkGenInputFreq ;;
      let '(mul, div) := calcClkGenMulDiv freq inpFreq in
      setClkGenMul (uint32 mul) ;;;
      setClkGenDiv (uint32 div) ;;;
      resetClkGen ;;;
      resetAdc
  end.

(** *** Trigger and pin settings *)

Definition TriggerTargetIoPins : A (list TriggerTargetIoPin) :=
  e <- Error ;;
  match e with
  | Some _ => ret []
  | None =>
      r <- memRead d addrTrigSrc 1 ;;
      match r with
      | None => ret []
      | Some buf =>
          let pins := le_uint buf in
          let res := [] in
          let res := if 0 <? Z.land pins pinRtio1 then res ++ [TriggerTargetIoPin1] else res in
          let res := if 0 <? Z.land pins pinRtio2 then res ++ [TriggerTargetIoPin2] else res in
          let res := if 0 <? Z.land pins pinRtio3 then res ++ [TriggerTargetIoPin3] else res in
          let res := if 0 <? Z.land pins pinRtio4 then res ++ [TriggerTargetIoPin4] else res in
          ret res
      end
  end.

Definition SetTriggerTargetIoPin (pin : TriggerTargetIoPin) : A unit :=
  e <- Error ;;
  match e with
  | Some _ => ret tt
  | None =>
      let pins := 0 in
      let pins :=
        match pin with
        | TriggerTargetIoPin1 => Z.lor pins pinRtio1
        | TriggerTargetIoPin2 => Z.lor pins pinRtio2
        | TriggerTargetIoPin3 => Z.lor pins pinRtio3
        | TriggerTargetIoPin4 => Z.lor pins pinRtio4
        end in
      let pins := Z.lor pins (uint8 (Z.shiftl modeOr 6)) in
      memWrite d addrTrigSrc [byte_of_Z pins] true None
  end.

(** [tio] and the functions below index the 8-byte route buffer with
    [pinnum], which their callers take from 0 and 1. *)
Definition tio (pinnum : nat) : A Z :=
  e <- Error ;;
  match e with
  | Some _ => ret 0
  | None =>
      r <- memRead d addrIoRoute 8 ;;
      match r with
      | None => ret 0
      | Some buf =>
          (* Don't include GPIO state in mode check *)
          let mode := Z.land (at_ buf pinnum) (uint8 (Z.lnot ioRouteGpio)) in
          if (mode =? ioRouteSTX) || (mode =? ioRouteSRX) || (mode =? ioRouteUSIO)
             || (mode =? ioRouteUSII) || (mode =? ioRouteGpioE) || (mode =? ioRouteHighZ)
          then ret mode
          else setErr (Some (Errorf "Unknown TIO mode %v" [mode])) ;;; ret 0
      end
  end.

Definition setTio (pinnum : nat) (mode : Z) : A unit :=
  e <- Error ;;
  match e with
  | Some _ => ret tt
  | None =>
      r <- memRead d addrIoRoute 8 ;;
      match r with
      | None => ret tt
      | Some buf => memWrite d addrIoRoute (store buf pinnum mode) true None
      end
  end.

Definition gpio (pinnum : nat) : A GpioMode :=
  e <- Error ;;
  match e with
  | Some _ => ret GpioLow
  | None =>
      r <- memRead d addrIoRoute 8 ;;
      match r with
      | None => ret GpioLow
      | Some buf =>
          if Z.land (at_ buf pinnum) ioRouteGpioE =? 0 then ret GpioDisabled
          else if 0 <? Z.land (at_ buf pinnum) ioRouteGpio then ret GpioHigh
          else ret GpioLow
      end
  end.

Definition setGpio (pinnum : nat) (mode : GpioMode) : A unit :=
  e <- Error ;;
  match e with
  | Some _ => ret tt
  | None =>
      r <- memRead d addrIoRoute 8 ;;
      match r with
      | None => ret tt
      | Some buf =>
          if Z.land (at_ buf pinnum) ioRouteGpioE =? 0 then
            setErr (Some (Errorf "TargetIO %v is not in GPIO mode" [Z.of_nat pinnum]))
          else
            let buf :=
              match mode with
              | GpioHigh => store buf pinnum (Z.lor (at_ buf pinnum) ioRouteGpio)
              | GpioLow => store buf pinnum (Z.land (at_ buf pinnum) (uint8 (Z.lnot ioRouteGpio)))
              | GpioDisabled => buf
              end in
            memWrite d addrIoRoute buf true None
      end
  end.

(** Special GPIO nRST, PDID, PDIC. *)
Definition specialGpio (pinnum : Z) : A GpioMode :=
  e <- Error ;;
  match e with
  | Some _ => ret GpioLow
  | None =>
      r <- memRead d addrIoRoute 8 ;;
      match r with
      | None => ret GpioLow
      | Some buf =>
          let bitnum := bitnum pinnum in
          if Z.land (at_ buf 6) (Z.shiftl 1 bitnum) =? 0 then ret GpioDisabled
          else if 0 <? Z.land (at_ buf 6) (Z.shiftl 1 (bitnum + 1)) then ret GpioHigh
          else ret GpioLow
      end
  end.

Definition setSpecialGpio (pinnum : Z) (mode : GpioMode) : A unit :=
  e <- Error ;;
  match e with
  | Some _ => ret tt
  | None =>
      r <- memRead d addrIoRoute 8 ;;
      match r with
      | None => ret tt
      | Some buf =>
          let bitnum := bitnum pinnum in
          let buf :=
            match mode with
            | GpioDisabled =>
                store buf 6 (Z.land (at_ buf 6) (uint8 (Z.lnot (Z.shiftl 1 bitnum))))
            | GpioHigh =>
                let buf := store buf 6 (Z.lor (at_ buf 6) (Z.shiftl 1 bitnum)) in
                store buf 6 (Z.lor (at_ buf 6) (Z.shiftl 1 (bitnum + 1)))
            | GpioLow =>
                let buf := store buf 6 (Z.lor (at_ buf 6) (Z.shiftl 1 bitnum)) in
                store buf 6 (Z.land (at_ buf 6) (uint8 (Z.lnot (Z.shiftl 1 (bitnum + 1)))))
            end in
          memWrite d addrIoRoute buf true None
      end
  end.

Definition targetIo (pinnum : nat) : A TargetIoMode :=
  e <- Error ;;
  match e with
  | Some _ => ret TargetIoModeSerialRx
  | None =>
      tioMode <- tio pinnum ;;
      if tioMode =? ioRouteGpioE then
        g <- gpio pinnum ;;
        match g with
        | GpioLow => ret TargetIoModeGpioLow
        | GpioHigh => ret TargetIoModeGpioHigh
        | GpioDisabled => ret TargetIoModeGpioDisabled
        end
      else if tioMode =? ioRouteSTX then ret TargetIoModeSerialTx
      else if tioMode =? ioRouteSRX then ret TargetIoModeSerialRx
      else
        setErr (Some (Errorf "Unsupported tio mode %v" [tioMode])) ;;;
        ret TargetIoModeSerialRx
  end.

Definition setTargetIo (pinnum : nat) (mode : TargetIoMode) : A unit :=
  e <- Error ;;
  match e with
  | Some _ => ret tt
  | None =>
      match mode with
      | TargetIoModeSerialRx => setTio pinnum ioRouteSRX
      | TargetIoModeSerialTx => setTio pinnum ioRouteSTX
      | TargetIoModeGpioLow => setTio pinnum ioRouteGpioE ;;; setGpio pinnum GpioLow
      | TargetIoModeGpioHigh => setTio pinnum ioRouteGpioE ;;; setGpio pinnum GpioHigh
      | _ => setErr (Some (Errorf "Unsupported TIO mode %v" [TargetIoMode_int mode]))
      end
  end.

Definition TargetIo1 : A TargetIoMode := targetIo 0.
Definition SetTargetIo1 (mode : TargetIoMode) : A unit := setTargetIo 0 mode.
Definition TargetIo2 : A TargetIoMode := targetIo 1.
Definition SetTargetIo2 (mode : TargetIoMode) : A unit := setTargetIo 1 mode.

Definition NRST : A GpioMode := specialGpio nrstPinNum.
Definition SetNRST (mode : GpioMode) : A unit := setSpecialGpio nrstPinNum mode.
Definition PDIC : A GpioMode := specialGpio pdicPinNum.
Definition SetPDIC (mode : GpioMode) : A unit := setSpecialGpio pdicPinNum mode.
Definition PDID : A GpioMode := specialGpio pdidPinNum.
Definition SetPDID (mode : GpioMode) : A unit := setSpecialGpio pdidPinNum mode.

Definition targetClkOut : A Z :=
  e <- Error ;;
  match e with
  | Some _ => ret 0
  | None =>
      r <- memRead d addrExtClk 1 ;;
      match r with
      | None => ret 0
      | Some buf => ret (Z.shiftr (Z.land (le_uint buf) (Z.shiftl 3 5)) 5)
      end
  end.

Definition setTargetClkOut (clkout : Z) : A unit :=
  e <- Error ;;
  match e with
  | Some _ => ret tt
  | None =>
      r <- memRead d addrExtClk 1 ;;
      match r with
      | None => ret tt
      | Some buf =>
          let data := le_uint buf in
          let data := Z.land data (uint8 (Z.lnot (Z.shiftl 3 5))) in
          let data := Z.lor data (uint8 (Z.shiftl clkout 5)) in
          memWrite d addrExtClk [byte_of_Z data] true None
      end
  end.

Definition Hs2 : A Hs2Mode :=
  clk <- targetClkOut ;;
  if clk =? 0 then ret Hs2ModeDisabled
  else if clk =? 2 then ret Hs2ModeClkGen
  else if clk =? 3 then ret Hs2ModeGlitch
  else setErr (Some (Errorf "Failed to get target clk" [])) ;;; ret Hs2ModeDisabled.

Definition SetHs2 (mode : Hs2Mode) : A unit :=
  e <- Error ;;
  match e with
  | Some _ => ret tt
  | None =>
      match mode with
      | Hs2ModeDisabled => setTargetClkOut 0
      | Hs2ModeClkGen => setTargetClkOut 2
      | Hs2ModeGlitch => setTargetClkOut 3
      end
  end.

(** *** Reset *)

Definition setResetOn : A unit :=
  s <- settings d ;;
  setSettings d (Z.lor s settingsReset) false ;;;
  (* HACK: adjust max samples, since the number should be smaller than what
     is being returned. *)
  n <- numSamples d ;;
  let hwMaxSamples := uint32 (n - 45) in
  setHwMaxSamples hwMaxSamples ;;;
  setNumSamples d hwMaxSamples.

Definition setResetOff : A unit :=
  s <- settings d ;;
  setSettings d (Z.land s (uint8 (Z.lnot settingsReset))) true.

(** [WaitForTigger]: the goroutine polls the status register until the
    two-second timer has fired; the caller waits for it and disarms.  Each
    element of [timer] is one [select] on [timedOut.C]: [true] when the
    timer has fired.  [None] stands for a loop that is still polling when
    the observations are used up. *)
Fixpoint waitLoop (timer : list bool) : A (option bool) :=
  match timer with
  | [] => ret None
  | fired :: timer' =>
      if fired then
        setTriggerNow d ;;;
        ret (Some true)
      else
        status <- status d ;;
        if negb (Z.land status statusArmMask =? statusArmMask)
           && negb (Z.land status statusFifoMask =? 0)
        then ret (Some false)
        else waitLoop timer'
  end.

Definition WaitForTigger (timer : list bool) : A (option bool) :=
  r <- waitLoop timer ;;
  match r with
  | None => ret None
  | Some timedOut => SetArmOff d ;;; ret (Some timedOut)
  end.

End AdcRegisters.

End AdcRegisters.

(** ** A device that keeps its registers *)

Module Registers.

(** The transfers of a control-framed read and of a control-framed write of
    the register at [addr], as [Memory.Read] and [Memory.Write] issue them. *)
Definition readHeader (addr : Z) (size : nat) : Call :=
  ControlOutCall ReqMemReadCtrl 0
    (Memory.AddressBlock (uint32 (Z.of_nat size)) (uint32 addr)).

Definition readCalls (addr : Z) (size : nat) : list Call :=
  [readHeader addr size; ControlInCall ReqMemReadCtrl 0 size].

Definition writeCall (addr : Z) (data : list byte) : Call :=
  ControlOutCall ReqMemWriteCtrl 0
    (Memory.AddressBlock (uint32 (Z.of_nat (length data))) (uint32 addr) ++ data).

(** The address and the payload of a control-framed write. *)
Definition writeOf (c : Call) : option (Z * list byte) :=
  match c with
  | ControlOutCall req _ buf =>
      if req =? ReqMemWriteCtrl
      then Some (le_uint (firstn 4 (skipn 4 buf)), skipn 8 buf)
      else None
  | _ => None
  end.

Definition latest (addr : Z) (acc : option (list byte)) (c : Call) : option (list byte) :=
  match writeOf c with
  | Some (a, data) => if a =? addr then Some data else acc
  | None => acc
  end.

(** What the transfers of [h] wrote last to the register at [addr]. *)
Definition lastWrite (addr : Z) (h : History) : option (list byte) :=
  fold_left (latest addr) h None.

(** The answer of the device to a read of [size] bytes at [addr] that starts
    after [h]. *)
Definition answer (d : Device) (addr : Z) (size : nat) (h : History) : list byte :=
  fst (control_in d (h ++ [readHeader addr size]) ReqMemReadCtrl 0 size).

(** A device whose control transfers succeed and whose registers hold what
    was written to them: a read of a register returns the bytes of the last
    write to it when it asks for as many bytes as were written. *)
Record RegisterFile (d : Device) : Prop := {
  accepts : forall h req val buf,
      control_out d h req val buf = (Z.of_nat (length buf), None);
  answers : forall h req val size,
      snd (control_in d h req val size) = None /\
      length (fst (control_in d h req val size)) = size;
  keeps : forall h addr data,
      lastWrite (uint32 addr) h = Some data ->
      answer d addr (length data) h = data
}.

(** Such a device, with the content [init addr] in the registers that were
    not written yet. *)
Definition headerOf (h : History) : option Z :=
  match last h (SleepCall 0) with
  | ControlOutCall req _ hdr =>
      if req =? ReqMemReadCtrl then Some (le_uint (skipn 4 hdr)) else None
  | _ => None
  end.

Definition pad (size : nat) (bs : list byte) : list byte :=
  firstn size (bs ++ repeat Byte.x00 size).

Definition registers (init : Z -> list byte) : Device := {|
  control_in := fun h _ _ size =>
    match headerOf h with
    | Some addr =>
        match lastWrite addr h with
        | Some data =>
            if Nat.eqb (length data) size then (data, None)
            else (pad size (init addr), None)
        | None => (pad size (init addr), None)
        end
    | None => (repeat Byte.x00 size, None)
    end;
  control_out := fun _ _ _ buf => (Z.of_nat (length buf), None);
  ep_in_read := fun _ size => (repeat Byte.x00 size, None);
  ep_out_write := fun _ buf => (Z.of_nat (length buf), None)
|}.

(** The 256 bytes. *)
Definition allBytes : list byte := map byte_of_Z (map Z.of_nat (seq 0 256)).

(** The registers of a board that was just powered: all bytes are zero. *)
Definition blankRegisters : Device := registers (fun _ => []).

(** A board whose version register reads as a ChipWhisperer-Lite, register
    version 1, hardware version 0. *)
Definition liteRegisters : Device :=
  registers (fun addr => if addr =? 10 then [Byte.x01; Byte.x40] else []).

(** A board whose clock register selects the external clock as the input of
    the clock generator and shows the generator as loaded. *)
Definition clockedRegisters : Device :=
  registers (fun addr => if addr =? 6 then [Byte.x08; Byte.x00; Byte.x00; Byte.x02] else []).

End Registers.

(** ** Sequences of operations on one register *)

Module AdcOps.
Import Adc.
Import AdcTypes.
Import AdcRegisters.

(** [ops] one after the other. *)
Fixpoint runAll {O : Type} (run : O -> A unit) (ops : list O) : A unit :=
  match ops with
  | [] => ret tt
  | op :: rest => run op ;;; runAll run rest
  end.

(** The functions of adc.go that write the settings register. *)
Inductive SettingsOp : Type :=
| OpSetGainMode (mode : AdcTypes.GainMode)
| OpSetTriggerMode (mode : AdcTypes.TriggerMode)
| OpSetArmOn
| OpSetArmOff
| OpSetTriggerNow
| OpSetResetOff.

Definition runSettingsOp (d : Device) (op : SettingsOp) : A unit :=
  match op with
  | OpSetGainMode mode => SetGainMode d mode
  | OpSetTriggerMode mode => SetTriggerMode d mode
  | OpSetArmOn => SetArmOn d
  | OpSetArmOff => SetArmOff d
  | OpSetTriggerNow => setTriggerNow d
  | OpSetResetOff => setResetOff d
  end.

(** The gain mode and the trigger mode that a sequence asks for last, when
    they were [g] and [t] before it. *)
Fixpoint gainModeAfter (ops : list SettingsOp) (g : AdcTypes.GainMode) : AdcTypes.GainMode :=
  match ops with
  | [] => g
  | OpSetGainMode mode :: rest => gainModeAfter rest mode
  | _ :: rest => gainModeAfter rest g
  end.

Fixpoint triggerModeAfter (ops : list SettingsOp) (t : AdcTypes.TriggerMode)
  : AdcTypes.TriggerMode :=
  match ops with
  | [] => t
  | OpSetTriggerMode mode :: rest => triggerModeAfter rest mode
  | _ :: rest => triggerModeAfter rest t
  end.

(** The functions of adc.go that write the clock register. *)
Inductive ClockOp : Type :=
| OpSetAdcClockSource (src : AdcSrcTuple)
| OpSetClkGenInputSource (src : ClkGenInputSrc)
| OpSetFreqCounterSource (src : FreqCounterSrc)
| OpSetClkGenMul (mul : Z)
| OpSetClkGenDiv (div : Z)
| OpReloadClkGen
| OpResetClkGen
| OpResetAdc.

Definition runClockOp (d : Device) (op : ClockOp) : A unit :=
  match op with
  | OpSetAdcClockSource src => SetAdcClockSource d src
  | OpSetClkGenInputSource src => SetClkGenInputSource d src
  | OpSetFreqCounterSource src => SetFreqCounterSource d src
  | OpSetClkGenMul mul => setClkGenMul d mul
  | OpSetClkGenDiv div => setClkGenDiv d div
  | OpReloadClkGen => reloadClkGen d
  | OpResetClkGen => resetClkGen d
  | OpResetAdc => resetAdc d
  end.

(** The arguments that the functions accept. *)
Definition acceptedClockOp (op : ClockOp) : bool :=
  match op with
  | OpSetAdcClockSource src => (DcmOut src =? 4) || (DcmOut src =? 1)
  | OpSetClkGenMul mul => 2 <=? mul
  | OpSetClkGenDiv div => 1 <=? div
  | _ => true
  end.

Fixpoint adcClockSourceAfter (ops : list ClockOp) (s : AdcSrcTuple) : AdcSrcTuple :=
  match ops with
  | [] => s
  | OpSetAdcClockSource src :: rest => adcClockSourceAfter rest src
  | _ :: rest => adcClockSourceAfter rest s
  end.

Fixpoint clkGenInputSourceAfter (ops : list ClockOp) (s : ClkGenInputSrc) : ClkGenInputSrc :=
  match ops with
  | [] => s
  | OpSetClkGenInputSource src :: rest => clkGenInputSourceAfter rest src
  | _ :: rest => clkGenInputSourceAfter rest s
  end.

Fixpoint freqCounterSourceAfter (ops : list ClockOp) (s : FreqCounterSrc) : FreqCounterSrc :=
  match ops with
  | [] => s
  | OpSetFreqCounterSource src :: rest => freqCounterSourceAfter rest src
  | _ :: rest => freqCounterSourceAfter rest s
  end.

(** The functions of adc.go that write the pin-route register. *)
Inductive IoOp : Type :=
| OpSetTargetIo1 (mode : TargetIoMode)
| OpSetTargetIo2 (mode : TargetIoMode)
| OpSetNRST (mode : GpioMode)
| OpSetPDIC (mode : GpioMode)
| OpSetPDID (mode : GpioMode).

Definition runIoOp (d : Device) (op : IoOp) : A unit :=
  match op with
  | OpSetTargetIo1 mode => SetTargetIo1 d mode
  | OpSetTargetIo2 mode => SetTargetIo2 d mode
  | OpSetNRST mode => SetNRST d mode
  | OpSetPDIC mode => SetPDIC d mode
  | OpSetPDID mode => SetPDID d mode
  end.

(** The modes that [setTargetIo] has a case for. *)
Definition settableIoMode (mode : TargetIoMode) : bool :=
  match mode with
  | TargetIoModeSerialRx | TargetIoModeSerialTx
  | TargetIoModeGpioLow | TargetIoModeGpioHigh => true
  | _ => false
  end.

Definition acceptedIoOp (op : IoOp) : bool :=
  match op with
  | OpSetTargetIo1 mode | OpSetTargetIo2 mode => settableIoMode mode
  | _ => true
  end.

(** The byte that [setTargetIo] leaves for the pin in the route register, and
    the mode that [specialGpio] reads for a special pin from the seventh
    byte [b] of the register. *)
Definition routeOf (mode : TargetIoMode) : Z :=
  match mode with
  | TargetIoModeSerialRx => ioRouteSRX
  | TargetIoModeSerialTx => ioRouteSTX
  | TargetIoModeGpioLow => ioRouteGpioE
  | TargetIoModeGpioHigh => Z.lor ioRouteGpioE ioRouteGpio
  | _ => ioRouteHighZ
  end.

Definition specialOf (pinnum : Z) (b : Z) : GpioMode :=
  if Z.land b (Z.shiftl 1 (bitnum pinnum)) =? 0 then GpioDisabled
  else if 0 <? Z.land b (Z.shiftl 1 (bitnum pinnum + 1)) then GpioHigh
  else GpioLow.

(** What a sequence sets last for each pin, from [m] before it. *)
Fixpoint targetIo1After (ops : list IoOp) (m : option TargetIoMode) : option TargetIoMode :=
  match ops with
  | [] => m
  | OpSetTargetIo1 mode :: rest => targetIo1After rest (Some mode)
  | _ :: rest => targetIo1After rest m
  end.

Fixpoint targetIo2After (ops : list IoOp) (m : option TargetIoMode) : option TargetIoMode :=
  match ops with
  | [] => m
  | OpSetTargetIo2 mode :: rest => targetIo2After rest (Some mode)
  | _ :: rest => targetIo2After rest m
  end.

Fixpoint nrstAfter (ops : list IoOp) (m : option GpioMode) : option GpioMode :=
  match ops with
  | [] => m
  | OpSetNRST mode :: rest => nrstAfter rest (Some mode)
  | _ :: rest => nrstAfter rest m
  end.

Fixpoint pdicAfter (ops : list IoOp) (m : option GpioMode) : option GpioMode :=
  match ops with
  | [] => m
  | OpSetPDIC mode :: rest => pdicAfter rest (Some mode)
  | _ :: rest => pdicAfter rest m
  end.

Fixpoint pdidAfter (ops : list IoOp) (m : option GpioMode) : option GpioMode :=
  match ops with
  | [] => m
  | OpSetPDID mode :: rest => pdidAfter rest (Some mode)
  | _ :: rest => pdidAfter rest m
  end.

(** The device reports a ChipWhisperer-Lite or a CW1200 for as long as
    nothing is written to its version register. *)
Definition ReportsLite (d : Device) : Prop :=
  forall h, Registers.lastWrite addrVersions h = None ->
    let t := Z.shiftr (at_ (Registers.answer d addrVersions 6 h) 1) 3 in
    t = HwChipWhispererLite \/ t = HwChipWhispererCw1200.

End AdcOps.

(** ** usart.go *)

Module Usart.

Definition ReqUsart0Data : Request := 0x1a.
Definition ReqUsart0Config : Request := 0x1b.

Definition cmdNumWait : Z := 0x14.

Section Usart.
Context (d : Device).

Definition configRead (cmd : Z) (size : nat) : M (error + list byte) :=
  ControlIn d ReqUsart0Config cmd size.

(** Returns the number of bytes waiting to be read. *)
Definition inWaiting : M (error + Z) :=
  r <- configRead cmdNumWait 4 ;;
  match r with
  | inl e => ret (inl (Wrapf "cmdNumWait failed: %v" e))
  | inr buf => ret (inr (int (le_uint buf)))
  end.

Definition dataRead (size : nat) : M (error + list byte) :=
  ControlIn d ReqUsart0Data 0 size.

Definition dataWrite (data : list byte) : M (option error) :=
  ControlOut d ReqUsart0Data 0 data.

(** [p[lo:hi]] for [0 <= lo <= hi <= len(p)]. *)
Definition sub (p : list byte) (lo hi : Z) : list byte :=
  firstn (Z.to_nat (hi - lo)) (skipn (Z.to_nat lo) p).

(** The loop [for n < len(p)] of [Write], one iteration for each unit of
    [fuel]; [None] when the loop outlives the fuel. *)
Fixpoint writeLoop (fuel : nat) (p : list byte) (n : Z) : M (option (Z * option error)) :=
  if n <? Z.of_nat (length p) then
    match fuel with
    | O => ret None
    | S fuel' =>
        let toWrite := Z.of_nat (length p) - n in
        let toWrite := if 58 <? toWrite then 58 else toWrite in
        err <- dataWrite (sub p n (n + toWrite)) ;;
        match err with
        | Some e => ret (Some (n, Some (Wrapf "dataWrite failed: %v" e)))
        | None => writeLoop fuel' p (n + toWrite)
        end
    end
  else ret (Some (n, None)).

(** [Usart.Write]: [(n, err)]. *)
Definition Write (fuel : nat) (p : list byte) : M (option (Z * option error)) :=
  writeLoop fuel p 0.

(** The loop of [Usart.Read] for a buffer [p] of [size] bytes.  The timer is
    what the [select] finds at the start of each iteration: [true] when the
    time-out has fired.  The result is [(n, err)] with the content [got] of
    [p[:n]]; [None] when the loop outlives the observations of the timer.
    The sums stay below [size] plus 2^32 and so within [int]. *)
Fixpoint readLoop (timer : list bool) (size n : Z) (got : list byte)
  : M (option (Z * list byte * option error)) :=
  match timer with
  | [] => ret None
  | fired :: timer' =>
      if fired then ret (Some (n, got, None))
      else
        r <- inWaiting ;;
        match r with
        | inl e => ret (Some (n, got, Some (Wrapf "inWaiting failed: %v" e)))
        | inr toRead =>
            let toRead := if size <? n + toRead then size - n else toRead in
            if toRead =? 0 then
              Sleep 1 ;;; readLoop timer' size n got
            else
              r <- dataRead (Z.to_nat toRead) ;;
              match r with
              | inl e => ret (Some (n, got, Some (Wrapf "dataRead failed: %v" e)))
              | inr buf =>
                  let got := got ++ buf in
                  let n := n + toRead in
                  if n =? size then ret (Some (n, got, None))
                  else readLoop timer' size n got
              end
        end
  end.

(** [Usart.Read] into a buffer of [size] bytes. *)
Definition Read (timer : list bool) (size : Z) : M (option (Z * list byte * option error)) :=
  readLoop timer size 0 [].

(** [Usart.Flush], one iteration of [for true] for each unit of [fuel];
    [None] when the loop outlives the fuel. *)
Fixpoint Flush (fuel : nat) : M (option (option error)) :=
  match fuel with
  | O => ret None
  | S fuel' =>
      r <- inWaiting ;;
      match r with
      | inl e => ret (Some (Some (Wrapf "inWaiting failed: %v" e)))
      | inr toRead =>
          if toRead =? 0 then ret (Some None)
          else
            r <- dataRead (Z.to_nat toRead) ;;
            match r with
            | inl e => ret (Some (Some (Wrapf "dataRead failed: %v" e)))
            | inr _ => Flush fuel'
            end
      end
  end.

End Usart.

(** The payloads that went out to the serial port. *)
Definition sent (c : Call) : list byte :=
  match c with
  | ControlOutCall req _ data => if req =? ReqUsart0Data then data else []
  | _ => []
  end.

(** The poll for the number of waiting bytes, and the bytes that the data
    reads of a list of calls ask for. *)
Definition pollCall : Call := ControlInCall ReqUsart0Config cmdNumWait 4.

Definition isDataRead (c : Call) : bool :=
  match c with
  | ControlInCall req _ _ => req =? ReqUsart0Data
  | _ => false
  end.

Definition asked (c : Call) : Z :=
  match c with
  | ControlInCall req _ size => if req =? ReqUsart0Data then Z.of_nat size else 0
  | _ => 0
  end.

Fixpoint dataAsked (calls : list Call) : Z :=
  match calls with
  | [] => 0
  | c :: calls' => asked c + dataAsked calls'
  end.

(** A target that has sent three bytes and whose link then fails. *)
Definition failingLink : Device := {|
  control_in := fun h req _ size =>
    if req =? ReqUsart0Config then
      if (length h <? 2)%nat then ([Byte.x03; Byte.x00; Byte.x00; Byte.x00], None)
      else ([], Some (Errorf "stall" []))
    else (repeat Byte.x61 size, None);
  control_out := fun _ _ _ buf => (Z.of_nat (length buf), None);
  ep_in_read := fun _ size => (repeat Byte.x00 size, None);
  ep_out_write := fun _ buf => (Z.of_nat (length buf), None)
|}.

(** A target that has one more byte waiting whenever it is asked. *)
Definition chattyDevice : Device := {|
  control_in := fun _ req _ size =>
    if req =? ReqUsart0Config then ([Byte.x01; Byte.x00; Byte.x00; Byte.x00], None)
    else (repeat Byte.x00 size, None);
  control_out := fun _ _ _ buf => (Z.of_nat (length buf), None);
  ep_in_read := fun _ size => (repeat Byte.x00 size, None);
  ep_out_write := fun _ buf => (Z.of_nat (length buf), None)
|}.

End Usart.

(** ** usb_device.go: opening and closing the device *)

Module UsbOpen.

Definition ReqFwVersion : Request := 0x17.

Definition cwliteMjVersion : Z := 0.
Definition cwliteMnVersion : Z := 11.

(** What gousb answers to the calls of [OpenCwLiteUsbDevice]: whether
    [OpenDeviceWithVIDPID] returns a device, and the error of each call.
    [DefaultInterface] returns its two handles exactly when it returns no
    error. *)
Record Gousb : Type := {
  open_device : bool * option error;
  default_interface : option error;
  out_endpoint : option error;
  in_endpoint : option error
}.

(** The handles of [UsbDevice] that [Close] looks at: [true] when not nil. *)
Record UsbDevice : Type := {
  ctx : bool;
  dev : bool;
  intf : bool;
  intf_done : bool
}.

(** The calls by which [Close] gives a handle back. *)
Inductive Release : Type := IntfDone | IntfClose | DevClose | CtxClose.

Definition Close (s : UsbDevice * list Release) : UsbDevice * list Release :=
  let '(d, log) := s in
  let '(d, log) :=
    if intf_done d
    then ({| ctx := ctx d; dev := dev d; intf := intf d; intf_done := false |},
          log ++ [IntfDone])
    else (d, log) in
  let '(d, log) :=
    if intf d
    then ({| ctx := ctx d; dev := dev d; intf := false; intf_done := intf_done d |},
          log ++ [IntfClose])
    else (d, log) in
  let '(d, log) :=
    if dev d
    then ({| ctx := ctx d; dev := false; intf := intf d; intf_done := intf_done d |},
          log ++ [DevClose])
    else (d, log) in
  if ctx d
  then ({| ctx := false; dev := dev d; intf := intf d; intf_done := intf_done d |},
        log ++ [CtxClose])
  else (d, log).

(** [OpenCwLiteUsbDevice]: the error returned, the handles and the releases
    at the return, and the transfers made. *)
Definition OpenCwLiteUsbDevice (g : Gousb) (usb : Device)
  : option error * (UsbDevice * list Release) * History :=
  let d := {| ctx := true; dev := false; intf := false; intf_done := false |} in
  let '(found, err) := open_device g in
  let d := {| ctx := ctx d; dev := found; intf := intf d; intf_done := intf_done d |} in
  match found, err with
  | false, None => (Some (Errorf "CWLite device not found" []), (d, []), [])
  | _, Some e => (Some (Wrapf "Opening CWLITE device: %v" e), Close (d, []), [])
  | true, None =>
      match default_interface g with
      | Some e => (Some (Wrapf "Claming default interface: %v" e), Close (d, []), [])
      | None =>
          let d := {| ctx := ctx d; dev := dev d; intf := true; intf_done := true |} in
          match out_endpoint g with
          | Some e => (Some (Wrapf "Opening output interface: %v" e), Close (d, []), [])
          | None =>
              match in_endpoint g with
              | Some e => (Some (Wrapf "Opening input interface: %v" e), Close (d, []), [])
              | None =>
                  let '(r, h) := ControlIn usb ReqFwVersion 0 3 [] in
                  match r with
                  | inl e => (Some (Wrapf "Failed reading FW version: %v" e), (d, []), h)
                  | inr ver =>
                      let Major := byte_to_Z (nth 0 ver Byte.x00) in
                      let Minor := byte_to_Z (nth 1 ver Byte.x00) in
                      let Debug := byte_to_Z (nth 2 ver Byte.x00) in
                      if negb (Major =? cwliteMjVersion) || negb (Minor =? cwliteMnVersion)
                      then (Some (Errorf "Unexpected FW version: %v" [Major; Minor; Debug]),
                            (d, []), h)
                      else (None, (d, []), h)
                  end
              end
          end
      end
  end.

(** The handles that are not nil. *)
Definition held (d : UsbDevice) : list Release :=
  (if intf_done d then [IntfDone] else []) ++ (if intf d then [IntfClose] else []) ++
  (if dev d then [DevClose] else []) ++ (if ctx d then [CtxClose] else []).

(** A board with firmware 0.11 behind a working libusb, and one with
    firmware 0.10. *)
Definition workingGousb : Gousb :=
  {| open_device := (true, None); default_interface := None;
     out_endpoint := None; in_endpoint := None |}.

Definition firmware (minor : byte) : Device :=
  scripted [inr [Byte.x00; minor; Byte.x00]].

End UsbOpen.

(** ** capture.go: the matrix of the samples *)

Module Matrix.
Import Capture.

(** [data[i] = x] for an index of [data]. *)
Fixpoint set (data : list float) (i : nat) (x : float) : list float :=
  match data, i with
  | [], _ => []
  | _ :: rest, O => x :: rest
  | y :: rest, S i' => y :: set rest i' x
  end.

(** The loop over [j] for the trace [t] of row [i]; [None] is the panic of an
    index out of range. *)
Definition rowLoop (cols : nat) (t : Trace) (i : nat) (data : list float)
  : option (list float) :=
  fold_left
    (fun acc j =>
       match acc with
       | None => None
       | Some data =>
           match nth_error (elems (PowerMeasurements t)) j with
           | None => None
           | Some x => Some (set data (i * cols + j) x)
           end
       end)
    (seq 0 cols) (Some data).

(** [Capture.SamplesMatrix]: the arguments [rows], [cols] and [data] that it
    hands to [mat.NewDense]. *)
Definition SamplesMatrix (c : Capture) : option (nat * nat * list float) :=
  let rows := length (elems c) in
  match elems c with
  | [] => None
  | t0 :: _ =>
      let cols := length (elems (PowerMeasurements t0)) in
      let data := repeat 0%float (rows * cols) in
      match
        fold_left
          (fun acc i =>
             match acc with
             | None => None
             | Some data =>
                 match nth_error (elems c) i with
                 | None => None
                 | Some t => rowLoop cols t i data
                 end
             end)
          (seq 0 rows) (Some data)
      with
      | None => None
      | Some data => Some (rows, cols, data)
      end
  end.

(** A capture of two traces, the second longer than the first. *)
Definition raggedCapture : Capture :=
  Some [ {| Key := None; Pt := None; Ct := None;
            PowerMeasurements := Some [0.5%float; 0.25%float] |};
         {| Key := None; Pt := None; Ct := None;
            PowerMeasurements := Some [1%float; 2%float; 4%float] |} ].

End Matrix.

(* ================================================================== *)
(** * Part II: the properties *)
(* ================================================================== *)

(** ** Generalities *)

Lemma bytes_Equal_eq (a b : list byte) : bytes_Equal a b = true <-> a = b.
Proof.
  revert b; induction a as [|x a IH]; intros [|y b]; simpl; split; intro H;
    try reflexivity; try discriminate.
  - apply andb_true_iff in H as [Hxy Hab].
    apply Byte.byte_dec_bl in Hxy. apply IH in Hab. congruence.
  - injection H as -> ->. apply andb_true_iff; split.
    + now apply Byte.byte_dec_lb.
    + now apply IH.
Qed.

Lemma byte_and_zero (b : byte) : byte_and b Byte.x00 = Byte.x00.
Proof. destruct b; reflexivity. Qed.

(** Unfolding one step of the code's monad. *)
Ltac step :=
  cbv beta iota delta [bind ret Usb.ControlOut Usb.ControlIn Usb.Read Usb.Write
                       Usb.Sleep Usb.record] in *.

(** Induction over a list four elements at a time, as the decoder reads. *)
Lemma list_ind4 {X} (P : list X -> Prop) :
  P [] -> (forall a, P [a]) -> (forall a b, P [a; b]) -> (forall a b c, P [a; b; c]) ->
  (forall a b c d rest, P rest -> P (a :: b :: c :: d :: rest)) ->
  forall l, P l.
Proof.
  intros H0 H1 H2 H3 H4.
  assert (H : forall n l, (length l <= n)%nat -> P l).
  { induction n as [|n IH]; intros l Hl.
    - destruct l; [exact H0|simpl in Hl; lia].
    - destruct l as [|a [|b [|c [|d rest]]]]; auto.
      apply H4, IH. simpl in Hl. lia. }
  intro l. now apply (H (length l)).
Qed.

(** ** The memory protocol *)

Module MemoryFacts.
Import Memory Spec.

Section Facts.
Context (d : Device).

(** What [doRead] does, transfer by transfer. *)
Lemma doRead_control (addr : Z) (size : nat) (h : History) :
  (size < 48)%nat ->
  let hdr := AddressBlock (uint32 (Z.of_nat size)) (uint32 addr) in
  let h1 := h ++ [ControlOutCall ReqMemReadCtrl 0 hdr] in
  (exists e, doRead d addr size h = (inl e, h1)) \/
  (exists r, doRead d addr size h = (r, h1 ++ [ControlInCall ReqMemReadCtrl 0 size]) /\
     forall buf, r = inr buf -> length buf = size).
Proof.
  intros Hsz hdr h1. unfold doRead.
  replace (Z.of_nat size <? 48) with true by (symmetry; apply Z.ltb_lt; lia).
  fold hdr. step.
  destruct (control_out d h ReqMemReadCtrl 0 hdr) as [n [e|]].
  - left. eexists. reflexivity.
  - destruct (n =? Z.of_nat (length hdr)).
    + right. simpl. fold h1.
      destruct (control_in d h1 ReqMemReadCtrl 0 size) as [buf [e|]].
      * eexists. split; [reflexivity|]. discriminate.
      * destruct (Nat.eqb (length buf) size) eqn:E.
        -- eexists. split; [reflexivity|]. intros b [= <-]. now apply Nat.eqb_eq.
        -- eexists. split; [reflexivity|]. discriminate.
    + left. eexists. reflexivity.
Qed.

Lemma doRead_bulk (addr : Z) (size : nat) (h : History) :
  (48 <= size)%nat ->
  let hdr := AddressBlock (uint32 (Z.of_nat size)) (uint32 addr) in
  let h1 := h ++ [ControlOutCall ReqMemReadBulk 0 hdr] in
  (exists e, doRead d addr size h = (inl e, h1)) \/
  (exists r, doRead d addr size h = (r, h1 ++ [BulkReadCall size]) /\
     forall buf, r = inr buf -> length buf = size).
Proof.
  intros Hsz hdr h1. unfold doRead.
  replace (Z.of_nat size <? 48) with false by (symmetry; apply Z.ltb_ge; lia).
  fold hdr. step.
  destruct (control_out d h ReqMemReadBulk 0 hdr) as [n [e|]].
  - left. eexists. reflexivity.
  - destruct (n =? Z.of_nat (length hdr)).
    + right. simpl. fold h1.
      destruct (ep_in_read d h1 size) as [buf [e|]].
      * eexists. split; [reflexivity|]. discriminate.
      * destruct (Nat.eqb (length buf) size) eqn:E.
        -- eexists. split; [reflexivity|]. intros b [= <-]. now apply Nat.eqb_eq.
        -- eexists. split; [reflexivity|]. discriminate.
    + left. eexists. reflexivity.
Qed.

(** A read that succeeds fills the whole buffer. *)
Lemma doRead_length (addr : Z) (size : nat) (h h' : History) (buf : list byte) :
  doRead d addr size h = (inr buf, h') -> length buf = size.
Proof.
  intro H. destruct (Nat.lt_ge_cases size 48) as [Hsz|Hsz].
  - destruct (doRead_control addr size h Hsz) as [[e He]|[r [Hr Hlen]]];
      rewrite H in *; [discriminate|]. injection Hr as <- _. now apply Hlen.
  - destruct (doRead_bulk addr size h Hsz) as [[e He]|[r [Hr Hlen]]];
      rewrite H in *; [discriminate|]. injection Hr as <- _. now apply Hlen.
Qed.

Lemma Read_length (addr : Z) (size : nat) (h h' : History) (buf : list byte) :
  Read d addr size h = (inr buf, h') -> length buf = size.
Proof.
  unfold Read. step. destruct (doRead d addr size h) as [[e|b] h1] eqn:E.
  - discriminate.
  - intros [= <- <-]. eapply doRead_length; eassumption.
Qed.





End Facts.




(** Bytes that differ only where the mask is zero are equal under it. *)
Lemma and_mask_masked_out (m a b : list byte) :
  length a = length m -> length b = length m ->
  (forall i, nth i m Byte.x00 = Byte.x00 \/ nth i a Byte.x00 = nth i b Byte.x00) ->
  and_mask a m = and_mask b m.
Proof.
  revert a b. induction m as [|x m IH]; intros [|y a] [|z b] Ha Hb H;
    try discriminate; try reflexivity.
  simpl. f_equal.
  - destruct (H 0%nat) as [Hx|Hyz]; simpl in *.
    + subst x. now rewrite !byte_and_zero.
    + now subst z.
  - apply IH; [now injection Ha | now injection Hb |].
    intro i. exact (H (S i)).
Qed.

(** C6. A write with [validate] set re-reads the same address and length right
    after the payload went out.  Given that the transfers themselves succeed
    (the write left the history [h1], and the read-back from there returned
    [actual]): with no mask the write succeeds iff [actual] equals the written
    bytes; with a mask of the length of the data it succeeds iff the two
    buffers are equal once both are ANDed with the mask byte for byte, and it
    fails with the verification error otherwise; so a mismatch confined to
    bytes whose mask is zero succeeds. *)
Theorem write_verify (d : Device) (addr : Z) (data actual : list byte) (h h1 h2 : History) :
  doWrite_send d addr data h = (None, h1) ->
  Read d addr (length data) h1 = (inr actual, h2) ->
  (forall mask, snd (doWrite d addr data true mask h) = h2) /\
  (fst (doWrite d addr data true None h) = None <-> actual = data) /\
  (fst (doWrite d addr data true None h) <> None ->
   fst (doWrite d addr data true None h) = Some errVerify) /\
  (forall m, length m = length data ->
     (fst (doWrite d addr data true (Some m) h) = None <->
      and_mask actual m = and_mask data m) /\
     (fst (doWrite d addr data true (Some m) h) <> None ->
      fst (doWrite d addr data true (Some m) h) = Some errVerify) /\
     ((forall i, nth i m Byte.x00 = Byte.x00 \/
                 nth i actual Byte.x00 = nth i data Byte.x00) ->
      fst (doWrite d addr data true (Some m) h) = None)).
Proof.
  intros Hsend Hread.
  assert (Hlen : length actual = length data) by (eapply Read_length; eassumption).
  assert (Hnone : doWrite d addr data true None h =
                  (if bytes_Equal data actual then None else Some errVerify, h2)).
  { unfold doWrite, doWrite_verify. step. rewrite Hsend, Hread.
    now destruct (bytes_Equal data actual). }
  assert (Hsome : forall m, length m = length data ->
            doWrite d addr data true (Some m) h =
            (if bytes_Equal (and_mask data m) (and_mask actual m)
             then None else Some errVerify, h2)).
  { intros m Hm. unfold doWrite, doWrite_verify. step. rewrite Hsend, Hread.
    rewrite Hm, Nat.eqb_refl. simpl.
    now destruct (bytes_Equal (and_mask data m) (and_mask actual m)). }
  split; [|split; [|split]].
  - intros [m|].
    + unfold doWrite, doWrite_verify. step. rewrite Hsend, Hread.
      destruct (negb _); [reflexivity|].
      destruct (bytes_Equal (and_mask data m) (and_mask actual m)); reflexivity.
    + now rewrite Hnone.
  - rewrite Hnone. simpl. destruct (bytes_Equal data actual) eqn:E.
    + apply bytes_Equal_eq in E. now split.
    + split; [discriminate|]. intros ->.
      assert (bytes_Equal data data = true) by now apply bytes_Equal_eq.
      congruence.
  - rewrite Hnone. simpl. now destruct (bytes_Equal data actual).
  - intros m Hm. rewrite (Hsome m Hm). simpl.
    destruct (bytes_Equal (and_mask data m) (and_mask actual m)) eqn:E.
    + apply bytes_Equal_eq in E. repeat split; congruence.
    + assert (Hne : and_mask actual m <> and_mask data m).
      { intro Heq. assert (bytes_Equal (and_mask data m) (and_mask actual m) = true)
          by (apply bytes_Equal_eq; congruence). congruence. }
      repeat split; try congruence; try discriminate.
      intro Hout. destruct Hne.
      apply and_mask_masked_out; [congruence | congruence | exact Hout].
Qed.

(** The masked write of memory_test.go passes although the second byte read
    back differs. *)
Lemma write_verify_witness :
  fst (doWrite testDevice testAddr testData true (Some testMask) []) = None.
Proof.
  destruct (write_verify testDevice testAddr testData testDataRead []
              (snd (doWrite_send testDevice testAddr testData []))
              (snd (Read testDevice testAddr (length testData)
                      (snd (doWrite_send testDevice testAddr testData []))))
              eq_refl eq_refl) as (_ & _ & _ & Hmask).
  destruct (Hmask testMask eq_refl) as (_ & _ & Hout).
  apply Hout. intros [|[|[|i]]]; simpl; auto.
Defined.

End MemoryFacts.

(** ** The FPGA loader *)

Module FpgaFacts.
Import Fpga.

Lemma int_small (z : Z) : - 2 ^ 63 <= z < 2 ^ 63 -> int z = z.
Proof. intro H. unfold int. rewrite Z.mod_small; lia. Qed.

Lemma IsProgrammed_zeroDevice (h : History) :
  IsProgrammed zeroDevice h = (inr false, h ++ [ControlInCall ReqFpgaStatus 0 4]).
Proof. reflexivity. Qed.

(** The counter of the loop only goes down, so the loop is left by its
    [break] alone: against a done bit that stays low it still runs after any
    number of polls an [int] can count. *)
Lemma pollLoop_zeroDevice (fuel : nat) :
  forall (attempts : Z) (h : History),
    attempts <= 0 -> - 2 ^ 63 <= attempts - Z.of_nat fuel ->
    pollLoop zeroDevice fuel attempts h = (None, h ++ failedPolls fuel).
Proof.
  induction fuel as [|fuel IH]; intros attempts h Hle Hge.
  - simpl. now rewrite app_nil_r.
  - cbn [pollLoop failedPolls].
    replace (attempts <? 5) with true by (symmetry; apply Z.ltb_lt; lia).
    unfold bind at 1. rewrite IsProgrammed_zeroDevice.
    unfold bind, Sleep, record. rewrite int_small by lia.
    rewrite IH by lia. now rewrite <- !app_assoc.
Qed.

Lemma statusPolls_failedPolls (n : nat) (h : History) :
  statusPolls (h ++ failedPolls n) = (statusPolls h + n)%nat.
Proof.
  unfold statusPolls. rewrite filter_app, length_app. f_equal.
  induction n as [|n IH]; simpl; [reflexivity|]. now rewrite IH.
Qed.

Lemma exitRequests_failedPolls (n : nat) (h : History) :
  exitRequests (h ++ failedPolls n) = exitRequests h.
Proof.
  unfold exitRequests. rewrite filter_app, length_app.
  replace (filter isExitProgramming (failedPolls n)) with (@nil Call).
  - simpl. lia.
  - induction n as [|n IH]; simpl; [reflexivity|exact IH].
Qed.

(** C4, as the code has it.  Against a device whose done bit never rises,
    [Program] has not returned after any number [fuel] of polls (up to the
    2^63 an [int] counts down): it has polled [fuel] times, more than five for
    [fuel > 5], has sent no exit-programming request and has reported no
    failure. *)
Theorem Program_polls_without_bound (bitstream : list (list byte)) (fuel : nat) :
  Z.of_nat fuel <= 2 ^ 63 ->
  fst (Program zeroDevice fuel bitstream []) = None /\
  statusPolls (snd (Program zeroDevice fuel bitstream [])) = fuel /\
  exitRequests (snd (Program zeroDevice fuel bitstream [])) = 0%nat.
Proof.
  intro Hfuel.
  assert (Hcopy : forall chunks h, exists written,
             io_Copy zeroDevice chunks h = (None, h ++ written) /\
             statusPolls (h ++ written) = statusPolls h /\
             exitRequests (h ++ written) = exitRequests h).
  { induction chunks as [|c chunks IH]; intro h.
    - exists []. now rewrite app_nil_r.
    - cbn [io_Copy]. unfold bind at 1. cbn [Usb.Write zeroDevice ep_out_write].
      rewrite Z.eqb_refl.
      destruct (IH (h ++ [BulkWriteCall c])) as (w & -> & Hp & He).
      exists (BulkWriteCall c :: w).
      change (h ++ BulkWriteCall c :: w) with (h ++ [BulkWriteCall c] ++ w).
      rewrite app_assoc. split; [reflexivity|]. rewrite Hp, He.
      unfold statusPolls, exitRequests. rewrite !filter_app. simpl.
      now rewrite !app_nil_r. }
  unfold Program, bind, ctrlProgram, Usb.ControlOut, Sleep, record.
  cbn [zeroDevice control_out length Z.of_nat Z.eqb app].
  destruct (Hcopy bitstream
              [ControlOutCall ReqFpgaProgram 160 []; SleepCall 10;
               ControlOutCall ReqFpgaProgram 161 []; SleepCall 10])
    as (w & -> & Hp & He).
  rewrite pollLoop_zeroDevice by lia. unfold ret. cbn [fst snd].
  rewrite statusPolls_failedPolls, exitRequests_failedPolls, Hp, He.
  repeat split.
Qed.

(** Six polls of a never-ready device: the sixth is made, and [Program] is
    still in its loop. *)
Lemma Program_polls_without_bound_witness :
  fst (Program zeroDevice 6 [[Byte.x00]] []) = None /\
  statusPolls (snd (Program zeroDevice 6 [[Byte.x00]] [])) = 6%nat /\
  exitRequests (snd (Program zeroDevice 6 [[Byte.x00]] [])) = 0%nat.
Proof.
  apply (Program_polls_without_bound [[Byte.x00]] 6). vm_compute. discriminate.
Defined.











End FpgaFacts.

(** ** The ADC controller *)

Module AdcFacts.
Import Adc.

(** *** The trace decoder on one word *)

(** C1, as the code has it.  On the buffer of one word with tag 0 and the
    samples 1, 2, 3, [ProcessTraceData] returns the three samples of the
    first kept word last-first, (3, 2, 1), where the specification and the
    comment in the code ([trigger = 0 -> [m1, m2, m3]]) give them in the order
    of their bits. *)
Theorem ProcessTraceData_first_word_reversed (c : Adc) (h : History) :
  fst (ProcessTraceData oneWordBuffer (c, h)) =
    [measurement 3; measurement 2; measurement 1] /\
  Spec.decode (Spec.words (tl oneWordBuffer)) false =
    [measurement 1; measurement 2; measurement 3] /\
  PrimFloat.ltb (measurement 1) (measurement 3) = true.
Proof. repeat split. Qed.

(** The loop of [ProcessTraceData] computes [decodeAsCoded] of the words. *)
Lemma decodeLoop_decodeAsCoded (bs : list byte) :
  forall triggerFound measurements s,
    fst (decodeLoop bs triggerFound measurements s) =
    measurements ++ Spec.decodeAsCoded (Spec.words bs) triggerFound.
Proof.
  induction bs as [|x0|x0 x1|x0 x1 x2|b0 b1 b2 b3 rest IH] using list_ind4;
    intros triggerFound measurements s;
    try (cbn; now rewrite app_nil_r).
  cbn [decodeLoop Spec.words Spec.decodeAsCoded].
  unfold bind at 1. unfold setErr at 1.
  set (word := be_uint [b0; b1; b2; b3]).
  destruct triggerFound; cbn [negb].
  - rewrite IH. unfold Spec.wordSamples. now rewrite <- app_assoc.
  - destruct (Z.shiftr word 30 =? 3) eqn:E3; [apply IH|].
    apply Z.eqb_neq in E3. rewrite IH. rewrite app_assoc. f_equal.
    unfold Spec.wordSamples.
    destruct (Z.shiftr word 30 <? 3) eqn:L3;
      [apply Z.ltb_lt in L3 | apply Z.ltb_ge in L3];
      destruct (Z.shiftr word 30 <? 2) eqn:L2;
      [apply Z.ltb_lt in L2 | apply Z.ltb_ge in L2 | apply Z.ltb_lt in L2
      | apply Z.ltb_ge in L2];
      destruct (Z.shiftr word 30 <? 1) eqn:L1;
      [apply Z.ltb_lt in L1 | apply Z.ltb_ge in L1 | apply Z.ltb_lt in L1
      | apply Z.ltb_ge in L1 | apply Z.ltb_lt in L1 | apply Z.ltb_ge in L1
      | apply Z.ltb_lt in L1 | apply Z.ltb_ge in L1]; try lia.
    + replace (Z.to_nat (Z.shiftr word 30)) with 0%nat by lia.
      cbn. now rewrite <- !app_assoc.
    + replace (Z.to_nat (Z.shiftr word 30)) with 1%nat by lia.
      cbn. now rewrite <- !app_assoc.
    + replace (Z.to_nat (Z.shiftr word 30)) with 2%nat by lia. reflexivity.
    + rewrite skipn_all2 by (cbn [length]; lia). cbn [rev].
      now rewrite app_nil_r.
Qed.

Lemma decodeAsCoded_triggered (ws : list Z) :
  Spec.decodeAsCoded ws true = Spec.decode ws true.
Proof. induction ws as [|w ws IH]; [reflexivity|]. cbn. now rewrite IH. Qed.

Lemma decode_triggered (ws : list Z) :
  Spec.decode ws true = flat_map Spec.wordSamples ws.
Proof. induction ws as [|w ws IH]; [reflexivity|]. cbn. now rewrite IH. Qed.

(** The words of tag 3 before the trigger give nothing. *)
Lemma decodeAsCoded_skipped (skipped ws : list Z) :
  Forall (fun v => Z.shiftr v 30 = 3) skipped ->
  Spec.decodeAsCoded (skipped ++ ws) false = Spec.decodeAsCoded ws false /\
  Spec.decode (skipped ++ ws) false = Spec.decode ws false.
Proof.
  induction 1 as [|v skipped Hv _ IH]; [now split|].
  cbn [app Spec.decodeAsCoded Spec.decode]. now rewrite Hv, Z.eqb_refl.
Qed.

(** The decoder on every buffer of whole words.  Without the sync byte it
    sets the framing error, returns nothing and makes no transfer.  With it,
    the words of tag 3 that come first give nothing; the first word [w] of a
    tag [t] below 3 gives its last [3 - t] samples, last sample first; every
    word after it gives its three samples in the order of their bits.  The
    specification's decoding differs in the samples of [w] only, which it
    has in the order of their bits. *)
Theorem ProcessTraceData_decodes (data : list byte) (c : Adc) (h : History) :
  (4 <= length data)%nat -> (length data mod 4 = 0)%nat ->
  (hd Byte.x00 data <> Byte.xac ->
   ProcessTraceData data (c, h) =
   ([], (withErr c (Some (errSyncByte (hd Byte.x00 data))), h))) /\
  (hd Byte.x00 data = Byte.xac ->
   fst (ProcessTraceData data (c, h)) = Spec.decodeAsCoded (Spec.words (tl data)) false /\
   (Forall (fun v => Z.shiftr v 30 = 3) (Spec.words (tl data)) ->
    fst (ProcessTraceData data (c, h)) = []) /\
   (forall skipped w later,
      Spec.words (tl data) = skipped ++ w :: later ->
      Forall (fun v => Z.shiftr v 30 = 3) skipped ->
      Z.shiftr w 30 <> 3 ->
      fst (ProcessTraceData data (c, h)) =
        rev (skipn (Z.to_nat (Z.shiftr w 30)) (Spec.wordSamples w))
        ++ flat_map Spec.wordSamples later /\
      Spec.decode (Spec.words (tl data)) false =
        skipn (Z.to_nat (Z.shiftr w 30)) (Spec.wordSamples w)
        ++ flat_map Spec.wordSamples later)).
Proof.
  intros H4 Hmod. unfold ProcessTraceData.
  replace ((Z.of_nat (length data) <? 4) || negb (Z.of_nat (length data) mod 4 =? 0))
    with false.
  2:{ symmetry. apply orb_false_iff. split; [apply Z.ltb_ge; lia|].
      apply negb_false_iff, Z.eqb_eq.
      change 4 with (Z.of_nat 4). rewrite <- Nat2Z.inj_mod, Hmod. reflexivity. }
  destruct data as [|sync rest]; [simpl in H4; lia|]. cbn [hd tl].
  split.
  - intro Hne. replace (byte_to_Z sync =? 172) with false; [reflexivity|].
    symmetry. apply Z.eqb_neq. intro E. apply Hne.
    destruct sync; try reflexivity; vm_compute in E; discriminate.
  - intros ->. change (byte_to_Z Byte.xac =? 172) with true. cbn [negb].
    rewrite decodeLoop_decodeAsCoded. cbn [app].
    split; [reflexivity|]. split.
    + intro Hall.
      destruct (decodeAsCoded_skipped (Spec.words rest) [] Hall) as [E _].
      rewrite app_nil_r in E. exact E.
    + intros skipped w later -> Hskip Hw.
      destruct (decodeAsCoded_skipped skipped (w :: later) Hskip) as [-> ->].
      cbn [Spec.decodeAsCoded Spec.decode].
      replace (Z.shiftr w 30 =? 3) with false by (symmetry; now apply Z.eqb_neq).
      now rewrite decodeAsCoded_triggered, decode_triggered.
Qed.

(** The buffer of three words: the first is skipped, the second gives its
    samples 3 and 2 in this order, the third its samples 4, 5, 6. *)
Lemma ProcessTraceData_decodes_witness :
  fst (ProcessTraceData threeWordBuffer (freshAdc, [])) =
    [measurement 3; measurement 2; measurement 4; measurement 5; measurement 6] /\
  Spec.decode (Spec.words (tl threeWordBuffer)) false =
    [measurement 2; measurement 3; measurement 4; measurement 5; measurement 6].
Proof.
  refine (proj2 (proj2 (proj2 (ProcessTraceData_decodes threeWordBuffer freshAdc [] _ _)
                          eq_refl))
            [0xc0701c07] 0x40300801 [0x00601404] eq_refl _ _).
  - cbn. lia.
  - reflexivity.
  - repeat constructor.
  - discriminate.
Defined.

(** *** The clock-generator search at the default external clock *)

(** C2, as the code has it.  For a target of 1.5 MHz from the default 10 MHz
    input the documented divider range ends at 20 and the pair (3, 20) has no
    error at all, but the search stops before its own [maxDiv] and returns
    (2, 13), which is off by 38461 Hz. *)
Theorem calcClkGenMulDiv_skips_max_divider :
  calcClkGenMulDiv 1500000 10000000 = (2, 13) /\
  Spec.freqError 1500000 10000000 2 13 = 38461 /\
  Spec.maxDivider 10000000 = 20 /\
  Spec.freqError 1500000 10000000 3 20 = 0.
Proof. vm_compute. repeat split. Qed.

Lemma In_range (lo hi x : Z) : In x (range lo hi) -> lo <= x < hi.
Proof.
  unfold range. intro H. apply in_map_iff in H as (k & <- & Hk).
  apply in_seq in Hk. lia.
Qed.

Lemma fold_left_invariant {S X} (I : S -> Prop) (f : S -> X -> S) (l : list X) :
  (forall st x, In x l -> I st -> I (f st x)) ->
  forall st, I st -> I (fold_left f l st).
Proof.
  induction l as [|x l IH]; intros Hf st Hst; [exact Hst|].
  cbn [fold_left]. apply IH.
  - intros st' y Hy. apply Hf. now right.
  - apply Hf; [now left | exact Hst].
Qed.

(** The order of [float64] values, from the specification of the primitive. *)
Ltac compare_cases :=
  repeat match goal with
  | H : context [Z.compare ?a ?b] |- _ => destruct (Z.compare_spec a b)
  | |- context [Z.compare ?a ?b] => destruct (Z.compare_spec a b)
  | H : context [Pos.compare_cont Eq ?a ?b] |- _ =>
      change (Pos.compare_cont Eq a b) with (Pos.compare a b) in *;
      destruct (Pos.compare_spec a b)
  | |- context [Pos.compare_cont Eq ?a ?b] =>
      change (Pos.compare_cont Eq a b) with (Pos.compare a b) in *;
      destruct (Pos.compare_spec a b)
  end.

Lemma SFcompare_trans (a b c : spec_float) :
  SFcompare a b = Some Lt -> SFcompare b c = Some Lt -> SFcompare a c = Some Lt.
Proof.
  destruct a as [sa|sa| |sa ma ea], b as [sb|sb| |sb mb eb], c as [sc|sc| |sc mc ec];
    cbn; intros H1 H2; try discriminate; try reflexivity;
    repeat match goal with s : bool |- _ => destruct s end;
    try discriminate; try reflexivity;
    injection H1 as H1; injection H2 as H2; f_equal;
    compare_cases; subst; cbn in *; try discriminate; try reflexivity; try lia.
Qed.

Lemma SFcompare_refl (a : spec_float) : SFcompare a a <> Some Lt.
Proof.
  destruct a as [s|s| |s m e]; cbn; try discriminate.
  - destruct s; discriminate.
  - destruct s; rewrite Z.compare_refl;
      change (Pos.compare_cont Eq m m) with (Pos.compare m m);
      rewrite Pos.compare_refl; discriminate.
Qed.

Lemma ltb_trans (x y z : float) :
  PrimFloat.ltb x y = true -> PrimFloat.ltb y z = true -> PrimFloat.ltb x z = true.
Proof.
  rewrite !FloatAxioms.ltb_spec. unfold SFltb.
  destruct (SFcompare (Prim2SF x) (Prim2SF y)) as [[]|] eqn:E1; try discriminate.
  destruct (SFcompare (Prim2SF y) (Prim2SF z)) as [[]|] eqn:E2; try discriminate.
  intros _ _. now rewrite (SFcompare_trans _ _ _ E1 E2).
Qed.

Lemma ltb_irrefl (x : float) : PrimFloat.ltb x x = false.
Proof.
  rewrite FloatAxioms.ltb_spec. unfold SFltb.
  pose proof (SFcompare_refl (Prim2SF x)).
  destruct (SFcompare (Prim2SF x) (Prim2SF x)) as [[]|]; congruence.
Qed.

(** A fold keeps an invariant of the elements folded so far. *)
Lemma fold_left_prefix {S X} (I : list X -> S -> Prop) (f : S -> X -> S) (l : list X) :
  (forall pre x st, I pre st -> I (pre ++ [x]) (f st x)) ->
  forall pre st, I pre st -> I (pre ++ l) (fold_left f l st).
Proof.
  intro Hf. induction l as [|x l IH]; intros pre st Hst.
  - now rewrite app_nil_r.
  - cbn [fold_left]. change (pre ++ x :: l) with (pre ++ [x] ++ l).
    rewrite app_assoc. apply IH, Hf, Hst.
Qed.

Lemma Best_ext (freq inpFreq : Z) (C C' : Z -> Z -> Prop) (st : float * Z * Z) :
  (forall m d, C m d <-> C' m d) -> Best freq inpFreq C st -> Best freq inpFreq C' st.
Proof.
  intros Hext. destruct st as [[lowError bestMul] bestDiv]. cbn.
  intros [Hall Hbest]. split.
  - intros m d Hc. apply Hall, Hext, Hc.
  - destruct Hbest as [Hinit|[Hlow Hc]]; [now left|right]. split; [exact Hlow|].
    now apply Hext.
Qed.

(** One more pair tried. *)
Lemma clkStep_Best (freq inpFreq mul div : Z) (C : Z -> Z -> Prop)
  (st : float * Z * Z) :
  Best freq inpFreq C st ->
  Best freq inpFreq (fun m d => C m d \/ (m = mul /\ d = div))
    (clkStep freq inpFreq mul st div).
Proof.
  destruct st as [[lowError bestMul] bestDiv]. cbn [Best clkStep].
  intros [Hall Hbest].
  destruct (PrimFloat.ltb (clkError freq inpFreq mul div) lowError) eqn:E.
  - split.
    + intros m d [Hc|[-> ->]]; [|apply ltb_irrefl].
      destruct (PrimFloat.ltb (clkError freq inpFreq m d)
                  (clkError freq inpFreq mul div)) eqn:E'; [|reflexivity].
      rewrite <- (Hall m d Hc). symmetry. eapply ltb_trans; eassumption.
    + right. split; [reflexivity|]. now right.
  - split.
    + intros m d [Hc|[-> ->]]; [now apply Hall | exact E].
    + destruct Hbest as [Hinit|[Hlow Hc]]; [now left|right]. split; [exact Hlow|].
      now left.
Qed.

(** What the search returns.  No pair was tried and the result is (0, 0), or
    the result is a multiplier of [2, 256] with a divider of [1, maxDiv - 1]
    (never [maxDiv] itself) whose error no pair of these ranges undercuts; the
    result is (0, 0) also if no error is below the initial 1e99. *)
Theorem calcClkGenMulDiv_minimal (freq inpFreq mul div : Z) :
  2 <= mul <= 256 -> 1 <= div < maxDiv inpFreq ->
  (calcClkGenMulDiv freq inpFreq = (0, 0) /\
   PrimFloat.ltb (clkError freq inpFreq mul div) lowError0 = false) \/
  (2 <= fst (calcClkGenMulDiv freq inpFreq) <= 256 /\
   1 <= snd (calcClkGenMulDiv freq inpFreq) < maxDiv inpFreq /\
   PrimFloat.ltb (clkError freq inpFreq mul div)
     (clkError freq inpFreq (fst (calcClkGenMulDiv freq inpFreq))
        (snd (calcClkGenMulDiv freq inpFreq))) = false).
Proof.
  intros Hmul Hdiv. unfold calcClkGenMulDiv. cbv zeta.
  set (divs := range 1 (maxDiv inpFreq)).
  set (C := fun (pre : list Z) (m d : Z) => In m pre /\ In d divs).
  assert (H : Best freq inpFreq (C ([] ++ range 2 257))
                (fold_left (fun st m => fold_left (clkStep freq inpFreq m) divs st)
                   (range 2 257) (lowError0, 0, 0))).
  { apply (fold_left_prefix (fun pre st => Best freq inpFreq (C pre) st)).
    - intros pre m st Hst.
      assert (Hin : Best freq inpFreq
                (fun m' d => C pre m' d \/ (m' = m /\ In d ([] ++ divs)))
                (fold_left (clkStep freq inpFreq m) divs st)).
      { apply (fold_left_prefix
                 (fun pd st => Best freq inpFreq
                    (fun m' d => C pre m' d \/ (m' = m /\ In d pd)) st)).
        - intros pd x st' Hst'. apply (clkStep_Best freq inpFreq m x) in Hst'.
          revert Hst'. apply Best_ext. intros m' d. rewrite in_app_iff. cbn.
          intuition (subst; auto).
        - revert Hst. apply Best_ext. intros m' d. cbn. tauto. }
      revert Hin. apply Best_ext. intros m' d. unfold C.
      rewrite !in_app_iff. cbn. intuition (subst; auto).
    - cbn. split; [intros m d [[] _]|]. now left. }
  cbn [app] in H.
  destruct (fold_left _ (range 2 257) _) as [[lowError bestMul] bestDiv].
  cbn [Best fst snd] in *. destruct H as [Hall Hbest].
  assert (Hc : C (range 2 257) mul div).
  { split; unfold divs, range; apply in_map_iff.
    - exists (Z.to_nat (mul - 2)). split; [lia|]. apply in_seq. lia.
    - exists (Z.to_nat (div - 1)). split; [lia|]. apply in_seq. lia. }
  destruct Hbest as [(-> & -> & ->)|[-> [Hm Hd]]].
  - left. split; [reflexivity|]. now apply Hall.
  - right. apply In_range in Hm, Hd. repeat split; try lia. now apply Hall.
Qed.

(** For the default input of 10 MHz no divider above 19 is returned, and the
    pair returned, (2, 13), is not undercut by (256, 19). *)
Lemma calcClkGenMulDiv_minimal_witness :
  (calcClkGenMulDiv 1500000 10000000 = (0, 0) /\
   PrimFloat.ltb (clkError 1500000 10000000 256 19) lowError0 = false) \/
  (2 <= fst (calcClkGenMulDiv 1500000 10000000) <= 256 /\
   1 <= snd (calcClkGenMulDiv 1500000 10000000) < maxDiv 10000000 /\
   PrimFloat.ltb (clkError 1500000 10000000 256 19)
     (clkError 1500000 10000000 (fst (calcClkGenMulDiv 1500000 10000000))
        (snd (calcClkGenMulDiv 1500000 10000000))) = false).
Proof.
  apply (calcClkGenMulDiv_minimal 1500000 10000000 256 19); [lia|].
  vm_compute. split; [discriminate|reflexivity].
Defined.

(** *** The sticky error *)

(** C3, as the code has it.  With the error set, [TraceData] still reads the
    pending-byte register and stores the outcome of that read in the error
    field, nil when the read succeeds; and [SetTotalSamples] stores its range
    error over the one that was set. *)
Theorem sticky_error_overwritten (c : Adc) (e : error) (h : History) :
  TraceData zeroDevice (withErr c (Some e), h) =
    ([], (withErr c None,
          h ++ [ControlOutCall ReqMemReadCtrl 0 (Memory.AddressBlock 4 addrBytestorx);
                ControlInCall ReqMemReadCtrl 0 4])) /\
  (forall d, SetTotalSamples d (hwMaxSamples c + 1) (withErr c (Some e), h) =
     (tt, (withErr c (Some (Errorf "samples (%v) outside limit (%v)"
                              [hwMaxSamples c + 1; hwMaxSamples c])), h))).
Proof.
  split.
  - change (h ++ [ControlOutCall ReqMemReadCtrl 0 (Memory.AddressBlock 4 addrBytestorx);
                  ControlInCall ReqMemReadCtrl 0 4])
      with (h ++ [ControlOutCall ReqMemReadCtrl 0 (Memory.AddressBlock 4 addrBytestorx)]
              ++ [ControlInCall ReqMemReadCtrl 0 4]).
    rewrite app_assoc. reflexivity.
  - intro d.
  unfold SetTotalSamples, bind, MaxSamples. cbn [fst snd withErr hwMaxSamples].
  replace (hwMaxSamples c <? hwMaxSamples c + 1) with true
    by (symmetry; apply Z.ltb_lt; lia).
  reflexivity.
Qed.

(** Every operation that has the guard leaves a set error, the other fields
    and the device alone. *)
Theorem guarded_operations_sticky (d : Device) (op : Op) (c : Adc) (h : History)
  (e : error) :
  guarded op = true -> err c = Some e -> run d op (c, h) = (tt, (c, h)).
Proof.
  intros Hg He.
  destruct op; try discriminate;
    unfold run, Gain, SetGain, TriggerOffset, SetTriggerOffset, TotalSamples,
      numSamples, status, SetArmOn, SetArmOff, setTriggerNow, settings,
      setSettings, bind, Error, ret;
    cbn [fst snd]; rewrite He; cbn [fst snd]; try rewrite He; reflexivity.
Qed.

Lemma guarded_operations_sticky_witness :
  run zeroDevice (OpSetGain 45) (withErr freshAdc (Some (Errorf "earlier" [])), []) =
  (tt, (withErr freshAdc (Some (Errorf "earlier" [])), [])).
Proof.
  apply (guarded_operations_sticky zeroDevice (OpSetGain 45) _ [] (Errorf "earlier" []));
    reflexivity.
Defined.

(** *** Reading a trace *)

Lemma byte_to_Z_nonneg (b : byte) : 0 <= byte_to_Z b.
Proof. unfold byte_to_Z. lia. Qed.

Lemma le_uint_nonneg (bs : list byte) : 0 <= le_uint bs.
Proof.
  induction bs as [|b bs IH]; [cbn; lia|].
  change (le_uint (b :: bs)) with (byte_to_Z b + 256 * le_uint bs).
  pose proof (byte_to_Z_nonneg b). lia.
Qed.

Lemma memRead_eq (d : Device) (addr : Z) (size : nat) (c : Adc) (h : History) :
  memRead d addr size (c, h) =
  match Memory.Read d addr size h with
  | (inl e, h') => (None, (withErr c (Some e), h'))
  | (inr buf, h') => (Some buf, (withErr c None, h'))
  end.
Proof.
  unfold memRead, bind, mem, setErr, ret. cbn [fst snd].
  now destruct (Memory.Read d addr size h) as [[e|buf] h'].
Qed.




(** [ProcessTraceData] refuses a buffer that is not whole words. *)
Lemma ProcessTraceData_bad_length (data : list byte) (c : Adc) (h : History) :
  (length data < 4)%nat \/ (length data mod 4 <> 0)%nat ->
  ProcessTraceData data (c, h) =
  ([], (withErr c (Some (errDataLength (length data))), h)).
Proof.
  intro H. unfold ProcessTraceData.
  replace ((Z.of_nat (length data) <? 4) || negb (Z.of_nat (length data) mod 4 =? 0))
    with true; [reflexivity|].
  symmetry. apply orb_true_iff. destruct H as [H|H].
  - left. apply Z.ltb_lt. lia.
  - right. apply negb_true_iff, Z.eqb_neq.
    change 4 with (Z.of_nat 4). rewrite <- Nat2Z.inj_mod. lia.
Qed.

(** C10. A buffer shorter than 4 bytes, or whose length is no multiple of 4,
    makes [ProcessTraceData] set the sticky error and return no samples,
    whatever words it holds; so a trace read whose pending-byte count is
    below the computed read length and no multiple of 4 returns nothing and
    leaves the error set. *)
Theorem partial_words_fail (d : Device) (c : Adc) (h : History) :
  (forall data, (length data < 4)%nat \/ (length data mod 4 <> 0)%nat ->
     ProcessTraceData data (c, h) =
     ([], (withErr c (Some (errDataLength (length data))), h))) /\
  (forall buf h1 samples s2,
     Memory.Read d addrBytestorx 4 h = (inr buf, h1) ->
     numSamples d (withErr c None, h1) = (samples, s2) ->
     le_uint buf < readBound samples ->
     le_uint buf mod 4 <> 0 ->
     fst (TraceData d (c, h)) = [] /\
     err (fst (snd (TraceData d (c, h)))) <> None).
Proof.
  split; [intros data H; now apply ProcessTraceData_bad_length|].
  intros buf h1 samples [c2 h2] Hread Hnum Hlt Hmod.
  pose proof (le_uint_nonneg buf) as Hp.
  unfold TraceData, bind. rewrite memRead_eq, Hread.
  replace (le_uint buf =? 0) with false
    by (symmetry; apply Z.eqb_neq; intros E; rewrite E in Hmod; now apply Hmod).
  rewrite Hnum, memRead_eq. unfold toRead.
  replace (le_uint buf <? readBound samples) with true
    by (symmetry; now apply Z.ltb_lt).
  destruct (Memory.Read d addrAdcData (Z.to_nat (le_uint buf)) h2)
    as [[e|data] h3] eqn:E.
  - unfold Error, setErr, ret. cbn. split; [reflexivity|discriminate].
  - apply MemoryFacts.Read_length in E.
    rewrite ProcessTraceData_bad_length.
    + unfold Error, ret. cbn. split; [reflexivity|discriminate].
    + right. rewrite E. intro H0. apply Hmod.
      rewrite <- (Z2Nat.id (le_uint buf)) by exact Hp.
      change 4 with (Z.of_nat 4). rewrite <- Nat2Z.inj_mod, H0. reflexivity.
Qed.




(** Six pending bytes for 100 samples: the six bytes hold a whole word, and
    nothing of it is returned. *)
Lemma partial_words_fail_witness :
  fst (TraceData shortCapture (freshAdc, [])) = [] /\
  err (fst (snd (TraceData shortCapture (freshAdc, [])))) <> None.
Proof.
  refine (proj2 (partial_words_fail shortCapture freshAdc []) _ _ _ _
            eq_refl eq_refl _ _).
  - vm_compute. reflexivity.
  - vm_compute. discriminate.
Defined.

End AdcFacts.

(** ** The capture orchestrator *)

Module CaptureFacts.
Import Capture.


Lemma len_nonneg {X} (s : slice X) : 0 <= len s.
Proof. destruct s; cbn; lia. Qed.








(** *** Persistence *)

Lemma encodeFloats_finite (l : list float) :
  forallb finite l = true -> encodeList encodeFloat l = inr (map JNumber l).
Proof.
  induction l as [|f l IH]; intro H; [reflexivity|].
  cbn [forallb] in H. apply andb_true_iff in H as [Hf Hl].
  cbn [encodeList map]. unfold encodeFloat at 1. unfold finite in Hf.
  apply negb_true_iff in Hf. rewrite Hf. now rewrite (IH Hl).
Qed.

Lemma decodeFloats_numbers (l held : list float) :
  forallb finite l = true ->
  storeList decodeFloat 0%float (map JNumber l) held = inr l.
Proof.
  revert held. induction l as [|f l IH]; intros held H; [reflexivity|].
  cbn [forallb] in H. apply andb_true_iff in H as [Hf Hl].
  cbn [map storeList decodeFloat]. rewrite Hf. now rewrite (IH _ Hl).
Qed.

Lemma encodeTrace_finite (t : Trace) :
  finiteTrace t = true -> encodeTrace t = inr (traceJson t).
Proof.
  unfold finiteTrace, encodeTrace, traceJson, encodeSlice, floatsJson.
  destruct (PowerMeasurements t) as [l|]; [|reflexivity].
  cbn [elems]. intro H. now rewrite (encodeFloats_finite l H).
Qed.

Lemma decodeBytes_encodeBytes (s : slice byte) (t : target byte) :
  decodeBytes (encodeBytes s) t = inr (s, []).
Proof. now destruct s. Qed.

Lemma decodeFloats_floatsJson (s : slice float) :
  forallb finite (elems s) = true ->
  exists past, decodeSlice decodeFloat 0%float (floatsJson s) (None, []) = inr (s, past).
Proof.
  destruct s as [l|]; cbn [elems floatsJson decodeSlice]; intro H; [|now exists []].
  destruct l as [|f l]; [now exists []|].
  unfold decodeArray. cbn [map]. cbn [fst snd elems app].
  change (JNumber f :: map JNumber l) with (map JNumber (f :: l)).
  rewrite (decodeFloats_numbers (f :: l) [] H). eexists. reflexivity.
Qed.

Lemma decodeTrace_traceJson (t : Trace) :
  finiteTrace t = true -> decodeTrace (traceJson t) = inr t.
Proof.
  destruct t as [k pt ct pm]. unfold finiteTrace, traceJson, decodeTrace.
  cbn [Key Pt Ct PowerMeasurements]. intro H.
  destruct (decodeFloats_floatsJson pm H) as [past Hpm].
  cbn [decodeFields]. change (findField "k") with (Some FieldKey).
  change (findField "pt") with (Some FieldPt). change (findField "ct") with (Some FieldCt).
  change (findField "pm") with (Some FieldPowerMeasurements). cbv iota.
  rewrite !decodeBytes_encodeBytes. cbn [key_ pt_ ct_ pm_].
  rewrite Hpm. reflexivity.
Qed.

Lemma encodeTraces_finite (l : list Trace) :
  forallb finiteTrace l = true -> encodeList encodeTrace l = inr (map traceJson l).
Proof.
  induction l as [|t l IH]; intro H; [reflexivity|].
  cbn [forallb] in H. apply andb_true_iff in H as [Ht Hl].
  cbn [encodeList map]. now rewrite (encodeTrace_finite t Ht), (IH Hl).
Qed.

Lemma decodeTraces_traceJson (l held : list Trace) :
  forallb finiteTrace l = true ->
  storeList (fun _ => decodeTrace) zeroTrace (map traceJson l) held = inr l.
Proof.
  revert held. induction l as [|t l IH]; intros held H; [reflexivity|].
  cbn [forallb] in H. apply andb_true_iff in H as [Ht Hl].
  cbn [map storeList]. now rewrite (decodeTrace_traceJson t Ht), (IH _ Hl).
Qed.

(** The encoder stops at the first measurement it cannot write. *)
Lemma encodeFloats_not_finite (l : list float) (f : float) :
  In f l -> finite f = false -> encodeList encodeFloat l = inl errUnsupportedValue.
Proof.
  induction l as [|g l IH]; intros Hin Hf; [contradiction|].
  cbn [encodeList]. unfold encodeFloat at 1.
  destruct (PrimFloat.is_nan g || PrimFloat.is_infinity g) eqn:Eg; [reflexivity|].
  destruct Hin as [->|Hin].
  - unfold finite in Hf. rewrite Eg in Hf. discriminate.
  - now rewrite (IH Hin Hf).
Qed.

Lemma encodeTrace_error (t : Trace) (e : error) :
  encodeTrace t = inl e -> e = errUnsupportedValue.
Proof.
  unfold encodeTrace, encodeSlice. destruct (PowerMeasurements t) as [l|]; [|discriminate].
  assert (H : forall e', encodeList encodeFloat l = inl e' -> e' = errUnsupportedValue).
  { induction l as [|g l IH]; intros e' He; [discriminate|].
    cbn [encodeList] in He. unfold encodeFloat at 1 in He.
    destruct (PrimFloat.is_nan g || PrimFloat.is_infinity g); [now injection He as <-|].
    destruct (encodeList encodeFloat l); [|discriminate]. injection He as <-. now apply IH. }
  destruct (encodeList encodeFloat l) as [e'|js] eqn:E; [|discriminate].
  intros [= <-]. now apply H.
Qed.

Lemma encodeTraces_not_finite (l : list Trace) (t : Trace) (f : float) :
  In t l -> In f (elems (PowerMeasurements t)) -> finite f = false ->
  encodeList encodeTrace l = inl errUnsupportedValue.
Proof.
  induction l as [|u l IH]; intros Ht Hf Hnf; [contradiction|].
  cbn [encodeList]. destruct (encodeTrace u) as [e|j] eqn:Eu.
  - now rewrite (encodeTrace_error u e Eu).
  - destruct Ht as [->|Ht].
    + exfalso. unfold encodeTrace, encodeSlice in Eu.
      destruct (PowerMeasurements t) as [ms|]; [|contradiction].
      cbn [elems] in Hf. now rewrite (encodeFloats_not_finite ms f Hf Hnf) in Eu.
    + now rewrite (IH Ht Hf Hnf).
Qed.

(** C8, amended.  For every capture whose measurements are all finite,
    [SaveIo] writes a file from which [LoadCaptureIo] returns the capture
    itself: the same traces in the same order, with nil and empty sequences
    kept apart and every [float64] the very same value.  For every capture
    that holds a NaN or an infinity in any measurement of any trace,
    [SaveIo] returns the error of the JSON encoder and writes no file. *)
Theorem save_load_roundtrip (c : Capture) :
  (finiteCapture c = true ->
   exists f, SaveIo c = inr f /\ LoadCaptureIo f = inr c) /\
  (forall t f,
     In t (elems c) -> In f (elems (PowerMeasurements t)) ->
     PrimFloat.is_nan f = true \/ PrimFloat.is_infinity f = true ->
     SaveIo c = inl (Wrapf "JSON encoder failed %v" errUnsupportedValue)).
Proof.
  split.
  - unfold finiteCapture, SaveIo, LoadCaptureIo, encodeSlice.
    destruct c as [l|]; cbn [elems]; intro H.
    + rewrite (encodeTraces_finite l H). eexists. split; [reflexivity|].
      cbn [decodeSlice]. destruct l as [|t l]; [reflexivity|].
      unfold decodeArray. cbn [map]. cbn [fst snd elems app].
      change (traceJson t :: map traceJson l) with (map traceJson (t :: l)).
      now rewrite (decodeTraces_traceJson (t :: l) [] H).
    + eexists. split; reflexivity.
  - intros t f Ht Hf Hnf. unfold SaveIo, encodeSlice.
    destruct c as [l|]; cbn [elems] in Ht; [|contradiction].
    rewrite (encodeTraces_not_finite l t f Ht Hf); [reflexivity|].
    unfold finite. destruct Hnf as [-> | ->]; [reflexivity|].
    now rewrite orb_true_r.
Qed.

(** The capture of the test comes back as it was saved, and the capture with
    an infinite measurement in its second trace is not saved. *)
Lemma save_load_roundtrip_witness :
  (exists f, SaveIo testCapture = inr f /\ LoadCaptureIo f = inr testCapture) /\
  SaveIo infCapture = inl (Wrapf "JSON encoder failed %v" errUnsupportedValue).
Proof.
  split.
  - apply (proj1 (save_load_roundtrip testCapture)). reflexivity.
  - apply (proj2 (save_load_roundtrip infCapture)
             (nth 1 (elems infCapture) zeroTrace) PrimFloat.neg_infinity).
    + cbn. right. now left.
    + cbn. right. now left.
    + right. reflexivity.
Defined.

(** C8, as stated, fails where a measurement is NaN: [SaveIo] returns the
    encoder's error and there is no file to load. *)
Lemma save_nan_fails :
  finiteCapture nanCapture = false /\
  SaveIo nanCapture = inl (Wrapf "JSON encoder failed %v" errUnsupportedValue).
Proof. split; reflexivity. Qed.

(** What [LoadCaptureIo] makes of sources that [SaveIo] does not write: a
    source that ends before the header of a gzip member, and a document with
    keys in other cases, a key given three times, [null] for measurements
    and bytes given as numbers. *)
Lemma LoadCaptureIo_foreign :
  LoadCaptureIo (NotGzip [] eq_refl) = inl (Wrapf "gzip NewReader failed %v" errEOF) /\
  LoadCaptureIo (NotGzip [Byte.x1f; Byte.x8b] eq_refl) =
    inl (Wrapf "gzip NewReader failed %v" errUnexpectedEOF) /\
  LoadCaptureIo (NotGzip (repeat Byte.x00 10) eq_refl) =
    inl (Wrapf "gzip NewReader failed %v" errHeader) /\
  LoadCaptureIo (Gzip foreignDocument) =
    inr (Some [ {| Key := Some [Byte.x01]; Pt := None; Ct := None;
                   PowerMeasurements := Some [5%float; 2%float; 3%float; 0%float] |};
                zeroTrace;
                {| Key := Some [Byte.x07; Byte.x00; Byte.xff]; Pt := None; Ct := None;
                   PowerMeasurements := None |} ]).
Proof. repeat split. Qed.

End CaptureFacts.

(** ** Registers that keep what is written *)

Module RegisterFacts.
Import Memory Adc AdcTypes AdcRegisters Registers.

Lemma byte_to_of_Z (z : Z) : byte_to_Z (byte_of_Z z) = z mod 256.
Proof.
  unfold byte_to_Z, byte_of_Z.
  assert (H : 0 <= z mod 256 < 256) by (apply Z.mod_pos_bound; lia).
  destruct (Byte.of_N (Z.to_N (z mod 256))) as [b|] eqn:E.
  - apply Byte.to_of_N in E. rewrite E. lia.
  - apply Byte.of_N_None_iff in E. lia.
Qed.

Lemma byte_of_to_Z (b : byte) : byte_of_Z (byte_to_Z b) = b.
Proof. destruct b; reflexivity. Qed.

Lemma byte_to_Z_range (b : byte) : 0 <= byte_to_Z b < 256.
Proof. destruct b; cbv; split; congruence. Qed.

(** Two functions of a byte are equal when they agree on the 256 bytes. *)
Lemma byte_cases {T : Type} (F G : byte -> T) :
  map F allBytes = map G allBytes -> forall b, F b = G b.
Proof.
  intros H b. apply (proj1 map_ext_in_iff H).
  unfold allBytes. rewrite <- (byte_of_to_Z b). apply in_map.
  pose proof (byte_to_Z_range b) as Hb.
  apply in_map_iff. exists (Z.to_nat (byte_to_Z b)). split.
  - apply Z2Nat.id. lia.
  - apply in_seq. lia.
Qed.

Ltac by_bytes b := clear - b; revert b; apply byte_cases; vm_compute; reflexivity.

Lemma le_uint_le_uint32 (z : Z) : le_uint (le_uint32 z) = z mod 2 ^ 32.
Proof.
  unfold le_uint, le_uint32. cbn [fold_right]. rewrite !byte_to_of_Z.
  change (2 ^ 32) with (256 * (256 * (256 * 256))).
  rewrite (Z.rem_mul_r z 256 (256 * (256 * 256))) by lia.
  rewrite (Z.rem_mul_r (z / 256) 256 (256 * 256)) by lia.
  rewrite (Z.rem_mul_r (z / 256 / 256) 256 256) by lia.
  change (2 ^ 8) with 256. change (2 ^ 16) with (256 * 256).
  change (2 ^ 24) with (256 * 256 * 256).
  rewrite <- !Z.div_div by lia. lia.
Qed.

Lemma uint32_idem (z : Z) : uint32 (uint32 z) = uint32 z.
Proof. unfold uint32. apply Z.mod_mod. lia. Qed.

Lemma lastWrite_app (addr : Z) (h l : History) :
  lastWrite addr (h ++ l) = fold_left (latest addr) l (lastWrite addr h).
Proof. unfold lastWrite. apply fold_left_app. Qed.

Lemma writeOf_writeCall (addr : Z) (data : list byte) :
  writeOf (writeCall addr data) = Some (uint32 addr, data).
Proof.
  unfold writeCall, writeOf, AddressBlock.
  change (ReqMemWriteCtrl =? ReqMemWriteCtrl) with true. cbv iota.
  f_equal. f_equal.
  change (le_uint (le_uint32 (uint32 addr)) = uint32 addr).
  rewrite le_uint_le_uint32. apply uint32_idem.
Qed.

Lemma latest_writeCall (a addr : Z) (data : list byte) (acc : option (list byte)) :
  latest a acc (writeCall addr data) = if uint32 addr =? a then Some data else acc.
Proof. unfold latest. now rewrite writeOf_writeCall. Qed.

Lemma latest_readHeader (a addr : Z) (size : nat) (acc : option (list byte)) :
  latest a acc (readHeader addr size) = acc.
Proof. reflexivity. Qed.

Lemma latest_ControlIn (a : Z) req val size (acc : option (list byte)) :
  latest a acc (ControlInCall req val size) = acc.
Proof. reflexivity. Qed.

Lemma lastWrite_reads (a addr : Z) (size : nat) (h : History) :
  lastWrite a (h ++ readCalls addr size) = lastWrite a h.
Proof. now rewrite lastWrite_app. Qed.

(** The registers defined from a history are a register file. *)
Lemma last_app_one {X} (l : list X) (x y : X) : last (l ++ [x]) y = x.
Proof.
  induction l as [|a l IH]; [reflexivity|].
  cbn [app]. destruct (l ++ [x]) eqn:E; [now destruct l|]. exact IH.
Qed.

Lemma pad_length (size : nat) (bs : list byte) : length (pad size bs) = size.
Proof.
  unfold pad. rewrite length_firstn, length_app, repeat_length. lia.
Qed.

Lemma registers_RegisterFile (init : Z -> list byte) : RegisterFile (registers init).
Proof.
  split.
  - reflexivity.
  - intros h req val size. cbn [registers control_in].
    destruct (headerOf h) as [addr|]; [|split; [reflexivity|apply repeat_length]].
    destruct (lastWrite addr h) as [data|]; [|split; [reflexivity|apply pad_length]].
    destruct (Nat.eqb (length data) size) eqn:E.
    + split; [reflexivity|]. now apply Nat.eqb_eq.
    + split; [reflexivity|apply pad_length].
  - intros h addr data H. unfold answer. cbn [registers control_in].
    unfold headerOf. rewrite last_app_one. unfold readHeader at 1.
    change (ReqMemReadCtrl =? ReqMemReadCtrl) with true. cbv iota.
    unfold AddressBlock.
    change (skipn 4 (le_uint32 ?n ++ ?l)) with l.
    rewrite le_uint_le_uint32. fold (uint32 (uint32 addr)). rewrite uint32_idem.
    rewrite lastWrite_app. cbn [fold_left]. rewrite latest_readHeader, H.
    now rewrite Nat.eqb_refl.
Qed.

Lemma headerOf_readHeader (addr : Z) (size : nat) (h : History) :
  headerOf (h ++ [readHeader addr size]) = Some (uint32 addr).
Proof.
  unfold headerOf. rewrite last_app_one. unfold readHeader.
  change (ReqMemReadCtrl =? ReqMemReadCtrl) with true. cbv iota.
  unfold AddressBlock. change (skipn 4 (le_uint32 ?n ++ ?l)) with l.
  rewrite le_uint_le_uint32. fold (uint32 (uint32 addr)). now rewrite uint32_idem.
Qed.

(** A register that was not written yet reads as its initial content. *)
Lemma registers_unwritten (init : Z -> list byte) (addr : Z) (size : nat) (h : History) :
  lastWrite (uint32 addr) h = None ->
  answer (registers init) addr size h = pad size (init (uint32 addr)).
Proof.
  intro H. unfold answer. cbn [registers control_in].
  rewrite headerOf_readHeader, lastWrite_app. cbn [fold_left].
  now rewrite latest_readHeader, H.
Qed.

Section Facts.
Context (d : Device) (Hd : RegisterFile d).

Lemma Read_register (addr : Z) (size : nat) (h : History) :
  (size < 48)%nat ->
  Memory.Read d addr size h = (inr (answer d addr size h), h ++ readCalls addr size).
Proof.
  intro Hsz. unfold Memory.Read, doRead.
  replace (Z.of_nat size <? 48) with true by (symmetry; apply Z.ltb_lt; lia).
  cbv zeta. change (ReqMemReadCtrl =? ReqMemReadBulk) with false. step.
  rewrite (accepts d Hd). rewrite Z.eqb_refl.
  fold (readHeader addr size).
  destruct (answers d Hd (h ++ [readHeader addr size]) ReqMemReadCtrl 0 size) as [He Hl].
  unfold answer.
  destruct (control_in d (h ++ [readHeader addr size]) ReqMemReadCtrl 0 size) as [buf e].
  cbn [fst snd] in *. subst e. rewrite Hl, Nat.eqb_refl.
  unfold readCalls. now rewrite <- app_assoc.
Qed.

Lemma answer_length (addr : Z) (size : nat) (h : History) :
  length (answer d addr size h) = size.
Proof. unfold answer. apply (answers d Hd). Qed.

Lemma answer_written (addr : Z) (data : list byte) (h : History) (size : nat) :
  lastWrite (uint32 addr) h = Some data -> size = length data ->
  answer d addr size h = data.
Proof. intros H ->. now apply (keeps d Hd). Qed.

Lemma doWrite_send_register (addr : Z) (data : list byte) (h : History) :
  (length data < 48)%nat ->
  doWrite_send d addr data h = (None, h ++ [writeCall addr data]).
Proof.
  intro Hsz. unfold doWrite_send.
  replace (Z.of_nat (length data) <? 48) with true by (symmetry; apply Z.ltb_lt; lia).
  cbv zeta. rewrite Z.eqb_refl.
  change (ReqMemWriteCtrl =? ReqMemWriteBulk) with false. step.
  rewrite (accepts d Hd). now rewrite Z.eqb_refl.
Qed.

Lemma bytes_Equal_refl (a : list byte) : bytes_Equal a a = true.
Proof. now apply bytes_Equal_eq. Qed.

(** A write goes through, also with the read-back and under any mask of the
    length of the data. *)
Lemma Write_register (addr : Z) (data : list byte) (validate : bool)
  (mask : option (list byte)) (h : History) :
  (length data < 48)%nat ->
  (forall m, mask = Some m -> length m = length data) ->
  Memory.Write d addr data validate mask h =
  (None, h ++ writeCall addr data :: (if validate then readCalls addr (length data) else [])).
Proof.
  intros Hsz Hm. unfold Memory.Write, doWrite. step.
  rewrite doWrite_send_register by assumption.
  destruct validate; [|reflexivity].
  unfold doWrite_verify. step. rewrite Read_register by assumption.
  rewrite (answer_written addr data) by
    (try reflexivity; rewrite lastWrite_app; cbn [fold_left];
     now rewrite latest_writeCall, Z.eqb_refl).
  rewrite <- app_assoc. cbn [app].
  destruct mask as [m|].
  - rewrite (Hm m eq_refl), Nat.eqb_refl. cbn [negb]. now rewrite bytes_Equal_refl.
  - now rewrite bytes_Equal_refl.
Qed.

Lemma withErr_same (c : Adc) (e : option error) : err c = e -> withErr c e = c.
Proof. destruct c; cbn. now intros ->. Qed.

Lemma memRead_register (c : Adc) (h : History) (addr : Z) (size : nat) :
  err c = None -> (size < 48)%nat ->
  memRead d addr size (c, h) =
  (Some (answer d addr size h), (c, h ++ readCalls addr size)).
Proof.
  intros Hc Hsz. unfold memRead, mem, setErr. step. cbn [fst snd].
  rewrite Read_register by assumption. cbn [fst snd].
  now rewrite withErr_same.
Qed.

Lemma memWrite_register (c : Adc) (h : History) (addr : Z) (data : list byte)
  (validate : bool) (mask : option (list byte)) :
  err c = None -> (length data < 48)%nat ->
  (forall m, mask = Some m -> length m = length data) ->
  memWrite d addr data validate mask (c, h) =
  (tt, (c, h ++ writeCall addr data :: (if validate then readCalls addr (length data) else []))).
Proof.
  intros Hc Hsz Hm. unfold memWrite, mem, setErr. step. cbn [fst snd].
  rewrite Write_register by assumption. cbn [fst snd].
  now rewrite withErr_same.
Qed.

(** The register after a history that ends in a write to it. *)
Lemma answer_after_write (addr : Z) (data : list byte) (h : History) (tail : list Call)
  (size : nat) :
  size = length data ->
  (tail = [] \/ exists n, tail = readCalls addr n) ->
  answer d addr size (h ++ writeCall addr data :: tail) = data.
Proof.
  intros Hs Ht. apply answer_written; [|assumption].
  rewrite lastWrite_app. cbn [fold_left]. rewrite latest_writeCall, Z.eqb_refl.
  destruct Ht as [->|[n ->]]; reflexivity.
Qed.

Lemma one_byte (addr : Z) (h : History) :
  exists b, answer d addr 1 h = [b].
Proof.
  pose proof (answer_length addr 1 h) as H.
  destruct (answer d addr 1 h) as [|b [|? ?]]; try discriminate. now exists b.
Qed.

Lemma le_uint_one (b : byte) : le_uint [b] = byte_to_Z b.
Proof. unfold le_uint. cbn [fold_right]. lia. Qed.

End Facts.

End RegisterFacts.

(** ** The settings register *)

Module SettingsFacts.
Import Memory Adc AdcTypes AdcRegisters Registers AdcOps RegisterFacts.

Section Facts.
Context (d : Device) (Hd : RegisterFile d).

Lemma settings_reg (c : Adc) (h : History) :
  err c = None ->
  settings d (c, h) =
  (le_uint (answer d addrSettings 1 h), (c, h ++ readCalls addrSettings 1)).
Proof.
  intro Hc. unfold settings, Error. step. cbn [fst snd]. rewrite Hc.
  now rewrite (memRead_register d Hd) by (assumption || lia).
Qed.

Lemma setSettings_reg (c : Adc) (h : History) (v : Z) (validate : bool) :
  err c = None ->
  setSettings d v validate (c, h) =
  (tt, (c, h ++ writeCall addrSettings [byte_of_Z v]
                 :: (if validate then readCalls addrSettings 1 else []))).
Proof.
  intro Hc. unfold setSettings, Error. step. cbn [fst snd]. rewrite Hc.
  now rewrite (memWrite_register d Hd) by (assumption || (cbn; lia) || discriminate).
Qed.

Lemma GainMode_reg (c : Adc) (h : History) :
  err c = None ->
  fst (GainMode d (c, h)) =
  if 0 <? Z.land (le_uint (answer d addrSettings 1 h)) settingsGainHigh
  then GainModeHigh else GainModeLow.
Proof.
  intro Hc. unfold GainMode. step. rewrite settings_reg by assumption.
  now destruct (0 <? _).
Qed.

Lemma TriggerMode_reg (c : Adc) (h : History) :
  err c = None ->
  fst (TriggerMode d (c, h)) =
  let s := Z.land (le_uint (answer d addrSettings 1 h)) (Z.lor settingsTrigHigh settingsWaitYes) in
  if s =? Z.lor settingsTrigHigh settingsWaitYes then TriggerModeRisingEdge
  else if s =? Z.lor settingsTrigLow settingsWaitYes then TriggerModeFallingEdge
  else if s =? Z.lor settingsTrigHigh settingsWaitNo then TriggerModeHigh
  else TriggerModeLow.
Proof.
  intro Hc. unfold TriggerMode. step. rewrite settings_reg by assumption.
  cbv zeta. repeat (destruct (_ =? _); [reflexivity|]). reflexivity.
Qed.

(** One operation: the error stays clear, and each mode is the one the
    operation sets or the one from before. *)
Lemma runSettingsOp_step (op : SettingsOp) (c : Adc) (h : History) :
  err c = None ->
  exists h',
    runSettingsOp d op (c, h) = (tt, (c, h')) /\
    fst (GainMode d (c, h')) =
      match op with OpSetGainMode m => m | _ => fst (GainMode d (c, h)) end /\
    fst (TriggerMode d (c, h')) =
      match op with OpSetTriggerMode m => m | _ => fst (TriggerMode d (c, h)) end.
Proof.
  intro Hc. destruct (one_byte d Hd addrSettings h) as [b Hb].
  destruct op as [m|m| | | |]; cbn [runSettingsOp];
    [ unfold SetGainMode; destruct m
    | unfold SetTriggerMode; destruct m
    | unfold SetArmOn | unfold SetArmOff
    | unfold setTriggerNow, Error; step; cbn [fst snd]; rewrite Hc
    | unfold setResetOff ];
    step; rewrite settings_reg by assumption; cbv zeta;
    rewrite !setSettings_reg by assumption;
    (eexists; split; [reflexivity|]);
    rewrite !GainMode_reg, !TriggerMode_reg by assumption;
    rewrite !(answer_after_write d Hd) by first [reflexivity | right; now eexists | now left];
    rewrite Hb, !le_uint_one;
    clear; destruct b; vm_compute; split; reflexivity.
Qed.

(** After any sequence of the operations on the settings register the error is
    still clear, and the two modes are those the sequence set last. *)
Lemma runAll_settings (ops : list SettingsOp) (c : Adc) (h : History) :
  err c = None ->
  exists h',
    runAll (runSettingsOp d) ops (c, h) = (tt, (c, h')) /\
    fst (GainMode d (c, h')) = gainModeAfter ops (fst (GainMode d (c, h))) /\
    fst (TriggerMode d (c, h')) = triggerModeAfter ops (fst (TriggerMode d (c, h))).
Proof.
  intro Hc. revert h. induction ops as [|op ops IH]; intro h.
  - exists h. repeat split.
  - destruct (runSettingsOp_step op c h Hc) as (h1 & Hrun & Hg & Ht).
    destruct (IH h1) as (h2 & Hrest & Hg2 & Ht2).
    exists h2. cbn [runAll]. step. rewrite Hrun, Hrest.
    split; [reflexivity|]. rewrite Hg2, Ht2, Hg, Ht.
    destruct op; split; reflexivity.
Qed.

End Facts.

(** X5. On a device whose registers keep what is written, any sequence of
    [SetGainMode], [SetTriggerMode], [SetArmOn], [SetArmOff], [setTriggerNow]
    and [setResetOff] leaves the error clear, and afterwards [GainMode] and
    [TriggerMode] return the mode that the sequence set last, or the mode
    they returned before when the sequence does not set it: the fields of
    the settings register do not disturb each other. *)
Theorem settings_modes_survive (d : Device) (ops : list SettingsOp) (c : Adc) (h : History) :
  RegisterFile d -> err c = None ->
  exists h',
    runAll (runSettingsOp d) ops (c, h) = (tt, (c, h')) /\
    fst (GainMode d (c, h')) = gainModeAfter ops (fst (GainMode d (c, h))) /\
    fst (TriggerMode d (c, h')) = triggerModeAfter ops (fst (TriggerMode d (c, h))).
Proof. intros Hd Hc. now apply runAll_settings. Qed.

Lemma settings_modes_survive_witness :
  exists h',
    runAll (runSettingsOp blankRegisters)
      [OpSetTriggerMode TriggerModeRisingEdge; OpSetGainMode GainModeHigh; OpSetArmOn;
       OpSetTriggerNow; OpSetArmOff] (freshAdc, []) = (tt, (freshAdc, h')) /\
    fst (GainMode blankRegisters (freshAdc, h')) = GainModeHigh /\
    fst (TriggerMode blankRegisters (freshAdc, h')) = TriggerModeRisingEdge.
Proof.
  exact (settings_modes_survive blankRegisters
           [OpSetTriggerMode TriggerModeRisingEdge; OpSetGainMode GainModeHigh; OpSetArmOn;
            OpSetTriggerNow; OpSetArmOff] freshAdc []
           (registers_RegisterFile _) eq_refl).
Defined.

End SettingsFacts.

(** ** Registers that hold one value *)

Module ScalarFacts.
Import Memory Adc AdcTypes AdcRegisters Registers RegisterFacts.

Lemma le_uint_le_uint16 (z : Z) : le_uint (le_uint16 z) = z mod 2 ^ 16.
Proof.
  unfold le_uint, le_uint16. cbn [fold_right]. rewrite !byte_to_of_Z.
  change (2 ^ 16) with (256 * 256). change (2 ^ 8) with 256.
  rewrite (Z.rem_mul_r z 256 256) by lia. lia.
Qed.

Section Facts.
Context (d : Device) (Hd : RegisterFile d).

(** Unfolding the guard of a function on a clear error. *)
Ltac enter Hc :=
  unfold Error; repeat (progress (step; cbn [fst snd]; rewrite ?Hc; cbv beta iota)).

Ltac written :=
  rewrite ?(answer_after_write d Hd) by first [reflexivity | right; now eexists | now left].

Lemma SetGain_Gain (c : Adc) (h : History) (g : Z) :
  err c = None -> 0 <= g <= 78 ->
  exists h1 h2, SetGain d g (c, h) = (tt, (c, h1)) /\ Gain d (c, h1) = (g, (c, h2)).
Proof.
  intros Hc Hg. unfold SetGain, Gain. enter Hc.
  replace (78 <? g) with false by (symmetry; apply Z.ltb_ge; lia).
  rewrite (memWrite_register d Hd) by (assumption || (cbn; lia) || discriminate).
  do 2 eexists. split; [reflexivity|]. cbn [fst snd]. rewrite ?Hc.
  rewrite (memRead_register d Hd) by (assumption || lia). written.
  unfold le_uint. cbn [fold_right]. rewrite byte_to_of_Z, Z.mod_small by lia.
  now rewrite Z.add_0_r.
Qed.

Lemma SetTriggerOffset_TriggerOffset (c : Adc) (h : History) (o : Z) :
  err c = None -> 0 <= o < 2 ^ 32 ->
  exists h1 h2,
    SetTriggerOffset d o (c, h) = (tt, (c, h1)) /\ TriggerOffset d (c, h1) = (o, (c, h2)).
Proof.
  intros Hc Ho. unfold SetTriggerOffset, TriggerOffset. enter Hc.
  rewrite (memWrite_register d Hd) by (assumption || (cbn; lia) || discriminate).
  do 2 eexists. split; [reflexivity|]. cbn [fst snd]. rewrite ?Hc.
  rewrite (memRead_register d Hd) by (assumption || lia).
  change 4%nat with (length (le_uint32 o)) at 1. written.
  now rewrite le_uint_le_uint32, Z.mod_small.
Qed.

Lemma SetTotalSamples_TotalSamples (c : Adc) (h : History) (n : Z) :
  err c = None -> 0 <= n < 2 ^ 32 -> n <= hwMaxSamples c ->
  exists h1 h2,
    SetTotalSamples d n (c, h) = (tt, (c, h1)) /\ TotalSamples d (c, h1) = (n, (c, h2)).
Proof.
  intros Hc Hn Hmax. unfold SetTotalSamples, TotalSamples, MaxSamples, setNumSamples, numSamples.
  enter Hc.
  replace (hwMaxSamples c <? n) with false by (symmetry; apply Z.ltb_ge; lia).
  enter Hc.
  rewrite (memWrite_register d Hd) by (assumption || (cbn; lia) || discriminate).
  do 2 eexists. split; [reflexivity|]. cbn [fst snd]. rewrite ?Hc.
  rewrite (memRead_register d Hd) by (assumption || lia).
  change 4%nat with (length (le_uint32 n)) at 1. written.
  now rewrite le_uint_le_uint32, Z.mod_small.
Qed.

Lemma SetDownsampleFactor_DownsampleFactor (c : Adc) (h : History) (f : Z) :
  err c = None -> 0 <= f < 2 ^ 16 ->
  exists h1 h2,
    SetDownsampleFactor d f (c, h) = (tt, (c, h1)) /\
    DownsampleFactor d (c, h1) = (f, (c, h2)) /\
    lastWrite addrDecimate h1 = Some (le_uint16 ((f - 1) mod 2 ^ 16)).
Proof.
  intros Hc Hf. unfold SetDownsampleFactor, DownsampleFactor, setDecimate, decimate.
  enter Hc. cbv zeta.
  rewrite (memWrite_register d Hd) by (assumption || (cbn; lia) || discriminate).
  do 2 eexists. split; [reflexivity|]. cbn [fst snd]. rewrite ?Hc. split.
  - rewrite (memRead_register d Hd) by (assumption || lia).
    change 2%nat with (length (le_uint16 (uint16 (f - 1)))) at 1. written.
    rewrite le_uint_le_uint16. unfold uint16. rewrite Z.mod_mod by lia.
    rewrite Z.add_mod_idemp_l by lia. replace (f - 1 + 1) with f by lia.
    now rewrite Z.mod_small.
  - rewrite lastWrite_app. cbn [fold_left length readCalls].
    rewrite latest_writeCall. reflexivity.
Qed.

Lemma SetTriggerTargetIoPin_TriggerTargetIoPins (c : Adc) (h : History)
  (pin : TriggerTargetIoPin) :
  err c = None ->
  exists h1 h2,
    SetTriggerTargetIoPin d pin (c, h) = (tt, (c, h1)) /\
    TriggerTargetIoPins d (c, h1) = ([pin], (c, h2)).
Proof.
  intro Hc. unfold SetTriggerTargetIoPin, TriggerTargetIoPins.
  destruct pin; enter Hc; cbv zeta;
    rewrite (memWrite_register d Hd) by (assumption || (cbn; lia) || discriminate);
    (do 2 eexists; split; [reflexivity|]); cbn [fst snd]; rewrite ?Hc;
    rewrite (memRead_register d Hd) by (assumption || lia); written;
    reflexivity.
Qed.

Lemma SetHs2_Hs2 (c : Adc) (h : History) (mode : Hs2Mode) :
  err c = None ->
  exists h1 h2 b b',
    SetHs2 d mode (c, h) = (tt, (c, h1)) /\
    Hs2 d (c, h1) = (mode, (c, h2)) /\
    answer d addrExtClk 1 h = [b] /\
    lastWrite addrExtClk h1 = Some [b'] /\
    Z.land (byte_to_Z b') 0x9f = Z.land (byte_to_Z b) 0x9f.
Proof.
  intro Hc. destruct (one_byte d Hd addrExtClk h) as [b Hb].
  unfold SetHs2, Hs2, setTargetClkOut, targetClkOut.
  destruct mode; [set (k := 0) | set (k := 2) | set (k := 3)]; enter Hc;
    rewrite (memRead_register d Hd) by (assumption || lia); cbv zeta;
    rewrite (memWrite_register d Hd) by (assumption || (cbn; lia) || discriminate);
    (do 2 eexists; exists b; eexists; split; [reflexivity|]);
    cbn [fst snd]; rewrite ?Hc;
    rewrite (memRead_register d Hd) by (assumption || lia); written;
    rewrite lastWrite_app; cbn [fold_left length readCalls app];
    rewrite latest_writeCall; change (uint32 addrExtClk =? addrExtClk) with true; cbv iota;
    rewrite Hb, !le_uint_one;
    (split; [|split; [reflexivity|split; [reflexivity|]]];
    [ match goal with
      | |- context [Z.shiftr ?x 5] =>
          replace (Z.shiftr x 5) with k by (clear - k; destruct b; vm_compute; reflexivity)
      end; reflexivity
    | clear; destruct b; vm_compute; reflexivity ]).
Qed.

End Facts.

(** X6. On a device whose registers keep what is written, the numeric
    settings read back as set: [Gain] returns the gain given to [SetGain]
    (0 to 78), [TriggerOffset] the offset given to [SetTriggerOffset],
    [TotalSamples] the count given to [SetTotalSamples] (up to the limit of
    the hardware), and [DownsampleFactor] the factor given to
    [SetDownsampleFactor]; the register of the latter holds the factor minus
    one in 16 bits, so that a factor of 0 is stored as 0xFFFF and still reads
    back as 0. *)
Theorem numeric_settings_read_back (d : Device) (c : Adc) (h : History) :
  RegisterFile d -> err c = None ->
  (forall g, 0 <= g <= 78 ->
     exists h1 h2, SetGain d g (c, h) = (tt, (c, h1)) /\ Gain d (c, h1) = (g, (c, h2))) /\
  (forall o, 0 <= o < 2 ^ 32 ->
     exists h1 h2, SetTriggerOffset d o (c, h) = (tt, (c, h1)) /\
                   TriggerOffset d (c, h1) = (o, (c, h2))) /\
  (forall n, 0 <= n < 2 ^ 32 -> n <= hwMaxSamples c ->
     exists h1 h2, SetTotalSamples d n (c, h) = (tt, (c, h1)) /\
                   TotalSamples d (c, h1) = (n, (c, h2))) /\
  (forall f, 0 <= f < 2 ^ 16 ->
     exists h1 h2, SetDownsampleFactor d f (c, h) = (tt, (c, h1)) /\
                   DownsampleFactor d (c, h1) = (f, (c, h2)) /\
                   lastWrite addrDecimate h1 = Some (le_uint16 ((f - 1) mod 2 ^ 16))).
Proof.
  intros Hd Hc. repeat split; intros.
  - now apply SetGain_Gain.
  - now apply SetTriggerOffset_TriggerOffset.
  - now apply SetTotalSamples_TotalSamples.
  - now apply SetDownsampleFactor_DownsampleFactor.
Qed.

Lemma numeric_settings_read_back_witness :
  (exists h1 h2, SetGain blankRegisters 45 (freshAdc, []) = (tt, (freshAdc, h1)) /\
                 Gain blankRegisters (freshAdc, h1) = (45, (freshAdc, h2))) /\
  (exists h1 h2, SetDownsampleFactor blankRegisters 0 (freshAdc, []) = (tt, (freshAdc, h1)) /\
                 DownsampleFactor blankRegisters (freshAdc, h1) = (0, (freshAdc, h2)) /\
                 lastWrite addrDecimate h1 = Some [Byte.xff; Byte.xff]).
Proof.
  destruct (numeric_settings_read_back blankRegisters freshAdc []
              (registers_RegisterFile _) eq_refl) as (Hg & _ & _ & Hf).
  split.
  - apply Hg. lia.
  - apply (Hf 0). lia.
Defined.

(** X7. On a device whose registers keep what is written: after
    [SetTriggerTargetIoPin pin] the trigger pins read back as the single
    [pin], whatever was selected before; after [SetHs2 mode], [Hs2] returns
    [mode], and the write changed only bits 5 and 6 of the clock-output
    register. *)
Theorem pin_settings_read_back (d : Device) (c : Adc) (h : History) :
  RegisterFile d -> err c = None ->
  (forall pin, exists h1 h2,
      SetTriggerTargetIoPin d pin (c, h) = (tt, (c, h1)) /\
      TriggerTargetIoPins d (c, h1) = ([pin], (c, h2))) /\
  (forall mode, exists h1 h2 b b',
      SetHs2 d mode (c, h) = (tt, (c, h1)) /\
      Hs2 d (c, h1) = (mode, (c, h2)) /\
      answer d addrExtClk 1 h = [b] /\
      lastWrite addrExtClk h1 = Some [b'] /\
      Z.land (byte_to_Z b') 0x9f = Z.land (byte_to_Z b) 0x9f).
Proof.
  intros Hd Hc. split; intros.
  - now apply SetTriggerTargetIoPin_TriggerTargetIoPins.
  - now apply SetHs2_Hs2.
Qed.

Lemma pin_settings_read_back_witness :
  exists h1 h2 b b',
    SetHs2 blankRegisters Hs2ModeClkGen (freshAdc, []) = (tt, (freshAdc, h1)) /\
    Hs2 blankRegisters (freshAdc, h1) = (Hs2ModeClkGen, (freshAdc, h2)) /\
    answer blankRegisters addrExtClk 1 [] = [b] /\
    lastWrite addrExtClk h1 = Some [b'] /\
    Z.land (byte_to_Z b') 0x9f = Z.land (byte_to_Z b) 0x9f.
Proof.
  exact (proj2 (pin_settings_read_back blankRegisters freshAdc []
                  (registers_RegisterFile _) eq_refl) Hs2ModeClkGen).
Defined.

End ScalarFacts.

(** ** The clock register *)

Module ClockFacts.
Import Memory Adc AdcTypes AdcRegisters Registers AdcOps RegisterFacts.

Section Facts.
Context (d : Device) (Hd : RegisterFile d).

Lemma advClock_reg (c : Adc) (h : History) :
  err c = None ->
  advClock d (c, h) =
  (decodeAdvClk (answer d addrAdvClk 4 h), (c, h ++ readCalls addrAdvClk 4)).
Proof.
  intro Hc. unfold advClock, Error. step. cbn [fst snd]. rewrite Hc.
  now rewrite (memRead_register d Hd) by (assumption || lia).
Qed.

Lemma setAdvClock_reg (c : Adc) (h : History) (s : AdvClkSettings) (validate : bool) :
  err c = None ->
  setAdvClock d s validate (c, h) =
  (tt, (c, h ++ writeCall addrAdvClk (encodeAdvClk s)
                 :: (if validate then readCalls addrAdvClk 4 else []))).
Proof.
  intro Hc. unfold setAdvClock, Error. step. cbn [fst snd]. rewrite Hc.
  now rewrite (memWrite_register d Hd)
    by (assumption || (cbn; lia) || (intros m [= <-]; reflexivity)).
Qed.

Lemma four_bytes (h : History) :
  exists b0 b1 b2 b3, answer d addrAdvClk 4 h = [b0; b1; b2; b3].
Proof.
  pose proof (answer_length d Hd addrAdvClk 4 h) as H.
  destruct (answer d addrAdvClk 4 h) as [|b0 [|b1 [|b2 [|b3 [|? ?]]]]]; try discriminate.
  now exists b0, b1, b2, b3.
Qed.

Lemma AdcClockSource_reg (c : Adc) (h : History) :
  err c = None ->
  fst (AdcClockSource d (c, h)) =
  let s := Z.land (at_ (answer d addrAdvClk 4 h) 0) 0x07 in
  {| AdcSrcOf := if 0 <? Z.land s 0x01 then AdcSrcExtClk else AdcSrcDcm;
     DcmOut := if 0 <? Z.land s 0x02 then 1 else 4;
     DcmInputOf := if 0 <? Z.land s 0x04 then DcmInputExtClk else DcmInputClkGen |}.
Proof.
  intro Hc. unfold AdcClockSource, Error. step. cbn [fst snd]. rewrite Hc.
  now rewrite advClock_reg by assumption.
Qed.

Lemma ClkGenInputSource_reg (c : Adc) (h : History) :
  err c = None ->
  fst (ClkGenInputSource d (c, h)) =
  if 0 <? Z.land (at_ (answer d addrAdvClk 4 h) 0) 0x08
  then ClkGenInputExtClk else ClkGenInputSystem.
Proof.
  intro Hc. unfold ClkGenInputSource. step. rewrite advClock_reg by assumption.
  cbn [decodeAdvClk SrcAndStatus]. now destruct (0 <? _).
Qed.

Lemma FreqCounterSource_reg (c : Adc) (h : History) :
  err c = None ->
  fst (FreqCounterSource d (c, h)) =
  if 0 <? Z.land (at_ (answer d addrAdvClk 4 h) 3) 0x08
  then FreqCounterClkGenOutput else FreqCounterExtClkInput.
Proof.
  intro Hc. unfold FreqCounterSource. step. rewrite advClock_reg by assumption.
  cbn [decodeAdvClk ClkGenFlags]. now destruct (0 <? _).
Qed.

(** Running the body of a function on a clear error. *)
Ltac run Hc :=
  unfold Error;
  repeat (progress (step; cbn [fst snd]; rewrite ?Hc; cbv beta iota zeta;
                    rewrite ?advClock_reg, ?setAdvClock_reg by assumption)).

Ltac written :=
  rewrite ?(answer_after_write d Hd) by first [reflexivity | right; now eexists | now left].

Ltac finish b0 b3 :=
  (eexists; split; [reflexivity|]);
  rewrite !AdcClockSource_reg, !ClkGenInputSource_reg, !FreqCounterSource_reg by assumption;
  written;
  match goal with Hb : answer _ _ _ _ = _ |- _ => rewrite ?Hb end;
  cbv beta iota zeta delta [encodeAdvClk decodeAdvClk at_ nth SrcAndStatus Mul Div ClkGenFlags
                            withSrcAndStatus withMul withDiv withClkGenFlags];
  (split; [|split]);
  lazymatch goal with
  | |- context [b0] => by_bytes b0
  | |- context [b3] => by_bytes b3
  | _ => reflexivity
  end.

Lemma runClockOp_step (op : ClockOp) (c : Adc) (h : History) :
  err c = None -> acceptedClockOp op = true ->
  exists h',
    runClockOp d op (c, h) = (tt, (c, h')) /\
    fst (AdcClockSource d (c, h')) =
      match op with OpSetAdcClockSource s => s | _ => fst (AdcClockSource d (c, h)) end /\
    fst (ClkGenInputSource d (c, h')) =
      match op with OpSetClkGenInputSource s => s | _ => fst (ClkGenInputSource d (c, h)) end /\
    fst (FreqCounterSource d (c, h')) =
      match op with OpSetFreqCounterSource s => s | _ => fst (FreqCounterSource d (c, h)) end.
Proof.
  intros Hc Hop. destruct (four_bytes h) as (b0 & b1 & b2 & b3 & Hb).
  destruct op as [[a o i]|s|s|m|dv| | |]; cbn [runClockOp].
  - cbn in Hop. unfold SetAdcClockSource, resetAdc. cbn [DcmOut DcmInputOf AdcSrcOf].
    apply orb_true_iff in Hop as [Ho|Ho]; apply Z.eqb_eq in Ho; subst o;
      rewrite ?Z.eqb_refl; change (1 =? 4) with false; cbv iota;
      destruct a, i; run Hc; finish b0 b3.
  - unfold SetClkGenInputSource. destruct s; run Hc; finish b0 b3.
  - unfold SetFreqCounterSource, resetClkGen, reloadClkGen, resetAdc.
    destruct s; run Hc; finish b0 b3.
  - cbn in Hop. apply Z.leb_le in Hop. unfold setClkGenMul.
    replace (m <? 2) with false by (symmetry; apply Z.ltb_ge; lia).
    run Hc; finish b0 b3.
  - cbn in Hop. apply Z.leb_le in Hop. unfold setClkGenDiv.
    replace (dv <? 1) with false by (symmetry; apply Z.ltb_ge; lia).
    run Hc; finish b0 b3.
  - unfold reloadClkGen. run Hc; finish b0 b3.
  - unfold resetClkGen, reloadClkGen. run Hc; finish b0 b3.
  - unfold resetAdc. run Hc; finish b0 b3.
Qed.

Lemma runAll_clock (ops : list ClockOp) (c : Adc) (h : History) :
  err c = None -> forallb acceptedClockOp ops = true ->
  exists h',
    runAll (runClockOp d) ops (c, h) = (tt, (c, h')) /\
    fst (AdcClockSource d (c, h')) = adcClockSourceAfter ops (fst (AdcClockSource d (c, h))) /\
    fst (ClkGenInputSource d (c, h')) =
      clkGenInputSourceAfter ops (fst (ClkGenInputSource d (c, h))) /\
    fst (FreqCounterSource d (c, h')) =
      freqCounterSourceAfter ops (fst (FreqCounterSource d (c, h))).
Proof.
  intro Hc. revert h. induction ops as [|op ops IH]; intros h Hops.
  - exists h. repeat split.
  - cbn [forallb] in Hops. apply andb_true_iff in Hops as [Hop Hops].
    destruct (runClockOp_step op c h Hc Hop) as (h1 & Hrun & Ha & Hi & Hf).
    destruct (IH h1 Hops) as (h2 & Hrest & Ha2 & Hi2 & Hf2).
    exists h2. cbn [runAll]. step. rewrite Hrun, Hrest.
    split; [reflexivity|]. rewrite Ha2, Hi2, Hf2, Ha, Hi, Hf.
    destruct op; repeat split; reflexivity.
Qed.

End Facts.

(** X8. On a device whose registers keep what is written, any sequence of
    [SetAdcClockSource] (with [DcmOut] 1 or 4), [SetClkGenInputSource],
    [SetFreqCounterSource], [setClkGenMul] (from 2), [setClkGenDiv] (from 1),
    [reloadClkGen], [resetClkGen] and [resetAdc] leaves the error clear, and
    afterwards [AdcClockSource], [ClkGenInputSource] and [FreqCounterSource]
    return what the sequence set last, or what they returned before when the
    sequence does not set it: the resets and the other fields of the clock
    register do not disturb a source once selected. *)
Theorem clock_sources_survive (d : Device) (ops : list ClockOp) (c : Adc) (h : History) :
  RegisterFile d -> err c = None -> forallb acceptedClockOp ops = true ->
  exists h',
    runAll (runClockOp d) ops (c, h) = (tt, (c, h')) /\
    fst (AdcClockSource d (c, h')) = adcClockSourceAfter ops (fst (AdcClockSource d (c, h))) /\
    fst (ClkGenInputSource d (c, h')) =
      clkGenInputSourceAfter ops (fst (ClkGenInputSource d (c, h))) /\
    fst (FreqCounterSource d (c, h')) =
      freqCounterSourceAfter ops (fst (FreqCounterSource d (c, h))).
Proof. intros Hd Hc Hops. now apply runAll_clock. Qed.

Lemma clock_sources_survive_witness :
  exists h',
    runAll (runClockOp blankRegisters)
      [OpSetClkGenInputSource ClkGenInputExtClk; OpSetAdcClockSource AdcSrcExtClkX1ViaDcm;
       OpSetClkGenMul 3; OpSetFreqCounterSource FreqCounterClkGenOutput; OpResetAdc]
      (freshAdc, []) = (tt, (freshAdc, h')) /\
    fst (AdcClockSource blankRegisters (freshAdc, h')) = AdcSrcExtClkX1ViaDcm /\
    fst (ClkGenInputSource blankRegisters (freshAdc, h')) = ClkGenInputExtClk /\
    fst (FreqCounterSource blankRegisters (freshAdc, h')) = FreqCounterClkGenOutput.
Proof.
  exact (clock_sources_survive blankRegisters
           [OpSetClkGenInputSource ClkGenInputExtClk; OpSetAdcClockSource AdcSrcExtClkX1ViaDcm;
            OpSetClkGenMul 3; OpSetFreqCounterSource FreqCounterClkGenOutput; OpResetAdc]
           freshAdc [] (registers_RegisterFile _) eq_refl eq_refl).
Defined.

End ClockFacts.

(** ** Pre-trigger samples *)

Module PresamplesFacts.
Import Memory Adc AdcTypes AdcRegisters Registers AdcOps RegisterFacts.

Section Facts.
Context (d : Device) (Hd : RegisterFile d) (Hlite : ReportsLite d).

Ltac enter Hc :=
  unfold Error; repeat (progress (step; cbn [fst snd]; rewrite ?Hc; cbv beta iota)).

Lemma Version_lite (c : Adc) (h : History) :
  err c = None -> lastWrite addrVersions h = None ->
  exists v, Version d (c, h) = (v, (c, h ++ readCalls addrVersions 6)) /\
            (HwTypeOf v = HwChipWhispererLite \/ HwTypeOf v = HwChipWhispererCw1200).
Proof.
  intros Hc Hh. unfold Version. enter Hc.
  rewrite (memRead_register d Hd) by (assumption || lia).
  eexists. split; [reflexivity|]. exact (Hlite h Hh).
Qed.

Lemma SetPreTriggerSamples_PreTriggerSamples (c : Adc) (h : History) (n : Z) :
  err c = None -> lastWrite addrVersions h = None -> 0 <= n < 2 ^ 32 ->
  exists h1 h2,
    SetPreTriggerSamples d n (c, h) = (tt, (c, h1)) /\
    lastWrite addrPresamples h1 = Some (le_uint32 n) /\
    lastWrite addrVersions h1 = None /\
    PreTriggerSamples d (c, h1) = (uint32 (n * 3), (c, h2)) /\
    lastWrite addrVersions h2 = None.
Proof.
  intros Hc Hh Hn.
  destruct (Version_lite c h Hc Hh) as (v & Hv & Ht).
  unfold SetPreTriggerSamples. enter Hc. rewrite Hv. enter Hc.
  replace (negb (HwTypeOf v =? HwChipWhispererLite)
           && negb (HwTypeOf v =? HwChipWhispererCw1200)) with false
    by (destruct Ht as [-> | ->]; reflexivity).
  rewrite (memWrite_register d Hd) by (assumption || (cbn; lia) || discriminate).
  do 2 eexists. split; [reflexivity|].
  assert (Hp : forall a, a <> addrPresamples ->
            lastWrite a ((h ++ readCalls addrVersions 6) ++
                         writeCall addrPresamples (le_uint32 n)
                         :: readCalls addrPresamples (length (le_uint32 n))) =
            lastWrite a h).
  { intros a Ha. rewrite !lastWrite_app. cbn [fold_left length readCalls].
    rewrite latest_writeCall. rewrite !latest_readHeader, !latest_ControlIn.
    change (uint32 addrPresamples) with addrPresamples.
    destruct (addrPresamples =? a) eqn:E; [apply Z.eqb_eq in E; congruence|reflexivity]. }
  split; [|split].
  - rewrite !lastWrite_app. cbn [fold_left length readCalls].
    now rewrite latest_writeCall.
  - rewrite Hp by discriminate. exact Hh.
  - unfold PreTriggerSamples. enter Hc.
    rewrite (memRead_register d Hd) by (assumption || lia).
    change 4%nat with (length (le_uint32 n)) at 3.
    rewrite (answer_after_write d Hd) by first [reflexivity | right; now eexists].
    cbv zeta.
    match goal with
    | |- context [Version d ?s] =>
        lazymatch s with
        | (c, ?hh) =>
            destruct (Version_lite c hh Hc) as (v2 & Hv2 & Ht2);
            [rewrite lastWrite_reads, Hp by discriminate; exact Hh|];
            replace (Version d s) with (v2, (c, hh ++ readCalls addrVersions 6))
              by (symmetry; exact Hv2)
        end
    end.
    enter Hc.
    replace ((HwTypeOf v2 =? HwChipWhispererLite) || (HwTypeOf v2 =? HwChipWhispererCw1200))
      with true by (destruct Ht2 as [-> | ->]; reflexivity).
    rewrite le_uint_le_uint32, Z.mod_small by assumption.
    split; [reflexivity|].
    rewrite !lastWrite_reads, Hp by discriminate. exact Hh.
Qed.

End Facts.

Lemma liteRegisters_ReportsLite : ReportsLite liteRegisters.
Proof.
  intros h Hh. unfold liteRegisters. rewrite registers_unwritten by exact Hh.
  left. reflexivity.
Qed.

(** X9. On a ChipWhisperer-Lite or CW1200 whose registers keep what is
    written, [SetPreTriggerSamples n] stores [n] itself, and
    [PreTriggerSamples] then returns [3 * n] in 32 bits: the value read back
    is the value set only for 0 and 2^31.  The statement
    [c.SetPreTriggerSamples(c.PreTriggerSamples())] of [refreshParams]
    therefore triples the content of the register. *)
Theorem presamples_read_back_tripled (d : Device) (c : Adc) (h : History) (n : Z) :
  RegisterFile d -> ReportsLite d -> err c = None ->
  lastWrite addrVersions h = None -> 0 <= n < 2 ^ 32 ->
  exists h1 h2 h3,
    SetPreTriggerSamples d n (c, h) = (tt, (c, h1)) /\
    lastWrite addrPresamples h1 = Some (le_uint32 n) /\
    PreTriggerSamples d (c, h1) = (uint32 (n * 3), (c, h2)) /\
    (uint32 (n * 3) = n <-> n = 0 \/ n = 2 ^ 31) /\
    (v <- PreTriggerSamples d ;; SetPreTriggerSamples d v) (c, h1) = (tt, (c, h3)) /\
    lastWrite addrPresamples h3 = Some (le_uint32 (uint32 (n * 3))).
Proof.
  intros Hd Hlite Hc Hh Hn.
  destruct (SetPreTriggerSamples_PreTriggerSamples d Hd Hlite c h n Hc Hh Hn)
    as (h1 & h2 & Hset & Hreg & Hv1 & Hget & Hv2).
  assert (Hr : 0 <= uint32 (n * 3) < 2 ^ 32) by (apply Z.mod_pos_bound; lia).
  destruct (SetPreTriggerSamples_PreTriggerSamples d Hd Hlite c h2 _ Hc Hv2 Hr)
    as (h3 & _ & Hset3 & Hreg3 & _).
  exists h1, h2, h3. repeat split; try assumption.
  - intro H. unfold uint32 in H.
    pose proof (Z.div_mod (n * 3) (2 ^ 32) ltac:(lia)) as E. rewrite H in E. lia.
  - intros [-> | ->]; reflexivity.
  - step. now rewrite Hget.
Qed.

Lemma presamples_read_back_tripled_witness :
  exists h1 h2 h3,
    SetPreTriggerSamples liteRegisters 100 (freshAdc, []) = (tt, (freshAdc, h1)) /\
    lastWrite addrPresamples h1 = Some (le_uint32 100) /\
    PreTriggerSamples liteRegisters (freshAdc, h1) = (uint32 (100 * 3), (freshAdc, h2)) /\
    (uint32 (100 * 3) = 100 <-> 100 = 0 \/ 100 = 2 ^ 31) /\
    (v <- PreTriggerSamples liteRegisters ;; SetPreTriggerSamples liteRegisters v)
      (freshAdc, h1) = (tt, (freshAdc, h3)) /\
    lastWrite addrPresamples h3 = Some (le_uint32 (uint32 (100 * 3))).
Proof.
  apply (presamples_read_back_tripled liteRegisters freshAdc [] 100
           (registers_RegisterFile _) liteRegisters_ReportsLite eq_refl eq_refl).
  lia.
Defined.

End PresamplesFacts.

(** ** Divisions *)

Module DivisionFacts.
Import Memory Adc AdcTypes AdcRegisters Registers RegisterFacts.

Section Facts.
Context (d : Device).

Lemma at_range (buf : list byte) (i : nat) : 0 <= at_ buf i <= 255.
Proof. unfold at_. pose proof (byte_to_Z_range (nth i buf Byte.x00)). lia. Qed.

Lemma advClock_Div (s : Adc * History) : 0 <= Div (fst (advClock d s)) <= 255.
Proof.
  unfold advClock, Error, memRead, mem, setErr. step. cbn [fst snd].
  destruct (err (fst s)); [cbn; lia|].
  destruct (Memory.Read d addrAdvClk 4 (snd s)) as [[e|buf] h']; cbn; [lia|].
  apply at_range.
Qed.

Lemma clkGenDivLoop_positive (left : nat) (s : Adc * History) :
  1 <= fst (clkGenDivLoop d left s) <= 256.
Proof.
  revert s. induction left as [|left IH]; intro s.
  - cbn. lia.
  - cbn [clkGenDivLoop]. step.
    pose proof (advClock_Div s) as Hdiv.
    destruct (advClock d s) as [settings s1]. cbn [fst] in Hdiv.
    destruct (0 <? Z.land (ClkGenFlags settings) 2).
    + cbn. lia.
    + destruct (reloadClkGen d s1) as [[] s2]. apply IH.
Qed.

Lemma clkGenDiv_positive (s : Adc * History) : 1 <= fst (clkGenDiv d s) <= 256.
Proof.
  unfold clkGenDiv, Error. step. cbn [fst snd].
  destruct (err (fst s)); [cbn; lia|]. apply clkGenDivLoop_positive.
Qed.

End Facts.

(** X10. [clkGenDiv] returns a divider from 1 to 256 in every state and
    whatever the device answers (also when a transfer fails, and when the
    register never shows the flag the function waits for), so that the
    division of [ClkGenOutputFreq] never panics. *)
Theorem ClkGenOutputFreq_never_divides_by_zero (d : Device) (s : Adc * History) :
  1 <= fst (clkGenDiv d s) <= 256 /\
  exists freq, fst (ClkGenOutputFreq d s) = Some freq.
Proof.
  split; [apply clkGenDiv_positive|].
  unfold ClkGenOutputFreq, Error. step. cbn [fst snd].
  destruct (err (fst s)); [now exists 0|].
  destruct (clkGenInputFreq d s) as [inpFreq s1].
  destruct (clkGenMul d s1) as [mul s2].
  pose proof (clkGenDiv_positive d s2) as Hdiv.
  destruct (clkGenDiv d s2) as [div s3]. cbn [fst] in *.
  unfold divide. replace (div =? 0) with false by (symmetry; apply Z.eqb_neq; lia).
  eexists. reflexivity.
Qed.

(** X11. [AdcSampleRate] panics with a division by zero exactly when, on a
    clear error, the read of the decimation register fails or returns
    0xFFFF: [decimate] then returns 0, where the other getters would return
    0 and leave the error to the caller. *)
Theorem AdcSampleRate_divides_by_decimation (d : Device) (c : Adc) (h : History) :
  err c = None ->
  (fst (AdcSampleRate d (c, h)) = None <->
   (exists e, fst (Memory.Read d addrDecimate 2 h) = inl e) \/
   (exists buf, fst (Memory.Read d addrDecimate 2 h) = inr buf /\ le_uint buf = 65535)).
Proof.
  intro Hc. unfold AdcSampleRate, decimate, Error, memRead, mem, setErr.
  repeat (progress (step; cbn [fst snd]; rewrite ?Hc; cbv beta iota)).
  pose proof (fun h' buf => MemoryFacts.Read_length d addrDecimate 2 h h' buf) as Hlen.
  destruct (Memory.Read d addrDecimate 2 h) as [[e|buf] h1]; cbn [fst snd].
  - match goal with |- context [AdcFreq d ?s] => destruct (AdcFreq d s) as [f s2] end.
    cbn. split; [intros _; left; now exists e|reflexivity].
  - specialize (Hlen h1 buf eq_refl).
    destruct buf as [|b0 [|b1 [|? ?]]]; try discriminate Hlen.
    match goal with |- context [AdcFreq d ?s] => destruct (AdcFreq d s) as [f s2] end.
    cbn [fst]. unfold divide.
    assert (Hle : 0 <= le_uint [b0; b1] < 65536).
    { unfold le_uint. cbn [fold_right].
      pose proof (byte_to_Z_range b0). pose proof (byte_to_Z_range b1). lia. }
    assert (Hu : uint32 (uint16 (le_uint [b0; b1] + 1)) =
                 if le_uint [b0; b1] =? 65535 then 0 else le_uint [b0; b1] + 1).
    { unfold uint32, uint16. destruct (le_uint [b0; b1] =? 65535) eqn:E.
      - apply Z.eqb_eq in E. now rewrite E.
      - apply Z.eqb_neq in E.
        rewrite (Z.mod_small (le_uint [b0; b1] + 1) (2 ^ 16)) by lia.
        apply Z.mod_small. lia. }
    rewrite Hu. destruct (le_uint [b0; b1] =? 65535) eqn:E.
    + apply Z.eqb_eq in E. cbn. split; [intros _; right; now exists [b0; b1]|reflexivity].
    + apply Z.eqb_neq in E.
      replace (le_uint [b0; b1] + 1 =? 0) with false by (symmetry; apply Z.eqb_neq; lia).
      split; [discriminate|]. intros [[e He]|[buf [[= <-] Hb]]]; [discriminate|contradiction].
Qed.

Lemma AdcSampleRate_divides_by_decimation_witness :
  fst (AdcSampleRate (scripted [inl (Errorf "unplugged" [])]) (freshAdc, [])) = None.
Proof.
  apply (AdcSampleRate_divides_by_decimation
           (scripted [inl (Errorf "unplugged" [])]) freshAdc [] eq_refl).
  left. eexists. reflexivity.
Defined.

End DivisionFacts.

(** ** The serial port *)

Module UsartFacts.
Import Usart.

Lemma firstn_plus {X} (a b : nat) (l : list X) :
  firstn (a + b) l = firstn a l ++ firstn b (skipn a l).
Proof.
  revert l. induction a as [|a IH]; intro l; [reflexivity|].
  destruct l as [|x l]; [now rewrite !firstn_nil|].
  cbn. now rewrite IH.
Qed.

Lemma skipn_plus {X} (a b : nat) (l : list X) :
  skipn (a + b) l = skipn b (skipn a l).
Proof.
  revert l. induction a as [|a IH]; intro l; [reflexivity|].
  destruct l as [|x l]; [now rewrite !skipn_nil|]. cbn. apply IH.
Qed.

Section Facts.
Context (d : Device) (p : list byte).

Let L := Z.of_nat (length p).
Let out := ControlOutCall ReqUsart0Data 0.

Lemma dataWrite_records (data : list byte) (h : History) :
  snd (dataWrite d data h) = h ++ [out data].
Proof.
  unfold dataWrite, ControlOut.
  destruct (control_out d h ReqUsart0Data 0 data) as [n [e|]]; [reflexivity|].
  now destruct (n =? _).
Qed.

Lemma sub_length (n t : Z) :
  0 <= n -> 0 <= t -> n + t <= L -> length (sub p n (n + t)) = Z.to_nat t.
Proof.
  intros Hn Ht Hl. unfold sub. rewrite length_firstn, length_skipn.
  replace (n + t - n) with t by lia. subst L. lia.
Qed.

Lemma removelast_cons {X} (x : X) (l : list X) :
  l <> [] -> removelast (x :: l) = x :: removelast l.
Proof. now destruct l. Qed.

Lemma last_cons {X} (x : X) (l : list X) (dflt : X) :
  l <> [] -> last (x :: l) dflt = last l dflt.
Proof. now destruct l. Qed.

Lemma writeLoop_chunks (fuel : nat) :
  forall n h, 0 <= n <= L -> L - n <= Z.of_nat fuel ->
  exists m e chunks,
    writeLoop d fuel p n h = (Some (m, e), h ++ map out chunks) /\
    Forall (fun c => (1 <= length c <= 58)%nat) chunks /\
    (forall i, (S i < length chunks)%nat -> length (nth i chunks []) = 58%nat) /\
    (n = L -> chunks = []) /\
    (forall i, (S i < length chunks)%nat ->
       fst (dataWrite d (nth i chunks []) (h ++ map out (firstn i chunks))) = None) /\
    match e with
    | None =>
        m = L /\ concat chunks = skipn (Z.to_nat n) p /\
        (chunks <> [] ->
         fst (dataWrite d (last chunks []) (h ++ map out (removelast chunks))) = None)
    | Some err =>
        chunks <> [] /\
        (exists cause,
           fst (dataWrite d (last chunks []) (h ++ map out (removelast chunks))) = Some cause /\
           err = Wrapf "dataWrite failed: %v" cause) /\
        m = n + 58 * (Z.of_nat (length chunks) - 1) /\ m < L /\
        concat chunks = sub p n (m + Z.of_nat (length (last chunks [])))
    end.
Proof.
  induction fuel as [|fuel IH]; intros n h Hn Hfuel.
  - assert (n = L) by lia. subst n. cbn [writeLoop]. fold L. rewrite Z.ltb_irrefl.
    exists L, None, []. cbn [map concat]. rewrite app_nil_r.
    repeat split; auto.
    + intros i Hi. cbn in Hi. lia.
    + intros i Hi. cbn in Hi. lia.
    + subst L. rewrite Nat2Z.id. now rewrite skipn_all.
    + intro Hne. now destruct Hne.
  - cbn [writeLoop]. fold L. destruct (n <? L) eqn:Hlt.
    2:{ apply Z.ltb_ge in Hlt. assert (n = L) by lia. subst n.
        exists L, None, []. cbn [map concat]. rewrite app_nil_r.
        repeat split; auto.
        - intros i Hi. cbn in Hi. lia.
        - intros i Hi. cbn in Hi. lia.
        - subst L. rewrite Nat2Z.id. now rewrite skipn_all.
        - intro Hne. now destruct Hne. }
    apply Z.ltb_lt in Hlt. cbv zeta.
    set (t := if 58 <? L - n then 58 else L - n).
    assert (Ht : 1 <= t <= 58 /\ n + t <= L /\ (t < 58 -> n + t = L)).
    { subst t. destruct (58 <? L - n) eqn:E; [apply Z.ltb_lt in E|apply Z.ltb_ge in E]; lia. }
    destruct Ht as (Ht & Htl & Hlast).
    pose proof (sub_length n t ltac:(lia) ltac:(lia) Htl) as Hlen.
    step. pose proof (dataWrite_records (sub p n (n + t)) h) as Hrec.
    destruct (dataWrite d (sub p n (n + t)) h) as [[e|] h1] eqn:Hw; cbn [snd] in Hrec; subst h1.
    + exists n, (Some (Wrapf "dataWrite failed: %v" e)), [sub p n (n + t)].
      cbn [map length last removelast app]. rewrite app_nil_r, Hw.
      repeat split; auto.
      * constructor; [lia|constructor].
      * intros i Hi. cbn in Hi. lia.
      * intro. lia.
      * intros i Hi. cbn in Hi. lia.
      * discriminate.
      * now exists e.
      * lia.
      * cbn [concat]. rewrite app_nil_r. do 2 f_equal. lia.
    + destruct (IH (n + t) (h ++ [out (sub p n (n + t))]) ltac:(lia) ltac:(lia))
        as (m & e & chunks & Hrun & Hall & Hfull & Hempty & Hok & Hres).
      exists m, e, (sub p n (n + t) :: chunks). rewrite Hrun.
      cbn [map]. rewrite <- app_assoc. cbn [app].
      split; [reflexivity|]. split; [constructor; [lia|assumption]|].
      split; [|split; [intro; lia|]]; [|split].
      * intros [|i] Hi; cbn [nth].
        -- destruct (Z.eq_dec t 58) as [->|Hne]; [rewrite Hlen; reflexivity|].
           rewrite Hempty in Hi by lia. cbn in Hi. lia.
        -- apply Hfull. cbn [length] in Hi. lia.
      * intros [|i] Hi; cbn [nth firstn map].
        -- now rewrite app_nil_r, Hw.
        -- replace (h ++ out (sub p n (n + t)) :: map out (firstn i chunks))
             with ((h ++ [out (sub p n (n + t))]) ++ map out (firstn i chunks))
             by now rewrite <- app_assoc.
           apply Hok. cbn [length] in Hi. lia.
      * assert (Hshift : chunks <> [] ->
          h ++ map out (removelast (sub p n (n + t) :: chunks)) =
          (h ++ [out (sub p n (n + t))]) ++ map out (removelast chunks)).
        { intro Hne. rewrite removelast_cons by exact Hne. cbn [map].
          now rewrite <- app_assoc. }
        destruct e as [e|].
        -- destruct Hres as (Hne & (cause & Hcause & Herr) & Hm & HmL & Hcat).
           assert (Ht58 : t = 58).
           { destruct (Z.eq_dec t 58); [assumption|]. exfalso. apply Hne, Hempty. lia. }
           assert (Hlc : 1 <= Z.of_nat (length chunks))
             by (destruct chunks; [contradiction|cbn [length]; lia]).
           split; [discriminate|]. split; [|split; [|split; [assumption|]]].
           ++ exists cause. rewrite last_cons, Hshift by exact Hne. now split.
           ++ cbn [length]. lia.
           ++ cbn [concat]. rewrite Hcat.
              rewrite last_cons by exact Hne.
              set (k := m + Z.of_nat (length (last chunks []))).
              unfold sub.
              replace (Z.to_nat (n + t - n)) with (Z.to_nat t) by lia.
              replace (Z.to_nat (k - n)) with (Z.to_nat t + Z.to_nat (k - (n + t)))%nat
                by (subst k; lia).
              rewrite firstn_plus. f_equal. f_equal.
              replace (Z.to_nat (n + t)) with (Z.to_nat n + Z.to_nat t)%nat by lia.
              apply skipn_plus.
        -- destruct Hres as (Hm & Hcat & Hlastok). split; [assumption|]. split.
           ++ cbn [concat]. rewrite Hcat. unfold sub.
              replace (Z.to_nat (n + t - n)) with (Z.to_nat t) by lia.
              replace (Z.to_nat (n + t)) with (Z.to_nat n + Z.to_nat t)%nat by lia.
              rewrite skipn_plus. apply firstn_skipn.
           ++ intros _. destruct chunks as [|c chunks'].
              ** cbn [last removelast map]. now rewrite app_nil_r, Hw.
              ** rewrite last_cons, Hshift by discriminate. apply Hlastok. discriminate.
Qed.

End Facts.

(** X12. [Usart.Write] sends [p] in order in control transfers of at most 58
    bytes, all full but the last, and it terminates: [length p] iterations
    suffice.  Every transfer but the last one made was accepted by the
    device.  [Write] returns [(len(p), nil)] exactly when the last one was
    accepted too, and then the payloads sent are [p] when put end to end; so
    it does on a device that accepts every transfer.  It returns an error
    exactly when the last transfer made was refused: it stops there, wraps
    the cause in [dataWrite failed], and the count it returns is that of the
    bytes of the chunks before the refused one, 58 for each. *)
Theorem Write_sends_chunks (d : Device) (p : list byte) (fuel : nat) (h : History) :
  (length p <= fuel)%nat ->
  exists n e chunks,
    Write d fuel p h = (Some (n, e), h ++ map (ControlOutCall ReqUsart0Data 0) chunks) /\
    Forall (fun c => (1 <= length c <= 58)%nat) chunks /\
    (forall i, (S i < length chunks)%nat -> length (nth i chunks []) = 58%nat) /\
    (forall i, (S i < length chunks)%nat ->
       fst (dataWrite d (nth i chunks [])
              (h ++ map (ControlOutCall ReqUsart0Data 0) (firstn i chunks))) = None) /\
    ((forall data h1, fst (dataWrite d data h1) = None) -> e = None) /\
    match e with
    | None =>
        n = Z.of_nat (length p) /\ concat chunks = p /\
        (chunks <> [] ->
         fst (dataWrite d (last chunks [])
                (h ++ map (ControlOutCall ReqUsart0Data 0) (removelast chunks))) = None)
    | Some err =>
        chunks <> [] /\
        (exists cause,
           fst (dataWrite d (last chunks [])
                  (h ++ map (ControlOutCall ReqUsart0Data 0) (removelast chunks))) = Some cause /\
           err = Wrapf "dataWrite failed: %v" cause) /\
        n = 58 * (Z.of_nat (length chunks) - 1) /\ n < Z.of_nat (length p) /\
        concat chunks = firstn (Z.to_nat n + length (last chunks [])) p
    end.
Proof.
  intro Hfuel.
  destruct (writeLoop_chunks d p fuel 0 h ltac:(lia) ltac:(lia))
    as (n & e & chunks & Hrun & Hall & Hfull & _ & Hok & Hres).
  exists n, e, chunks. split; [exact Hrun|]. split; [exact Hall|]. split; [exact Hfull|].
  split; [exact Hok|]. split.
  { intro Haccept. destruct e as [err|]; [|reflexivity].
    destruct Hres as (_ & (cause & Hcause & _) & _). now rewrite Haccept in Hcause. }
  destruct e as [e|].
  - destruct Hres as (Hne & Hcause & Hn & HnL & Hcat).
    assert (Hlc : 1 <= Z.of_nat (length chunks))
      by (destruct chunks; [contradiction|cbn [length]; lia]).
    repeat split; try assumption; try lia.
    rewrite Hcat. unfold sub. cbn [skipn Z.to_nat]. f_equal. lia.
  - destruct Hres as (Hn & Hcat & Hlast). repeat split; assumption.
Qed.

(** A device that refuses the second transfer made to it. *)
Lemma Write_sends_chunks_witness :
  Write (scripted [inr []; inl (Errorf "stall" [])]) 60 (repeat Byte.x55 60) [] =
    (Some (58, Some (Wrapf "dataWrite failed: %v"
                       (Wrapf "dev.Control failed %v" (Errorf "stall" [])))),
     map (ControlOutCall ReqUsart0Data 0) [repeat Byte.x55 58; repeat Byte.x55 2]) /\
  Write zeroDevice 60 (repeat Byte.x55 60) [] =
    (Some (60, None),
     map (ControlOutCall ReqUsart0Data 0) [repeat Byte.x55 58; repeat Byte.x55 2]) /\
  exists n e chunks,
    Write zeroDevice 60 (repeat Byte.x55 60) [] =
      (Some (n, e), [] ++ map (ControlOutCall ReqUsart0Data 0) chunks) /\
    e = None /\ concat chunks = repeat Byte.x55 60.
Proof.
  split; [reflexivity|]. split; [reflexivity|].
  destruct (Write_sends_chunks zeroDevice (repeat Byte.x55 60) 60 [])
    as (n & e & chunks & Hrun & _ & _ & _ & Haccept & Hres); [cbn; lia|].
  exists n, e, chunks. split; [exact Hrun|].
  assert (He : e = None).
  { apply Haccept. intros data h1. unfold dataWrite, ControlOut.
    cbn [zeroDevice control_out]. now rewrite Z.eqb_refl. }
  split; [exact He|]. subst e. now destruct Hres as (_ & Hcat & _).
Defined.

Lemma Flush_nil (d : Device) (fuel : nat) :
  forall h h', Flush d fuel h = (Some None, h') ->
  exists h0, h' = h0 ++ [ControlInCall ReqUsart0Config cmdNumWait 4] /\
             inWaiting d h0 = (inr 0, h').
Proof.
  induction fuel as [|fuel IH]; intros h h' H; [discriminate|].
  cbn [Flush] in H. unfold bind in H.
  destruct (inWaiting d h) as [[e|toRead] h1] eqn:Hw; [discriminate|].
  destruct (toRead =? 0) eqn:E.
  - apply Z.eqb_eq in E. subst toRead. injection H as <-. exists h. split; [|exact Hw].
    unfold inWaiting, configRead, ControlIn, bind in Hw.
    destruct (control_in d h ReqUsart0Config cmdNumWait 4) as [buf [e|]];
      [discriminate|]. destruct (Nat.eqb _ _); [|discriminate]. now injection Hw as _ <-.
  - destruct (dataRead d (Z.to_nat toRead) h1) as [[e|buf] h2]; [discriminate|].
    now apply (IH h2).
Qed.

(** X13. [Usart.Flush] returns nil only right after a poll that reported no
    waiting byte.  It has no bound on the number of rounds: when every poll
    reports waiting bytes and every read delivers them, the loop is still
    running after any number of iterations, each of which polled once and
    read once. *)
Theorem Flush_runs_until_empty (d : Device) (fuel : nat) (h : History) :
  (forall h', Flush d fuel h = (Some None, h') ->
     exists h0, h' = h0 ++ [ControlInCall ReqUsart0Config cmdNumWait 4] /\
                inWaiting d h0 = (inr 0, h')) /\
  ((forall h1, exists n, fst (inWaiting d h1) = inr n /\ n <> 0) ->
   (forall size h1, exists buf, fst (dataRead d size h1) = inr buf) ->
   fst (Flush d fuel h) = None /\
   length (snd (Flush d fuel h)) = (length h + 2 * fuel)%nat).
Proof.
  split; [apply Flush_nil|]. intros Hbusy Hread.
  revert h. induction fuel as [|fuel IH]; intro h.
  - cbn. split; [reflexivity|lia].
  - cbn [Flush]. unfold bind.
    destruct (Hbusy h) as (n & Hn & Hn0).
    assert (Hh1 : snd (inWaiting d h) = h ++ [ControlInCall ReqUsart0Config cmdNumWait 4]).
    { unfold inWaiting, configRead, ControlIn, bind.
      destruct (control_in d h ReqUsart0Config cmdNumWait 4) as [buf [e|]]; [reflexivity|].
      now destruct (Nat.eqb _ _). }
    destruct (inWaiting d h) as [r h1]. cbn [fst snd] in Hn, Hh1. subst r h1.
    replace (n =? 0) with false by (symmetry; now apply Z.eqb_neq).
    match goal with |- context [dataRead d ?s ?hh] =>
      destruct (Hread s hh) as (buf & Hbuf);
      assert (Hh2 : snd (dataRead d s hh) = hh ++ [ControlInCall ReqUsart0Data 0 s])
    end.
    { unfold dataRead, ControlIn.
      match goal with |- context [control_in d ?a ?b ?c ?e] =>
        destruct (control_in d a b c e) as [buf' [e'|]]; [reflexivity|] end.
      now destruct (Nat.eqb _ _). }
    match goal with |- context [dataRead d ?s ?hh] =>
      destruct (dataRead d s hh) as [r h2] end.
    cbn [fst snd] in Hbuf, Hh2. subst r h2.
    destruct (IH ((h ++ [ControlInCall ReqUsart0Config cmdNumWait 4]) ++
                  [ControlInCall ReqUsart0Data 0 (Z.to_nat n)])) as (Hnone & Hlen).
    split; [exact Hnone|]. rewrite Hlen, !length_app. cbn [length]. lia.
Qed.

Lemma Flush_runs_until_empty_witness :
  fst (Flush chattyDevice 7 []) = None /\
  length (snd (Flush chattyDevice 7 [])) = 14%nat.
Proof.
  refine (proj2 (Flush_runs_until_empty chattyDevice 7 []) _ _).
  - intro h1. exists 1. split; [reflexivity|discriminate].
  - intros size h1. exists (repeat Byte.x00 size).
    unfold dataRead, ControlIn. cbn [chattyDevice control_in].
    change (ReqUsart0Data =? ReqUsart0Config) with false. cbv iota.
    now rewrite repeat_length, Nat.eqb_refl.
Defined.

Lemma ControlIn_length (d : Device) req val size (h h' : History) (buf : list byte) :
  ControlIn d req val size h = (inr buf, h') -> length buf = size.
Proof.
  unfold ControlIn. destruct (control_in d h req val size) as [b [e|]]; [discriminate|].
  destruct (Nat.eqb (length b) size) eqn:E; [|discriminate].
  intros [= <- _]. now apply Nat.eqb_eq.
Qed.

Lemma inWaiting_range (d : Device) (h h' : History) (t : Z) :
  inWaiting d h = (inr t, h') -> 0 <= t < 2 ^ 32.
Proof.
  unfold inWaiting, configRead, bind.
  destruct (ControlIn d ReqUsart0Config cmdNumWait 4 h) as [[e|buf] h1] eqn:E;
    [discriminate|].
  apply ControlIn_length in E. intros [= <- _].
  destruct buf as [|b0 [|b1 [|b2 [|b3 [|? ?]]]]]; try discriminate E.
  assert (H : 0 <= le_uint [b0; b1; b2; b3] < 2 ^ 32).
  { unfold le_uint. cbn [fold_right].
    pose proof (RegisterFacts.byte_to_Z_range b0). pose proof (RegisterFacts.byte_to_Z_range b1).
    pose proof (RegisterFacts.byte_to_Z_range b2). pose proof (RegisterFacts.byte_to_Z_range b3).
    lia. }
  unfold int. rewrite Z.mod_small by lia. lia.
Qed.

Lemma inWaiting_history (d : Device) (h : History) :
  snd (inWaiting d h) = h ++ [pollCall].
Proof.
  unfold inWaiting, configRead, ControlIn, bind.
  destruct (control_in d h ReqUsart0Config cmdNumWait 4) as [buf [e|]]; [reflexivity|].
  now destruct (Nat.eqb _ _).
Qed.

Lemma dataRead_history (d : Device) (k : nat) (h : History) :
  snd (dataRead d k h) = h ++ [ControlInCall ReqUsart0Data 0 k].
Proof.
  unfold dataRead, ControlIn.
  destruct (control_in d h ReqUsart0Data 0 k) as [buf [e|]]; [reflexivity|].
  now destruct (Nat.eqb _ _).
Qed.

(** The calls of [Usart.Read]: polls, delays of a millisecond, and data
    reads that ask for one byte at least. *)
Definition readCall (c : Call) : Prop :=
  c = pollCall \/ c = SleepCall 1 \/
  exists k, (1 <= k)%nat /\ c = ControlInCall ReqUsart0Data 0 k.

Lemma dataAsked_nonneg (calls : list Call) : 0 <= dataAsked calls.
Proof.
  induction calls as [|c calls IH]; cbn [dataAsked]; [lia|].
  assert (0 <= asked c); [|lia].
  destruct c as [req v k| | | |]; cbn [asked]; try lia.
  destruct (req =? ReqUsart0Data); lia.
Qed.

Lemma dataAsked_none (calls : list Call) :
  Forall readCall calls -> dataAsked calls <= 0 ->
  Forall (fun c => isDataRead c = false) calls.
Proof.
  induction 1 as [|c calls Hc _ IH]; intro Hle; [constructor|].
  cbn [dataAsked] in Hle. pose proof (dataAsked_nonneg calls) as Hnn.
  destruct Hc as [->|[->|(k & Hk & ->)]].
  - constructor; [reflexivity|]. apply IH. exact Hle.
  - constructor; [reflexivity|]. apply IH. exact Hle.
  - exfalso. cbn [asked] in Hle.
    change (ReqUsart0Data =? ReqUsart0Data) with true in Hle. cbv iota in Hle. lia.
Qed.

Lemma readLoop_result (d : Device) (size : Z) (timer : list bool) :
  forall n got h m got' e h',
  0 <= n <= size -> Z.of_nat (length got) = n -> (n = size -> n = 0) ->
  readLoop d timer size n got h = (Some (m, got', e), h') ->
  exists calls,
    h' = h ++ calls /\ Forall readCall calls /\
    0 <= m <= size /\ Z.of_nat (length got') = m /\
    m <= n + dataAsked calls <= size /\
    match e with
    | None => n + dataAsked calls = m /\ (In true timer \/ (m = size /\ 0 < size))
    | Some err =>
        (exists before cause,
           calls = before ++ [pollCall] /\
           fst (inWaiting d (h ++ before)) = inl cause /\
           err = Wrapf "inWaiting failed: %v" cause /\
           n + dataAsked calls = m) \/
        (exists before k cause,
           calls = before ++ [ControlInCall ReqUsart0Data 0 k] /\
           fst (dataRead d k (h ++ before)) = inl cause /\
           err = Wrapf "dataRead failed: %v" cause /\
           n + dataAsked calls = m + Z.of_nat k)
    end.
Proof.
  induction timer as [|fired timer IH]; intros n got h m got' e h' Hn Hlen Hfull H;
    [discriminate|].
  cbn [readLoop] in H. destruct fired.
  - injection H as <- <- <- <-. exists []. rewrite app_nil_r. cbn [dataAsked].
    repeat split; try lia; [constructor|]. left. now left.
  - unfold bind in H. pose proof (inWaiting_history d h) as Hh1.
    destruct (inWaiting d h) as [[e0|t] h1] eqn:Hw; cbn [snd] in Hh1; subst h1.
    + injection H as <- <- <- <-. exists [pollCall].
      change (dataAsked [pollCall]) with 0.
      repeat split; try lia; [repeat constructor|].
      left. exists [], e0. rewrite app_nil_r, Hw. repeat split. lia.
    + apply inWaiting_range in Hw. cbv zeta in H.
      set (toRead := if size <? n + t then size - n else t) in H.
      assert (Ht : 0 <= toRead <= size - n).
      { subst toRead. destruct (size <? n + t) eqn:E;
          [apply Z.ltb_lt in E|apply Z.ltb_ge in E]; lia. }
      destruct (toRead =? 0) eqn:E0.
      * unfold Sleep, record in H.
        destruct (IH n got _ m got' e h' Hn Hlen Hfull H)
          as (calls & -> & Hcalls & Hm & Hgot & Hasked & He).
        exists (pollCall :: SleepCall 1 :: calls).
        assert (Hd : dataAsked (pollCall :: SleepCall 1 :: calls) = dataAsked calls)
          by reflexivity.
        rewrite Hd. rewrite <- !app_assoc. cbn [app].
        repeat split; try assumption; try lia.
        { constructor; [now left|]. constructor; [right; now left|exact Hcalls]. }
        destruct e as [err|].
        -- destruct He as [(before & cause & -> & Hc & -> & Hs)
                          |(before & k & cause & -> & Hc & -> & Hs)].
           ++ left. exists (pollCall :: SleepCall 1 :: before), cause.
              rewrite <- !app_assoc in Hc. cbn [app] in *. repeat split; assumption.
           ++ right. exists (pollCall :: SleepCall 1 :: before), k, cause.
              rewrite <- !app_assoc in Hc. cbn [app] in *. repeat split; assumption.
        -- destruct He as (Hs & Hor). split; [exact Hs|].
           destruct Hor as [Hin|Hfilled]; [left; now right|now right].
      * apply Z.eqb_neq in E0.
        pose proof (dataRead_history d (Z.to_nat toRead) (h ++ [pollCall])) as Hh2.
        assert (Hd : forall calls,
                  dataAsked (pollCall :: ControlInCall ReqUsart0Data 0 (Z.to_nat toRead) :: calls)
                  = toRead + dataAsked calls).
        { intro calls. cbn [dataAsked asked pollCall].
          change (ReqUsart0Config =? ReqUsart0Data) with false.
          change (ReqUsart0Data =? ReqUsart0Data) with true. cbv iota. lia. }
        assert (Hcall : readCall (ControlInCall ReqUsart0Data 0 (Z.to_nat toRead))).
        { right. right. exists (Z.to_nat toRead). split; [lia|reflexivity]. }
        destruct (dataRead d (Z.to_nat toRead) (h ++ [pollCall])) as [[e1|buf] h2] eqn:Hr;
          cbn [snd] in Hh2; subst h2.
        -- injection H as <- <- <- <-.
           exists [pollCall; ControlInCall ReqUsart0Data 0 (Z.to_nat toRead)].
           rewrite Hd. cbn [dataAsked]. rewrite <- app_assoc. cbn [app].
           repeat split; try lia.
           { constructor; [now left|]. constructor; [exact Hcall|constructor]. }
           right. exists [pollCall], (Z.to_nat toRead), e1. rewrite Hr.
           repeat split. lia.
        -- apply ControlIn_length in Hr.
           assert (Hlen' : Z.of_nat (length (got ++ buf)) = n + toRead)
             by (rewrite length_app, Hr; lia).
           destruct (n + toRead =? size) eqn:Es.
           ++ apply Z.eqb_eq in Es. injection H as <- <- <- <-.
              exists [pollCall; ControlInCall ReqUsart0Data 0 (Z.to_nat toRead)].
              rewrite Hd. cbn [dataAsked]. rewrite <- app_assoc. cbn [app].
              repeat split; try lia.
              constructor; [now left|]. constructor; [exact Hcall|constructor].
           ++ apply Z.eqb_neq in Es.
              destruct (IH (n + toRead) (got ++ buf) _ m got' e h' ltac:(lia) Hlen' ltac:(lia) H)
                as (calls & -> & Hcalls & Hm & Hgot & Hasked & He).
              exists (pollCall :: ControlInCall ReqUsart0Data 0 (Z.to_nat toRead) :: calls).
              rewrite Hd. rewrite <- !app_assoc. cbn [app].
              repeat split; try assumption; try lia.
              { constructor; [now left|]. constructor; [exact Hcall|exact Hcalls]. }
              destruct e as [err|].
              ** set (front := [pollCall; ControlInCall ReqUsart0Data 0 (Z.to_nat toRead)]).
                 destruct He as [(before & cause & -> & Hc & -> & Hs)
                                |(before & k & cause & -> & Hc & -> & Hs)].
                 --- left. exists (front ++ before), cause.
                     rewrite <- !app_assoc in Hc. cbn [app] in *.
                     repeat split; try assumption. lia.
                 --- right. exists (front ++ before), k, cause.
                     rewrite <- !app_assoc in Hc. cbn [app] in *.
                     repeat split; try assumption. lia.
              ** destruct He as (Hs & Hor). split; [lia|].
                 destruct Hor as [Hin|Hfilled]; [left; now right|now right].
Qed.

Lemma readLoop_returns (d : Device) (size : Z) (timer : list bool) :
  forall n got h, In true timer -> fst (readLoop d timer size n got h) <> None.
Proof.
  induction timer as [|fired timer IH]; intros n got h Hin; [contradiction|].
  cbn [readLoop]. destruct fired; [discriminate|].
  destruct Hin as [Hin|Hin]; [discriminate|].
  unfold bind. destruct (inWaiting d h) as [[e|t] h1]; [discriminate|]. cbv zeta.
  destruct (_ =? 0).
  - unfold Sleep, record. now apply IH.
  - destruct (dataRead d _ h1) as [[e|buf] h2]; [discriminate|].
    destruct (_ =? size); [discriminate|]. now apply IH.
Qed.

(** X19. [Usart.Read] returns at the latest when the timer fires.  Its calls
    are polls for the number of waiting bytes, delays of a millisecond and
    data reads; each data read asks for one byte at least and the reads
    together for no more than the buffer holds, so that with an empty buffer
    no data read is made.  The count returned is the number of bytes that
    the data reads that succeeded asked for and placed.  [Read] returns
    without error in two cases only: at the time-out, with whatever has
    arrived (a short read is not an error), or right after the read that
    fills a buffer that is not empty.  It returns an error in two cases
    only, each right after the call that failed: a poll, whose error it
    wraps in [inWaiting failed], or a data read, whose error it wraps in
    [dataRead failed] and whose bytes it does not count. *)
Theorem Read_short_or_full (d : Device) (timer : list bool) (size : Z) (h : History) :
  0 <= size ->
  (In true timer -> fst (Read d timer size h) <> None) /\
  (forall n got e h',
     Read d timer size h = (Some (n, got, e), h') ->
     exists calls,
       h' = h ++ calls /\ Forall readCall calls /\
       0 <= n <= size /\ Z.of_nat (length got) = n /\
       n <= dataAsked calls <= size /\
       (size = 0 -> Forall (fun c => isDataRead c = false) calls) /\
       match e with
       | None => dataAsked calls = n /\ (In true timer \/ (n = size /\ 0 < size))
       | Some err =>
           (exists before cause,
              calls = before ++ [pollCall] /\
              fst (inWaiting d (h ++ before)) = inl cause /\
              err = Wrapf "inWaiting failed: %v" cause /\
              dataAsked calls = n) \/
           (exists before k cause,
              calls = before ++ [ControlInCall ReqUsart0Data 0 k] /\
              fst (dataRead d k (h ++ before)) = inl cause /\
              err = Wrapf "dataRead failed: %v" cause /\
              dataAsked calls = n + Z.of_nat k)
       end).
Proof.
  intro Hsize. split; [apply readLoop_returns|].
  intros n got e h' H.
  destruct (readLoop_result d size timer 0 [] h n got e h')
    as (calls & Hh & Hcalls & Hn & Hgot & Hasked & He);
    try assumption; try reflexivity; try lia.
  exists calls. rewrite Z.add_0_l in *.
  repeat split; try assumption; try lia.
  intros ->. apply dataAsked_none; [exact Hcalls|lia].
Qed.

(** A target that has one byte waiting at each poll fills a buffer of two
    bytes in two reads; when the time-out fires after the first, the read
    is short and without error; and a link that fails at the second poll
    ends the read with the three bytes of the first. *)
Lemma Read_short_or_full_witness :
  fst (Read chattyDevice [false; false] 2 []) = Some (2, [Byte.x00; Byte.x00], None) /\
  Read chattyDevice [false; true] 2 [] =
    (Some (1, [Byte.x00], None), [pollCall; ControlInCall ReqUsart0Data 0 1]) /\
  Read failingLink [false; false; true] 8 [] =
    (Some (3, [Byte.x61; Byte.x61; Byte.x61],
           Some (Wrapf "inWaiting failed: %v"
                   (Wrapf "cmdNumWait failed: %v"
                      (Wrapf "dev.Control failed %v" (Errorf "stall" []))))),
     [pollCall; ControlInCall ReqUsart0Data 0 3; pollCall]) /\
  exists calls,
    calls = [pollCall; ControlInCall ReqUsart0Data 0 1] /\ dataAsked calls = 1 /\
    fst (Read chattyDevice [false; true] 2 []) <> None.
Proof.
  split; [reflexivity|]. split; [reflexivity|]. split; [reflexivity|].
  destruct (Read_short_or_full chattyDevice [false; true] 2 [] ltac:(lia)) as [Hret Hrun].
  destruct (Hrun 1 [Byte.x00] None [pollCall; ControlInCall ReqUsart0Data 0 1] eq_refl)
    as (calls & Hh & _ & _ & _ & _ & _ & Hd & _).
  cbn [app] in Hh. exists calls. split; [now symmetry|]. split; [exact Hd|].
  apply Hret. right. now left.
Defined.

End UsartFacts.

(** ** The clock generator *)

Module ClkGenFacts.
Import Memory Adc AdcTypes AdcRegisters Registers RegisterFacts.

Lemma fold_left_idle {X Y} (l : list Y) (x : X) : fold_left (fun st _ => st) l x = x.
Proof. induction l as [|y l IH]; [reflexivity|exact IH]. Qed.

(** Below 1 MHz of input the search has no divider to try. *)
Lemma calcClkGenMulDiv_slow_input (freq inpFreq : Z) :
  0 <= inpFreq < 1000000 -> calcClkGenMulDiv freq inpFreq = (0, 0).
Proof.
  intro H. unfold calcClkGenMulDiv.
  assert (Hmax : maxDiv inpFreq <= 1).
  { unfold maxDiv. replace (inpFreq <? 52000000) with true by (symmetry; apply Z.ltb_lt; lia).
    assert (0 <= Z.quot inpFreq 500000 <= 1).
    { rewrite Z.quot_div_nonneg by lia. split; [apply Z.div_pos; lia|].
      apply Z.lt_succ_r. apply Z.div_lt_upper_bound; lia. }
    unfold int. rewrite Z.mod_small by lia. lia. }
  cbv zeta.
  replace (range 1 (maxDiv inpFreq)) with (@nil Z)
    by (unfold range; replace (Z.to_nat (maxDiv inpFreq - 1)) with 0%nat by lia; reflexivity).
  cbn [fold_left]. now rewrite fold_left_idle.
Qed.

(** X14. With a clear error and an input frequency of the clock generator
    below 1 MHz (read without error), [SetClkGenOutputFreq] fails for every
    target frequency with "mul 0 out of range" and writes nothing: the search
    of [calcClkGenMulDiv] has no divider to try and returns (0, 0), which
    [setClkGenMul] refuses. *)
Theorem SetClkGenOutputFreq_slow_input (d : Device) (c c1 : Adc) (h h1 : History)
  (freq inpFreq : Z) :
  err c = None ->
  clkGenInputFreq d (c, h) = (inpFreq, (c1, h1)) -> err c1 = None ->
  0 <= inpFreq < 1000000 ->
  calcClkGenMulDiv freq inpFreq = (0, 0) /\
  SetClkGenOutputFreq d freq (c, h) =
  (tt, (withErr c1 (Some (Errorf "mul %v out of range" [0])), h1)).
Proof.
  intros Hc Hinp Hc1 Hrange.
  pose proof (calcClkGenMulDiv_slow_input freq inpFreq Hrange) as Hcalc.
  split; [exact Hcalc|].
  unfold SetClkGenOutputFreq, Error. step. cbn [fst snd]. rewrite Hc, Hinp, Hcalc.
  unfold setClkGenMul, setClkGenDiv, resetClkGen, resetAdc, Error, setErr. step.
  cbn [fst snd]. rewrite Hc1. reflexivity.
Qed.

Lemma SetClkGenOutputFreq_slow_input_witness :
  calcClkGenMulDiv 7370000 0 = (0, 0) /\
  SetClkGenOutputFreq blankRegisters 7370000 (freshAdc, []) =
  (tt, (withErr freshAdc (Some (Errorf "mul %v out of range" [0])),
        readCalls addrAdvClk 4 ++ readCalls addrSysFreq 4)).
Proof.
  apply (SetClkGenOutputFreq_slow_input blankRegisters freshAdc freshAdc []
           (readCalls addrAdvClk 4 ++ readCalls addrSysFreq 4) 7370000 0);
    [reflexivity | reflexivity | reflexivity | lia].
Defined.

End ClkGenFacts.

(** ** The pin-route register *)

Module IoFacts.
Import Memory Adc AdcTypes AdcRegisters Registers AdcOps RegisterFacts.

Lemma store_length (buf : list byte) (i : nat) (v : Z) :
  length (store buf i v) = length buf.
Proof.
  revert i. induction buf as [|b buf IH]; intros [|i]; cbn; auto.
Qed.

Section Facts.
Context (d : Device) (Hd : RegisterFile d) (c : Adc) (Hc : err c = None).

Local Notation "'rc'" := (readCalls addrIoRoute 8).

(** The content of the register in a state, and the states in which a second
    read finds the same. *)
Local Notation "'bufAt' h" := (answer d addrIoRoute 8 h) (at level 10, h at level 9).

Lemma read_io (h : History) :
  memRead d addrIoRoute 8 (c, h) = (Some (bufAt h), (c, h ++ rc)).
Proof. now rewrite (memRead_register d Hd) by (assumption || lia). Qed.

Lemma write_io (h : History) (data : list byte) :
  length data = 8%nat ->
  memWrite d addrIoRoute data true None (c, h) =
  (tt, (c, h ++ writeCall addrIoRoute data :: rc)).
Proof.
  intro Hl. rewrite (memWrite_register d Hd) by (assumption || lia || discriminate).
  now rewrite Hl.
Qed.

Lemma bufAt_written (h : History) (data : list byte) :
  length data = 8%nat ->
  bufAt (h ++ writeCall addrIoRoute data :: rc) = data /\
  bufAt ((h ++ writeCall addrIoRoute data :: rc) ++ rc) = data.
Proof.
  intro Hl. split; apply (answer_written d Hd); try (symmetry; exact Hl);
    rewrite ?lastWrite_reads; rewrite lastWrite_app; cbn [fold_left];
    now rewrite latest_writeCall, Z.eqb_refl.
Qed.

Lemma eight_bytes (h : History) :
  exists b0 b1 b2 b3 b4 b5 b6 b7, bufAt h = [b0; b1; b2; b3; b4; b5; b6; b7].
Proof.
  pose proof (answer_length d Hd addrIoRoute 8 h) as H.
  destruct (bufAt h) as [|b0 [|b1 [|b2 [|b3 [|b4 [|b5 [|b6 [|b7 [|? ?]]]]]]]]];
    try discriminate.
  now exists b0, b1, b2, b3, b4, b5, b6, b7.
Qed.

Ltac enter := unfold Error; repeat (progress (step; cbn [fst snd]; rewrite ?Hc; cbv beta iota)).

Lemma specialGpio_at (h : History) (pin : Z) :
  fst (specialGpio d pin (c, h)) = specialOf pin (at_ (bufAt h) 6).
Proof.
  unfold specialGpio. enter. rewrite read_io. cbv zeta. unfold specialOf.
  destruct (_ =? 0); [reflexivity|]. now destruct (0 <? _).
Qed.

Lemma targetIo_route (h : History) (pin : nat) (mode : TargetIoMode) :
  settableIoMode mode = true ->
  at_ (bufAt h) pin = routeOf mode -> at_ (bufAt (h ++ rc)) pin = routeOf mode ->
  exists h', targetIo d pin (c, h) = (mode, (c, h')).
Proof.
  intros Hm H1 H2. unfold targetIo, tio, gpio. enter. rewrite read_io. cbv zeta.
  rewrite H1.
  destruct mode; try discriminate Hm; cbn [routeOf];
    match goal with
    | |- context [Z.land ?a (uint8 (Z.lnot ioRouteGpio))] =>
        let v := eval vm_compute in (Z.land a (uint8 (Z.lnot ioRouteGpio))) in
        change (Z.land a (uint8 (Z.lnot ioRouteGpio))) with v
    end;
    cbv beta iota zeta delta [ioRouteSTX ioRouteSRX ioRouteUSIO ioRouteUSII ioRouteGpioE
                             ioRouteHighZ Z.eqb Pos.eqb orb];
    enter; rewrite ?read_io, ?H2; cbn [routeOf];
    try match goal with
    | |- context [Z.land ?a ioRouteGpioE =? 0] =>
        let v := eval vm_compute in (Z.land a ioRouteGpioE =? 0) in
        change (Z.land a ioRouteGpioE =? 0) with v
    end;
    try match goal with
    | |- context [0 <? Z.land ?a ioRouteGpio] =>
        let v := eval vm_compute in (0 <? Z.land a ioRouteGpio) in
        change (0 <? Z.land a ioRouteGpio) with v
    end;
    cbv beta iota; eexists; reflexivity.
Qed.

Lemma bufAt_written1 (h : History) (data : list byte) :
  length data = 8%nat -> bufAt (h ++ writeCall addrIoRoute data :: rc) = data.
Proof. intro Hl. now apply bufAt_written. Qed.

Lemma bufAt_written2 (h : History) (data : list byte) :
  length data = 8%nat -> bufAt ((h ++ writeCall addrIoRoute data :: rc) ++ rc) = data.
Proof. intro Hl. now apply bufAt_written. Qed.

(** Deciding a test of the code on a byte the code has just written. *)
Ltac decide_tests :=
  repeat match goal with
  | |- context [Z.land ?a ioRouteGpioE =? 0] =>
      let v := eval vm_compute in (Z.land a ioRouteGpioE =? 0) in
      lazymatch v with
      | true => change (Z.land a ioRouteGpioE =? 0) with true
      | false => change (Z.land a ioRouteGpioE =? 0) with false
      end
  end.

Ltac run_io Hb :=
  repeat (progress (enter; cbv zeta; rewrite ?read_io, ?Hb;
                    rewrite ?write_io by reflexivity;
                    rewrite ?bufAt_written1 by reflexivity;
                    cbv beta iota zeta delta [store at_ nth]; decide_tests)).

(** One operation: the register is written, and each pin keeps its byte or
    its bits unless the operation is about it. *)
Lemma runIoOp_step (op : IoOp) (h : History) :
  acceptedIoOp op = true ->
  exists h' buf',
    runIoOp d op (c, h) = (tt, (c, h')) /\
    bufAt h' = buf' /\ bufAt (h' ++ rc) = buf' /\
    at_ buf' 0 = match op with OpSetTargetIo1 m => routeOf m | _ => at_ (bufAt h) 0 end /\
    at_ buf' 1 = match op with OpSetTargetIo2 m => routeOf m | _ => at_ (bufAt h) 1 end /\
    specialOf nrstPinNum (at_ buf' 6) =
      match op with OpSetNRST g => g | _ => specialOf nrstPinNum (at_ (bufAt h) 6) end /\
    specialOf pdicPinNum (at_ buf' 6) =
      match op with OpSetPDIC g => g | _ => specialOf pdicPinNum (at_ (bufAt h) 6) end /\
    specialOf pdidPinNum (at_ buf' 6) =
      match op with OpSetPDID g => g | _ => specialOf pdidPinNum (at_ (bufAt h) 6) end.
Proof.
  intro Hop.
  destruct (eight_bytes h) as (b0 & b1 & b2 & b3 & b4 & b5 & b6 & b7 & Hb).
  destruct op as [m|m|g|g|g]; cbn [runIoOp acceptedIoOp] in *;
    unfold SetTargetIo1, SetTargetIo2, SetNRST, SetPDIC, SetPDID,
           setTargetIo, setTio, setGpio, setSpecialGpio;
    [destruct m; try discriminate Hop | destruct m; try discriminate Hop
     | destruct g | destruct g | destruct g];
    run_io Hb;
    (do 2 eexists; split; [reflexivity|]);
    rewrite bufAt_written1, bufAt_written2 by reflexivity;
    (split; [reflexivity|]); (split; [reflexivity|]);
    cbv beta iota zeta delta [store at_ nth];
    repeat split;
    lazymatch goal with
    | |- ?x = ?x => reflexivity
    | |- context [b6] => by_bytes b6
    | _ => vm_compute; reflexivity
    end.
Qed.

(** What is known of the register: for each pin a sequence has set, the byte
    or the bits that its last setting left. *)
Lemma runAll_io (ops : list IoOp) :
  forall (h : History) (o1 o2 : option TargetIoMode) (n p q : option GpioMode),
  forallb acceptedIoOp ops = true ->
  (forall m, o1 = Some m -> at_ (bufAt h) 0 = routeOf m) ->
  (forall m, o2 = Some m -> at_ (bufAt h) 1 = routeOf m) ->
  (forall g, n = Some g -> specialOf nrstPinNum (at_ (bufAt h) 6) = g) ->
  (forall g, p = Some g -> specialOf pdicPinNum (at_ (bufAt h) 6) = g) ->
  (forall g, q = Some g -> specialOf pdidPinNum (at_ (bufAt h) 6) = g) ->
  exists h',
    runAll (runIoOp d) ops (c, h) = (tt, (c, h')) /\
    (ops <> [] -> bufAt (h' ++ rc) = bufAt h') /\
    (forall m, targetIo1After ops o1 = Some m -> at_ (bufAt h') 0 = routeOf m) /\
    (forall m, targetIo2After ops o2 = Some m -> at_ (bufAt h') 1 = routeOf m) /\
    (forall g, nrstAfter ops n = Some g -> specialOf nrstPinNum (at_ (bufAt h') 6) = g) /\
    (forall g, pdicAfter ops p = Some g -> specialOf pdicPinNum (at_ (bufAt h') 6) = g) /\
    (forall g, pdidAfter ops q = Some g -> specialOf pdidPinNum (at_ (bufAt h') 6) = g).
Proof.
  induction ops as [|op ops IH]; intros h o1 o2 n p q Hops H1 H2 Hn Hp Hq.
  - exists h. cbn. repeat split; auto. congruence.
  - cbn [forallb] in Hops. apply andb_true_iff in Hops as [Hop Hops].
    destruct (runIoOp_step op h Hop)
      as (h1 & buf1 & Hrun & Hbuf & Hstable & E0 & E1 & En & Ep & Eq).
    rewrite <- Hbuf in E0, E1, En, Ep, Eq.
    assert (Hkeep : ops = [] \/ ops <> []) by (destruct ops; [now left|right; discriminate]).
    destruct op as [m|m|g|g|g]; cbn [targetIo1After targetIo2After nrstAfter pdicAfter pdidAfter].
    + destruct (IH h1 (Some m) o2 n p q Hops) as (h2 & Hrest & Hst & Hrel);
        try (intros ? ?; first [rewrite E1; now apply H2 | rewrite En; now apply Hn
                               | rewrite Ep; now apply Hp | rewrite Eq; now apply Hq]).
      { intros m' [= <-]. exact E0. }
      exists h2. cbn [runAll]. step. rewrite Hrun, Hrest. split; [reflexivity|].
      split; [|exact Hrel]. intros _. destruct Hkeep as [-> | Hne]; [|now apply Hst].
      cbn in Hrest. injection Hrest as <-. now rewrite Hstable, Hbuf.
    + destruct (IH h1 o1 (Some m) n p q Hops) as (h2 & Hrest & Hst & Hrel);
        try (intros ? ?; first [rewrite E0; now apply H1 | rewrite En; now apply Hn
                               | rewrite Ep; now apply Hp | rewrite Eq; now apply Hq]).
      { intros m' [= <-]. exact E1. }
      exists h2. cbn [runAll]. step. rewrite Hrun, Hrest. split; [reflexivity|].
      split; [|exact Hrel]. intros _. destruct Hkeep as [-> | Hne]; [|now apply Hst].
      cbn in Hrest. injection Hrest as <-. now rewrite Hstable, Hbuf.
    + destruct (IH h1 o1 o2 (Some g) p q Hops) as (h2 & Hrest & Hst & Hrel);
        try (intros ? ?; first [rewrite E0; now apply H1 | rewrite E1; now apply H2
                               | rewrite Ep; now apply Hp | rewrite Eq; now apply Hq]).
      { intros g' [= <-]. exact En. }
      exists h2. cbn [runAll]. step. rewrite Hrun, Hrest. split; [reflexivity|].
      split; [|exact Hrel]. intros _. destruct Hkeep as [-> | Hne]; [|now apply Hst].
      cbn in Hrest. injection Hrest as <-. now rewrite Hstable, Hbuf.
    + destruct (IH h1 o1 o2 n (Some g) q Hops) as (h2 & Hrest & Hst & Hrel);
        try (intros ? ?; first [rewrite E0; now apply H1 | rewrite E1; now apply H2
                               | rewrite En; now apply Hn | rewrite Eq; now apply Hq]).
      { intros g' [= <-]. exact Ep. }
      exists h2. cbn [runAll]. step. rewrite Hrun, Hrest. split; [reflexivity|].
      split; [|exact Hrel]. intros _. destruct Hkeep as [-> | Hne]; [|now apply Hst].
      cbn in Hrest. injection Hrest as <-. now rewrite Hstable, Hbuf.
    + destruct (IH h1 o1 o2 n p (Some g) Hops) as (h2 & Hrest & Hst & Hrel);
        try (intros ? ?; first [rewrite E0; now apply H1 | rewrite E1; now apply H2
                               | rewrite En; now apply Hn | rewrite Ep; now apply Hp]).
      { intros g' [= <-]. exact Eq. }
      exists h2. cbn [runAll]. step. rewrite Hrun, Hrest. split; [reflexivity|].
      split; [|exact Hrel]. intros _. destruct Hkeep as [-> | Hne]; [|now apply Hst].
      cbn in Hrest. injection Hrest as <-. now rewrite Hstable, Hbuf.
Qed.

End Facts.

Lemma targetIo1After_settable (ops : list IoOp) (o : option TargetIoMode) (m : TargetIoMode) :
  forallb acceptedIoOp ops = true ->
  (forall m', o = Some m' -> settableIoMode m' = true) ->
  targetIo1After ops o = Some m -> settableIoMode m = true.
Proof.
  revert o. induction ops as [|op ops IH]; intros o Hops Ho H; [now apply Ho|].
  cbn [forallb] in Hops. apply andb_true_iff in Hops as [Hop Hops].
  destruct op; cbn [targetIo1After] in H; apply (IH _ Hops) in H; try assumption.
  intros m' [= <-]. exact Hop.
Qed.

Lemma targetIo2After_settable (ops : list IoOp) (o : option TargetIoMode) (m : TargetIoMode) :
  forallb acceptedIoOp ops = true ->
  (forall m', o = Some m' -> settableIoMode m' = true) ->
  targetIo2After ops o = Some m -> settableIoMode m = true.
Proof.
  revert o. induction ops as [|op ops IH]; intros o Hops Ho H; [now apply Ho|].
  cbn [forallb] in Hops. apply andb_true_iff in Hops as [Hop Hops].
  destruct op; cbn [targetIo2After] in H; apply (IH _ Hops) in H; try assumption.
  intros m' [= <-]. exact Hop.
Qed.

(** X15. On a device whose registers keep what is written, any sequence of
    [SetTargetIo1], [SetTargetIo2] (with the modes serial RX, serial TX, GPIO
    low and GPIO high), [SetNRST], [SetPDIC] and [SetPDID] leaves the error
    clear; afterwards the getter of each pin that the sequence has set
    returns the mode set last for that pin, without error, whatever was set
    for the other pins in between.  The modes high-Z and GPIO-disabled are
    refused by [setTargetIo] before any transfer. *)
Theorem io_pins_survive (d : Device) (ops : list IoOp) (c : Adc) (h : History) :
  RegisterFile d -> err c = None -> forallb acceptedIoOp ops = true ->
  (exists h',
     runAll (runIoOp d) ops (c, h) = (tt, (c, h')) /\
     (forall m, targetIo1After ops None = Some m ->
        exists h'', TargetIo1 d (c, h') = (m, (c, h''))) /\
     (forall m, targetIo2After ops None = Some m ->
        exists h'', TargetIo2 d (c, h') = (m, (c, h''))) /\
     (forall g, nrstAfter ops None = Some g -> fst (NRST d (c, h')) = g) /\
     (forall g, pdicAfter ops None = Some g -> fst (PDIC d (c, h')) = g) /\
     (forall g, pdidAfter ops None = Some g -> fst (PDID d (c, h')) = g)) /\
  (forall pin mode, settableIoMode mode = false ->
     setTargetIo d pin mode (c, h) =
     (tt, (withErr c (Some (Errorf "Unsupported TIO mode %v" [TargetIoMode_int mode])), h))).
Proof.
  intros Hd Hc Hops. split.
  - destruct (runAll_io d Hd c Hc ops h None None None None None Hops)
      as (h' & Hrun & Hst & H1 & H2 & Hn & Hp & Hq); try discriminate.
    exists h'. split; [exact Hrun|].
    assert (Hne : forall (X : Type) (x : X) (f : list IoOp -> option X -> option X),
              f [] None = None -> f ops None = Some x -> ops <> []).
    { intros X x f Hnil Hf ->. congruence. }
    repeat split.
    + intros m Hm. apply (targetIo_route d Hd c Hc h' 0 m).
      * apply (targetIo1After_settable ops None m Hops); [discriminate|exact Hm].
      * now apply H1.
      * rewrite Hst; [now apply H1|]. exact (Hne _ m targetIo1After eq_refl Hm).
    + intros m Hm. apply (targetIo_route d Hd c Hc h' 1 m).
      * apply (targetIo2After_settable ops None m Hops); [discriminate|exact Hm].
      * now apply H2.
      * rewrite Hst; [now apply H2|]. exact (Hne _ m targetIo2After eq_refl Hm).
    + intros g Hg. unfold NRST. rewrite (specialGpio_at d Hd c Hc). now apply Hn.
    + intros g Hg. unfold PDIC. rewrite (specialGpio_at d Hd c Hc). now apply Hp.
    + intros g Hg. unfold PDID. rewrite (specialGpio_at d Hd c Hc). now apply Hq.
  - intros pin mode Hm. unfold setTargetIo, Error, setErr. step. cbn [fst snd].
    rewrite Hc. now destruct mode.
Qed.

Lemma io_pins_survive_witness :
  exists h',
    runAll (runIoOp blankRegisters)
      [OpSetTargetIo1 TargetIoModeSerialRx; OpSetNRST GpioHigh;
       OpSetTargetIo2 TargetIoModeGpioHigh; OpSetPDIC GpioLow; OpSetNRST GpioDisabled]
      (freshAdc, []) = (tt, (freshAdc, h')) /\
    (exists h'', TargetIo1 blankRegisters (freshAdc, h') =
                 (TargetIoModeSerialRx, (freshAdc, h''))) /\
    (exists h'', TargetIo2 blankRegisters (freshAdc, h') =
                 (TargetIoModeGpioHigh, (freshAdc, h''))) /\
    fst (NRST blankRegisters (freshAdc, h')) = GpioDisabled /\
    fst (PDIC blankRegisters (freshAdc, h')) = GpioLow.
Proof.
  destruct (io_pins_survive blankRegisters
              [OpSetTargetIo1 TargetIoModeSerialRx; OpSetNRST GpioHigh;
               OpSetTargetIo2 TargetIoModeGpioHigh; OpSetPDIC GpioLow; OpSetNRST GpioDisabled]
              freshAdc [] (registers_RegisterFile _) eq_refl eq_refl)
    as [(h' & Hrun & H1 & H2 & Hn & Hp & _) _].
  exists h'. split; [exact Hrun|].
  split; [exact (H1 _ eq_refl)|]. split; [exact (H2 _ eq_refl)|].
  split; [exact (Hn _ eq_refl)|exact (Hp _ eq_refl)].
Defined.

End IoFacts.

(** ** Opening and closing the device *)

Module UsbOpenFacts.
Import UsbOpen.

Lemma Close_releases (d : UsbDevice) (log : list Release) :
  Close (d, log) =
  ({| ctx := false; dev := false; intf := false; intf_done := false |}, log ++ held d).
Proof.
  destruct d as [[] [] [] []]; cbn; rewrite <- ?app_assoc; try reflexivity.
  now rewrite app_nil_r.
Qed.

(** X16. [Close] gives back each handle that is not nil, once, in the order
    interface-done, interface, device, context, and leaves all handles nil,
    so that a second [Close] does nothing.  [OpenCwLiteUsbDevice] returns
    without error exactly when gousb reports no error and the firmware
    version read is 0.11; all four handles are then open and nothing was
    released.  When it fails because gousb reports an error it has released
    what it had opened and holds nothing: the context (and the device, if one
    came with the error) for a failed open, the device and the context for a
    failed claim of the interface, all four handles for a failed endpoint.
    When it fails because no device is found it has released nothing and the
    context stays open; when it fails because the firmware version cannot be
    read or is not 0.11 it has released nothing and all four handles stay
    open, after the one transfer that asked for the version.  In these cases
    the caller gets no device to close. *)
Theorem open_close_handles (g : Gousb) (usb : Device) :
  (forall d log,
     Close (d, log) =
       ({| ctx := false; dev := false; intf := false; intf_done := false |}, log ++ held d) /\
     Close (Close (d, log)) = Close (d, log)) /\
  (fst (fst (OpenCwLiteUsbDevice g usb)) = None <->
   open_device g = (true, None) /\ default_interface g = None /\
   out_endpoint g = None /\ in_endpoint g = None /\
   exists ver, fst (ControlIn usb ReqFwVersion 0 3 []) = inr ver /\
     byte_to_Z (nth 0 ver Byte.x00) = cwliteMjVersion /\
     byte_to_Z (nth 1 ver Byte.x00) = cwliteMnVersion) /\
  (forall d log h,
     OpenCwLiteUsbDevice g usb = (None, (d, log), h) ->
     held d = [IntfDone; IntfClose; DevClose; CtxClose] /\ log = [] /\
     h = [ControlInCall ReqFwVersion 0 3]) /\
  (forall e d log h,
     OpenCwLiteUsbDevice g usb = (Some e, (d, log), h) ->
     (* a failed open *)
     (forall found cause, open_device g = (found, Some cause) ->
        held d = [] /\ log = (if found then [DevClose] else []) ++ [CtxClose] /\ h = []) /\
     (* no device *)
     (open_device g = (false, None) ->
        held d = [CtxClose] /\ log = [] /\ h = []) /\
     (* a failed claim of the interface *)
     (open_device g = (true, None) -> default_interface g <> None ->
        held d = [] /\ log = [DevClose; CtxClose] /\ h = []) /\
     (* a failed endpoint *)
     (open_device g = (true, None) -> default_interface g = None ->
      out_endpoint g <> None \/ in_endpoint g <> None ->
        held d = [] /\ log = [IntfDone; IntfClose; DevClose; CtxClose] /\ h = []) /\
     (* the firmware version *)
     (open_device g = (true, None) -> default_interface g = None ->
      out_endpoint g = None -> in_endpoint g = None ->
        held d = [IntfDone; IntfClose; DevClose; CtxClose] /\ log = [] /\
        h = [ControlInCall ReqFwVersion 0 3])).
Proof.
  assert (Hh : snd (ControlIn usb ReqFwVersion 0 3 []) = [ControlInCall ReqFwVersion 0 3]).
  { unfold ControlIn. destruct (control_in usb [] ReqFwVersion 0 3) as [buf [e|]];
      [reflexivity|]. now destruct (Nat.eqb _ _). }
  split; [|split; [|split]].
  - intros d log. split; [apply Close_releases|].
    rewrite !Close_releases. cbn. now rewrite app_nil_r.
  - unfold OpenCwLiteUsbDevice.
    destruct (open_device g) as [[] [e|]]; cbn [fst];
      try (split; [discriminate|intros (H & _); discriminate]).
    destruct (default_interface g);
      [split; [discriminate|intros (_ & H & _); discriminate]|].
    destruct (out_endpoint g);
      [split; [discriminate|intros (_ & _ & H & _); discriminate]|].
    destruct (in_endpoint g);
      [split; [discriminate|intros (_ & _ & _ & H & _); discriminate]|].
    destruct (ControlIn usb ReqFwVersion 0 3 []) as [[e|ver] h1]; cbn [fst].
    + split; [discriminate|]. intros (_ & _ & _ & _ & ver & H & _). discriminate.
    + cbv zeta.
      destruct (byte_to_Z (nth 0 ver Byte.x00) =? cwliteMjVersion) eqn:Emj;
        destruct (byte_to_Z (nth 1 ver Byte.x00) =? cwliteMnVersion) eqn:Emn;
        cbn [negb orb fst].
      * apply Z.eqb_eq in Emj, Emn. split; [|reflexivity]. intros _.
        repeat split. now exists ver.
      * apply Z.eqb_neq in Emn. split; [discriminate|].
        intros (_ & _ & _ & _ & v & [= <-] & _ & H). contradiction.
      * apply Z.eqb_neq in Emj. split; [discriminate|].
        intros (_ & _ & _ & _ & v & [= <-] & H & _). contradiction.
      * apply Z.eqb_neq in Emj. split; [discriminate|].
        intros (_ & _ & _ & _ & v & [= <-] & H & _). contradiction.
  - intros d log h. unfold OpenCwLiteUsbDevice.
    destruct (open_device g) as [[] [e|]]; try discriminate.
    destruct (default_interface g); [discriminate|].
    destruct (out_endpoint g); [discriminate|].
    destruct (in_endpoint g); [discriminate|].
    destruct (ControlIn usb ReqFwVersion 0 3 []) as [[e|ver] h1]; [discriminate|].
    cbv zeta. cbn [snd] in Hh. destruct (negb _ || negb _); [discriminate|].
    intros [= <- <- <-]. now repeat split.
  - intros e d log h. unfold OpenCwLiteUsbDevice.
    destruct (open_device g) as [found [e0|]].
    + cbn [ctx dev intf intf_done].
      match goal with
      | |- ?lhs = _ -> _ =>
          replace lhs with
            (Some (Wrapf "Opening CWLITE device: %v" e0),
             ({| ctx := false; dev := false; intf := false; intf_done := false |},
              (if found then [DevClose] else []) ++ [CtxClose]), @nil Call)
            by (rewrite Close_releases; now destruct found)
      end.
      intros [= <- <- <- <-].
      split; [intros f c [= <- _]; now repeat split|].
      split; [discriminate|]. split; [discriminate|]. split; discriminate.
    + destruct found.
      * destruct (default_interface g) as [e1|].
        { rewrite Close_releases. intros [= <- <- <- <-]. cbn.
          split; [discriminate|]. split; [discriminate|].
          split; [now repeat split|].
          split; [intros _ H; discriminate|intros _ H; discriminate]. }
        destruct (out_endpoint g) as [e2|].
        { rewrite Close_releases. intros [= <- <- <- <-]. cbn.
          split; [discriminate|]. split; [discriminate|].
          split; [intros _ H; now destruct H|].
          split; [now repeat split|intros _ _ H; discriminate]. }
        destruct (in_endpoint g) as [e3|].
        { rewrite Close_releases. intros [= <- <- <- <-]. cbn.
          split; [discriminate|]. split; [discriminate|].
          split; [intros _ H; now destruct H|].
          split; [now repeat split|intros _ _ _ H; discriminate]. }
        cbn [snd] in Hh.
        destruct (ControlIn usb ReqFwVersion 0 3 []) as [[e4|ver] h1]; cbn [snd] in Hh; subst h1.
        -- intros [= <- <- <- <-]. cbn.
           split; [discriminate|]. split; [discriminate|].
           split; [intros _ H; now destruct H|].
           split; [intros _ _ [H|H]; now destruct H|now repeat split].
        -- cbv zeta. destruct (negb _ || negb _); [|discriminate].
           intros [= <- <- <- <-]. cbn.
           split; [discriminate|]. split; [discriminate|].
           split; [intros _ H; now destruct H|].
           split; [intros _ _ [H|H]; now destruct H|now repeat split].
      * intros [= <- <- <- <-]. cbn.
        split; [discriminate|]. split; [now repeat split|].
        split; [discriminate|]. split; discriminate.
Qed.

(** A board whose firmware is 0.10 instead of 0.11: the open fails and all
    four handles stay open. *)
Lemma firmware_mismatch_leaks :
  exists e h,
    OpenCwLiteUsbDevice workingGousb (firmware Byte.x0a) =
      (Some e, ({| ctx := true; dev := true; intf := true; intf_done := true |}, []), h) /\
    fst (fst (OpenCwLiteUsbDevice workingGousb (firmware Byte.x0b))) = None.
Proof.
  do 2 eexists. split; reflexivity.
Qed.

End UsbOpenFacts.

(** ** The matrix of the samples *)

Module MatrixFacts.
Import Capture Matrix.

Lemma set_middle (pre post : list float) (y x : float) :
  set (pre ++ y :: post) (length pre) x = pre ++ x :: post.
Proof. induction pre as [|p pre IH]; cbn; [reflexivity|now rewrite IH]. Qed.

Lemma firstn_snoc {X} (l : list X) (j : nat) (x : X) :
  nth_error l j = Some x -> firstn (S j) l = firstn j l ++ [x].
Proof.
  revert j. induction l as [|y l IH]; intros [|j] H; try discriminate.
  - now injection H as ->.
  - cbn [firstn app]. f_equal. now apply IH.
Qed.

Section Row.
Context (cols : nat) (t : Trace) (i : nat).

Let pm := elems (PowerMeasurements t).

Let stepj := fun (acc : option (list float)) (j : nat) =>
  match acc with
  | None => None
  | Some data =>
      match nth_error pm j with
      | None => None
      | Some x => Some (set data (i * cols + j) x)
      end
  end.

Lemma stepj_None (l : list nat) : fold_left stepj l None = None.
Proof. induction l as [|j l IH]; [reflexivity|exact IH]. Qed.

Lemma rowLoop_prefix (pre post : list float) (j : nat) :
  length pre = (i * cols)%nat -> (j <= cols)%nat -> (j <= length pm)%nat ->
  fold_left stepj (seq 0 j) (Some (pre ++ repeat 0%float cols ++ post)) =
  Some (pre ++ firstn j pm ++ repeat 0%float (cols - j) ++ post).
Proof.
  intros Hpre. induction j as [|j IH]; intros Hj Hpm.
  - cbn. now rewrite Nat.sub_0_r.
  - rewrite seq_S, fold_left_app, IH by lia. cbn [fold_left stepj Nat.add].
    destruct (nth_error pm j) as [x|] eqn:E; [|apply nth_error_None in E; lia].
    f_equal.
    replace (cols - j)%nat with (S (cols - S j)) by lia. cbn [repeat].
    replace (i * cols + j)%nat with (length (pre ++ firstn j pm))
      by (rewrite length_app, length_firstn; lia).
    rewrite (firstn_snoc pm j x E).
    change ((0%float :: repeat 0%float (cols - S j)) ++ post)
      with (0%float :: (repeat 0%float (cols - S j) ++ post)).
    rewrite (app_assoc pre), set_middle. now rewrite <- !app_assoc.
Qed.

Lemma rowLoop_full (pre post : list float) :
  length pre = (i * cols)%nat -> (cols <= length pm)%nat ->
  rowLoop cols t i (pre ++ repeat 0%float cols ++ post) =
  Some (pre ++ firstn cols pm ++ post).
Proof.
  intros Hpre Hpm. unfold rowLoop. fold pm. fold stepj.
  rewrite rowLoop_prefix by lia. now rewrite Nat.sub_diag.
Qed.

Lemma rowLoop_short (data : list float) :
  (length pm < cols)%nat -> rowLoop cols t i data = None.
Proof.
  intro Hpm. unfold rowLoop. fold pm. fold stepj.
  replace cols with (length pm + S (cols - S (length pm)))%nat at 1 by lia.
  rewrite seq_app, fold_left_app. cbn [seq fold_left Nat.add].
  assert (E : nth_error pm (length pm) = None) by (apply nth_error_None; lia).
  destruct (fold_left stepj (seq 0 (length pm)) (Some data)) as [data'|];
    cbn [stepj]; rewrite ?E; apply stepj_None.
Qed.

End Row.

Section Rows.
Context (ts : list Trace) (cols : nat).

Let rows := length ts.
Let row := fun t : Trace => firstn cols (elems (PowerMeasurements t)).
Let long := fun t : Trace => (cols <=? length (elems (PowerMeasurements t)))%nat.

Let stepi := fun (acc : option (list float)) (i : nat) =>
  match acc with
  | None => None
  | Some data =>
      match nth_error ts i with
      | None => None
      | Some t => rowLoop cols t i data
      end
  end.

Lemma stepi_None (l : list nat) : fold_left stepi l None = None.
Proof. induction l as [|j l IH]; [reflexivity|exact IH]. Qed.

Lemma rows_length (l : list Trace) :
  forallb long l = true -> length (concat (map row l)) = (length l * cols)%nat.
Proof.
  induction l as [|t l IH]; [reflexivity|]. cbn [forallb]. intro H.
  apply andb_true_iff in H as [Ht Hl]. apply Nat.leb_le in Ht.
  cbn [map concat length]. rewrite length_app, IH by assumption.
  unfold row. rewrite length_firstn. lia.
Qed.

Lemma outer_prefix (i : nat) :
  (i <= rows)%nat -> forallb long (firstn i ts) = true ->
  fold_left stepi (seq 0 i) (Some (repeat 0%float (rows * cols))) =
  Some (concat (map row (firstn i ts)) ++ repeat 0%float ((rows - i) * cols)).
Proof.
  induction i as [|i IH]; intros Hi Hlong.
  - cbn. now rewrite Nat.sub_0_r.
  - destruct (nth_error ts i) as [t|] eqn:E; [|apply nth_error_None in E; subst rows; lia].
    rewrite (firstn_snoc ts i t E) in Hlong |- *.
    rewrite forallb_app in Hlong. apply andb_true_iff in Hlong as [Hpre Ht].
    cbn [forallb] in Ht. rewrite andb_true_r in Ht. apply Nat.leb_le in Ht.
    rewrite seq_S, fold_left_app, IH by (assumption || lia).
    cbn [fold_left stepi Nat.add]. rewrite E.
    replace ((rows - i) * cols)%nat with (cols + (rows - S i) * cols)%nat by nia.
    rewrite repeat_app, rowLoop_full by (try apply rows_length; try assumption;
      rewrite ?rows_length, ?length_firstn by assumption; subst rows; lia).
    rewrite map_app, concat_app. cbn [map concat]. rewrite app_nil_r.
    now rewrite <- app_assoc.
Qed.

Lemma outer_short (data : list float) :
  forallb long ts = false ->
  fold_left stepi (seq 0 rows) (Some data) = None.
Proof.
  intro H. assert (Hex : exists t, In t ts /\ long t = false).
  { clear - H. induction ts as [|t l IH]; [discriminate|]. cbn [forallb] in H.
    apply andb_false_iff in H as [Ht|Hl].
    - exists t. split; [now left|assumption].
    - destruct (IH Hl) as (t' & Hin & Ht'). exists t'. split; [now right|assumption]. }
  destruct Hex as (t & Hin & Ht). apply Nat.leb_gt in Ht.
  apply In_nth_error in Hin as [i Hi].
  assert (Hlt : (i < rows)%nat) by (apply nth_error_Some; congruence).
  replace rows with (i + S (rows - S i))%nat by lia.
  rewrite seq_app, fold_left_app. cbn [seq fold_left Nat.add].
  destruct (fold_left stepi (seq 0 i) (Some data)) as [data'|]; cbn [stepi].
  - rewrite Hi, rowLoop_short by assumption. apply stepi_None.
  - apply stepi_None.
Qed.

End Rows.

(** X17. [Capture.SamplesMatrix] panics on an empty capture (it indexes the
    first trace) and on a capture in which some trace has fewer measurements
    than the first.  Otherwise it returns a matrix with one row for each
    trace and as many columns as the first trace has measurements, laid out
    row after row: row [i] holds the first [cols] measurements of trace [i],
    and what a longer trace has beyond them is dropped. *)
Theorem SamplesMatrix_rows (c : Capture) :
  SamplesMatrix c =
  match elems c with
  | [] => None
  | t0 :: _ =>
      let cols := length (elems (PowerMeasurements t0)) in
      if forallb (fun t => (cols <=? length (elems (PowerMeasurements t)))%nat) (elems c)
      then Some (length (elems c), cols,
                 concat (map (fun t => firstn cols (elems (PowerMeasurements t))) (elems c)))
      else None
  end.
Proof.
  unfold SamplesMatrix. destruct (elems c) as [|t0 ts] eqn:E; [reflexivity|].
  cbv zeta. set (cols := length (elems (PowerMeasurements t0))).
  destruct (forallb _ (t0 :: ts)) eqn:Hlong.
  - rewrite (outer_prefix (t0 :: ts) cols (length (t0 :: ts)))
      by (rewrite ?firstn_all; auto).
    rewrite firstn_all, Nat.sub_diag. cbn [Nat.mul repeat]. now rewrite app_nil_r.
  - now rewrite (outer_short (t0 :: ts) cols).
Qed.

Lemma SamplesMatrix_ragged :
  SamplesMatrix raggedCapture = Some (2%nat, 2%nat, [0.5%float; 0.25%float; 1%float; 2%float]) /\
  SamplesMatrix None = None.
Proof. split; reflexivity. Qed.

End MatrixFacts.

(** ** Setting the clock generator *)

Module ClkGenSetFacts.
Import Memory Adc AdcTypes AdcRegisters Registers AdcOps RegisterFacts ClockFacts.

Section Facts.
Context (d : Device) (Hd : RegisterFile d) (c : Adc) (Hc : err c = None).

Local Notation "'rc'" := (readCalls addrAdvClk 4).

Ltac run :=
  unfold Error;
  repeat (progress (step; cbn [fst snd]; rewrite ?Hc; cbv beta iota zeta;
                    rewrite ?(advClock_reg d Hd), ?(setAdvClock_reg d Hd) by assumption)).

Ltac written :=
  rewrite ?(answer_after_write d Hd) by first [reflexivity | right; now eexists | now left].

(** The input frequency is read without error and without a write. *)
Lemma clkGenInputFreq_reads (h : History) :
  exists inpFreq tail,
    clkGenInputFreq d (c, h) = (inpFreq, (c, h ++ tail)) /\
    forall a, lastWrite a (h ++ tail) = lastWrite a h.
Proof.
  unfold clkGenInputFreq, ClkGenInputSource, ExtClockFreq, SysFreq. run.
  destruct (0 <? _); run.
  - exists (extClockFreq c), rc. split; [reflexivity|]. intro a. apply lastWrite_reads.
  - rewrite (memRead_register d Hd) by (assumption || lia).
    eexists; exists (rc ++ readCalls addrSysFreq 4). rewrite app_assoc.
    split; [reflexivity|]. intro a. now rewrite !lastWrite_reads.
Qed.

Lemma clkGenMul_at (h : History) (data : list byte) :
  answer d addrAdvClk 4 h = data ->
  at_ data 1 <> 0 -> (0 <? Z.land (at_ data 3) 2) = true ->
  clkGenMul d (c, h) = (at_ data 1 + 1, (c, h ++ rc)).
Proof.
  intros Hdata Hmul Hflag. unfold clkGenMul. cbn [clkGenMulLoop]. run.
  rewrite Hdata. cbn [decodeAdvClk Mul ClkGenFlags].
  replace (at_ data 1 =? 0) with false by (symmetry; now apply Z.eqb_neq).
  now rewrite Hflag.
Qed.

Lemma clkGenDiv_at (h : History) (data : list byte) :
  answer d addrAdvClk 4 h = data ->
  (0 <? Z.land (at_ data 3) 2) = true ->
  clkGenDiv d (c, h) = (at_ data 2 + 1, (c, h ++ rc)).
Proof.
  intros Hdata Hflag. unfold clkGenDiv. cbn [clkGenDivLoop]. run.
  rewrite Hdata. cbn [decodeAdvClk Div ClkGenFlags]. now rewrite Hflag.
Qed.

Lemma field_read_back (v : Z) :
  1 <= v <= 256 -> byte_to_Z (byte_of_Z (uint8 (uint8 v - 1))) + 1 = v.
Proof.
  intro Hv. rewrite byte_to_of_Z. unfold uint8. change (2 ^ 8) with 256.
  destruct (Z.eq_dec v 256) as [->|Hne]; [reflexivity|].
  rewrite (Z.mod_small v) by lia. rewrite (Z.mod_small (v - 1)) by lia.
  rewrite (Z.mod_small (v - 1)) by lia. lia.
Qed.

(** What [SetClkGenOutputFreq] does after the search. *)
Lemma program_clkgen (h : History) (mul div : Z) :
  2 <= mul <= 256 -> 1 <= div <= 256 ->
  exists h' data b3,
    (setClkGenMul d mul ;;; setClkGenDiv d div ;;; resetClkGen d ;;; resetAdc d) (c, h)
      = (tt, (c, h')) /\
    lastWrite addrAdvClk h' = Some data /\ length data = 4%nat /\
    at_ data 1 + 1 = mul /\ at_ data 2 + 1 = div /\
    nth 3 (answer d addrAdvClk 4 h) Byte.x00 = b3 /\
    (0 <? Z.land (at_ data 3) 2) = (0 <? Z.land (byte_to_Z b3) 2).
Proof.
  intros Hmul Hdiv. destruct (four_bytes d Hd h) as (b0 & b1 & b2 & b3 & Hb).
  unfold setClkGenMul, setClkGenDiv, resetClkGen, reloadClkGen, resetAdc.
  replace (mul <? 2) with false by (symmetry; apply Z.ltb_ge; lia).
  replace (div <? 1) with false by (symmetry; apply Z.ltb_ge; lia).
  run. written. rewrite Hb.
  cbv beta iota zeta delta [encodeAdvClk decodeAdvClk at_ nth SrcAndStatus Mul Div ClkGenFlags
                            withSrcAndStatus withMul withDiv withClkGenFlags].
  eexists; eexists; exists b3. split; [reflexivity|].
  split; [rewrite lastWrite_app; cbn [fold_left]; rewrite latest_writeCall;
          change (uint32 addrAdvClk =? addrAdvClk) with true; reflexivity|].
  split; [reflexivity|].
  cbv beta iota zeta delta [at_ nth].
  split; [|split; [|split; [reflexivity|]]].
  - rewrite !byte_of_to_Z. apply field_read_back. lia.
  - rewrite !byte_of_to_Z. apply field_read_back. lia.
  - by_bytes b3.
Qed.

Lemma read_back (h : History) (data : list byte) (mul div : Z) :
  lastWrite addrAdvClk h = Some data -> length data = 4%nat ->
  at_ data 1 + 1 = mul -> at_ data 2 + 1 = div -> 2 <= mul -> 1 <= div ->
  (0 <? Z.land (ClkGenFlags (fst (advClock d (c, h)))) 2) = true ->
  exists h',
    ClkGenOutputFreq d (c, h) =
      (Some (uint32 (fst (clkGenInputFreq d (c, h)) * mul) / div), (c, h')) /\
    fst (clkGenMul d (c, h)) = mul /\ fst (clkGenDiv d (c, h)) = div.
Proof.
  intros Hlast Hlen Hmul Hdiv Hm Hdv Hflag.
  assert (Hans : forall tail, (forall a, lastWrite a (h ++ tail) = lastWrite a h) ->
                   answer d addrAdvClk 4 (h ++ tail) = data).
  { intros tail Htail. apply (answer_written d Hd); [|now symmetry].
    change (uint32 addrAdvClk) with addrAdvClk. now rewrite Htail. }
  assert (Hans0 : answer d addrAdvClk 4 h = data).
  { rewrite <- (app_nil_r h). apply Hans. intro a. now rewrite app_nil_r. }
  rewrite (advClock_reg d Hd) in Hflag by assumption. cbn [fst] in Hflag.
  rewrite Hans0 in Hflag. cbn [decodeAdvClk ClkGenFlags] in Hflag.
  destruct (clkGenInputFreq_reads h) as (inp & tail & Hinp & Htail).
  unfold ClkGenOutputFreq, Error. step. cbn [fst snd]. rewrite Hc, Hinp. cbv beta iota.
  rewrite (clkGenMul_at _ data) by (try apply Hans; try assumption; lia).
  rewrite (clkGenDiv_at _ data).
  2:{ rewrite <- app_assoc. apply Hans. intro a. rewrite app_assoc, lastWrite_reads.
      apply Htail. }
  2: assumption.
  cbn [fst]. rewrite Hmul, Hdiv. unfold divide.
  replace (div =? 0) with false by (symmetry; apply Z.eqb_neq; lia).
  eexists. split; [reflexivity|].
  rewrite (clkGenMul_at h data), (clkGenDiv_at h data) by (assumption || lia).
  cbn [fst]. now split.
Qed.

End Facts.

(** X18. On a device whose registers keep what is written: when the search
    of [calcClkGenMulDiv] for the input frequency read returns a multiplier
    from 2 to 256 and a divider from 1 to 256, [SetClkGenOutputFreq] ends
    without error, and once the clock register shows the flag that
    [clkGenMul] and [clkGenDiv] wait for, [clkGenMul] returns that
    multiplier, [clkGenDiv] that divider, and [ClkGenOutputFreq] the input
    frequency times the multiplier (in 32 bits) divided by the divider: the
    resets that follow the two writes leave both fields as set. *)
Theorem clock_generator_read_back (d : Device) (c : Adc) (h h1 : History)
  (freq inpFreq mul div : Z) :
  RegisterFile d -> err c = None ->
  clkGenInputFreq d (c, h) = (inpFreq, (c, h1)) ->
  calcClkGenMulDiv freq inpFreq = (mul, div) -> 2 <= mul <= 256 -> 1 <= div <= 256 ->
  exists h',
    SetClkGenOutputFreq d freq (c, h) = (tt, (c, h')) /\
    ((0 <? Z.land (ClkGenFlags (fst (advClock d (c, h')))) 2) = true ->
     exists h'',
       ClkGenOutputFreq d (c, h') =
         (Some (uint32 (fst (clkGenInputFreq d (c, h')) * mul) / div), (c, h'')) /\
       fst (clkGenMul d (c, h')) = mul /\ fst (clkGenDiv d (c, h')) = div).
Proof.
  intros Hd Hc Hinp Hcalc Hmul Hdiv.
  destruct (program_clkgen d Hd c Hc h1 mul div Hmul Hdiv)
    as (h' & data & b3 & Hrun & Hlast & Hlen & Hm & Hdv & _ & _).
  exists h'. split.
  - unfold SetClkGenOutputFreq. unfold bind at 1. unfold Error. cbn [fst]. rewrite Hc.
    unfold bind at 1. rewrite Hinp, Hcalc. cbv beta iota.
    unfold uint32. rewrite !Z.mod_small by lia. exact Hrun.
  - intro Hflag.
    apply (read_back d Hd c Hc h' data mul div); try assumption; lia.
Qed.

(** An external clock of 1.5 MHz doubled to 3 MHz. *)
Lemma clock_generator_read_back_witness :
  exists h' h'',
    SetClkGenOutputFreq clockedRegisters 3000000
      ({| err := None; hwMaxSamples := 24400; extClockFreq := 1500000 |}, []) =
      (tt, ({| err := None; hwMaxSamples := 24400; extClockFreq := 1500000 |}, h')) /\
    ClkGenOutputFreq clockedRegisters
      ({| err := None; hwMaxSamples := 24400; extClockFreq := 1500000 |}, h') =
      (Some 3000000, ({| err := None; hwMaxSamples := 24400; extClockFreq := 1500000 |}, h'')).
Proof.
  destruct (clock_generator_read_back clockedRegisters
              {| err := None; hwMaxSamples := 24400; extClockFreq := 1500000 |} []
              (readCalls addrAdvClk 4) 3000000 1500000 2 1
              (registers_RegisterFile _) eq_refl)
    as (h' & Hrun & Hread); [reflexivity | vm_compute; reflexivity | lia | lia |].
  pose proof Hrun as E. vm_compute in E. injection E as E. subst h'.
  destruct Hread as (h'' & Hout & _); [vm_compute; reflexivity|].
  eexists. exists h''. split; [vm_compute; reflexivity|].
  rewrite Hout. vm_compute. reflexivity.
Defined.

End ClkGenSetFacts.


(** ** Waiting for the trigger *)

Module TriggerFacts.
Import Usb Adc AdcRegisters.

Section Trigger.
Context (d : Device).

Lemma waitLoop_timed_out (timer : list bool) :
  forall s s', waitLoop d timer s = (Some true, s') -> In true timer.
Proof.
  induction timer as [|fired timer IH]; intros s s' H; [discriminate|].
  destruct fired; [now left|]. right.
  cbn [waitLoop] in H. unfold bind in H.
  destruct (status d s) as [v s1].
  destruct (negb (Z.land v statusArmMask =? statusArmMask)
            && negb (Z.land v statusFifoMask =? 0)); [discriminate|].
  exact (IH _ _ H).
Qed.

Lemma WaitForTigger_waitLoop (timer : list bool) s r s' :
  WaitForTigger d timer s = (r, s') -> exists s1, waitLoop d timer s = (r, s1).
Proof.
  unfold WaitForTigger, bind. destruct (waitLoop d timer s) as [[b|] s1].
  - destruct (SetArmOff d s1). intros [= <- _]. now exists s1.
  - intros [= <- _]. now exists s1.
Qed.

Lemma status_pending c h : err c <> None -> status d (c, h) = (0, (c, h)).
Proof. unfold status, bind, Error, ret. cbn [fst]. now destruct (err c). Qed.

Lemma settings_pending c h : err c <> None -> settings d (c, h) = (0, (c, h)).
Proof. unfold settings, bind, Error, ret. cbn [fst]. now destruct (err c). Qed.

Lemma setSettings_pending c h v b :
  err c <> None -> setSettings d v b (c, h) = (tt, (c, h)).
Proof. unfold setSettings, bind, Error, ret. cbn [fst]. now destruct (err c). Qed.

Lemma setTriggerNow_pending c h : err c <> None -> setTriggerNow d (c, h) = (tt, (c, h)).
Proof. unfold setTriggerNow, bind, Error, ret. cbn [fst]. now destruct (err c). Qed.

Lemma SetArmOff_pending c h : err c <> None -> SetArmOff d (c, h) = (tt, (c, h)).
Proof.
  intro H. unfold SetArmOff, bind. rewrite settings_pending by assumption.
  now apply setSettings_pending.
Qed.

Lemma waitLoop_pending c h (timer : list bool) :
  err c <> None ->
  waitLoop d timer (c, h) = (if existsb (fun b => b) timer then Some true else None, (c, h)).
Proof.
  intro H. induction timer as [|fired timer IH]; [reflexivity|].
  cbn [waitLoop existsb]. destruct fired; cbn [orb].
  - unfold bind. now rewrite setTriggerNow_pending.
  - unfold bind. rewrite status_pending by assumption. exact IH.
Qed.

(** X20. [WaitForTigger] reports a time-out only when the timer has fired.
    With an error pending on the receiver the status reads return zero, which
    never counts as triggered: the call then makes no transfer at all, spins
    until the timer fires and reports a time-out, so it reports a trigger
    only when called without a pending error. *)
Theorem WaitForTigger_outcome (timer : list bool) (c c' : Adc.Adc) (h h' : History)
  (r : option bool) :
  WaitForTigger d timer (c, h) = (r, (c', h')) ->
  (r = Some true -> In true timer) /\
  (r = Some false -> err c = None) /\
  (err c <> None ->
   r = (if existsb (fun b => b) timer then Some true else None) /\ c' = c /\ h' = h).
Proof.
  intro H.
  assert (P : err c <> None ->
    r = (if existsb (fun b => b) timer then Some true else None) /\ c' = c /\ h' = h).
  { intro He. unfold WaitForTigger, bind in H.
    rewrite (waitLoop_pending c h timer He) in H.
    destruct (existsb (fun b => b) timer).
    - rewrite (SetArmOff_pending c h He) in H. now injection H as <- <- <-.
    - now injection H as <- <- <-. }
  split; [|split; [|exact P]].
  - intros ->. destruct (WaitForTigger_waitLoop _ _ _ _ H) as [s1 H1].
    exact (waitLoop_timed_out _ _ _ H1).
  - intros ->. destruct (err c) as [e|] eqn:E; [|reflexivity].
    destruct P as [P _]; [discriminate|].
    destruct (existsb (fun b => b) timer); discriminate.
Qed.

End Trigger.

(** With an error pending, a call whose timer fires at the third poll
    reports the time-out and leaves receiver and device untouched. *)
Lemma WaitForTigger_outcome_witness :
  WaitForTigger Registers.blankRegisters [false; false; true]
    (withErr freshAdc (Some (Errorf "pending" [])), [])
  = (Some true, (withErr freshAdc (Some (Errorf "pending" [])), [])) /\
  In true [false; false; true].
Proof.
  split; [reflexivity|].
  refine (proj1 (WaitForTigger_outcome Registers.blankRegisters [false; false; true]
                   (withErr freshAdc (Some (Errorf "pending" []))) _ [] _ (Some true) _)
            eq_refl).
  reflexivity.
Defined.

End TriggerFacts.


(** ** The buffers of the bulk transfers *)

Module BulkFacts.
Import Usb Memory.

(** A bulk transfer made with a buffer of 48 bytes and more, whatever its
    capacity beyond its length. *)
Definition wideBulk (c : Call) : Prop :=
  forall k, bulkBuffer c = Some k ->
    (48 <= k)%nat /\ forall capacity, (k <= capacity)%nat -> dumpPanics capacity = false.

Lemma wideBulk_control_out req val data : wideBulk (ControlOutCall req val data).
Proof. intros k H. discriminate. Qed.

Lemma wideBulk_control_in req val size : wideBulk (ControlInCall req val size).
Proof. intros k H. discriminate. Qed.

Lemma wideBulk_of_length (k : nat) :
  (48 <= k)%nat -> forall capacity, (k <= capacity)%nat -> dumpPanics capacity = false.
Proof. intros H capacity Hc. unfold dumpPanics. apply Nat.ltb_ge. lia. Qed.

Ltac calls :=
  repeat first
    [ apply Forall_nil
    | apply Forall_cons;
      [ first [ apply wideBulk_control_out
              | apply wideBulk_control_in
              | intros ? [= <-]; split; [lia | apply wideBulk_of_length; lia] ] | ] ].

Section Facts.
Context (d : Device).

Lemma doRead_calls (addr : Z) (size : nat) (h : History) :
  exists calls, snd (doRead d addr size h) = h ++ calls /\ Forall wideBulk calls.
Proof.
  unfold doRead, bind, ret, ControlOut, Usb.Read, ControlIn.
  destruct (Z.of_nat size <? 48) eqn:E; cbv zeta.
  - destruct (control_out d h ReqMemReadCtrl 0 _) as [n [e|]].
    + eexists. split; [reflexivity|]. calls.
    + destruct (n =? _).
      * change (ReqMemReadCtrl =? ReqMemReadBulk) with false. cbv beta iota.
        match goal with
        | |- context [control_in d ?hh ReqMemReadCtrl 0 size] =>
            destruct (control_in d hh ReqMemReadCtrl 0 size) as [buf [e|]]
        end;
          [|destruct (Nat.eqb _ _)];
          (eexists; split; [cbn [snd]; rewrite <- app_assoc; reflexivity|];
           calls).
      * eexists. split; [reflexivity|]. calls.
  - apply Z.ltb_ge in E.
    destruct (control_out d h ReqMemReadBulk 0 _) as [n [e|]].
    + eexists. split; [reflexivity|]. calls.
    + destruct (n =? _).
      * change (ReqMemReadBulk =? ReqMemReadBulk) with true. cbv beta iota.
        match goal with
        | |- context [ep_in_read d ?hh size] =>
            destruct (ep_in_read d hh size) as [buf [e|]]
        end;
          [|destruct (Nat.eqb _ _)];
          (eexists; split; [cbn [snd]; rewrite <- app_assoc; reflexivity|];
           calls).
      * eexists. split; [reflexivity|]. calls.
Qed.

Lemma Read_calls (addr : Z) (size : nat) (h : History) :
  exists calls, snd (Memory.Read d addr size h) = h ++ calls /\ Forall wideBulk calls.
Proof.
  unfold Memory.Read, bind, ret.
  destruct (doRead_calls addr size h) as (calls & Hh & Hall).
  destruct (doRead d addr size h) as [[e|buf] h1]; cbn [snd] in *; subst h1;
    now exists calls.
Qed.

Lemma doWrite_send_calls (addr : Z) (data : list byte) (h : History) :
  exists calls, snd (doWrite_send d addr data h) = h ++ calls /\ Forall wideBulk calls.
Proof.
  unfold doWrite_send, bind, ret, ControlOut, Usb.Write.
  destruct (Z.of_nat (length data) <? 48) eqn:E; cbv zeta.
  - change (ReqMemWriteCtrl =? ReqMemWriteCtrl) with true. cbv beta iota.
    destruct (control_out d h ReqMemWriteCtrl 0 _) as [n [e|]]; [|destruct (n =? _)];
      (eexists; split; [reflexivity|]; calls).
  - apply Z.ltb_ge in E.
    change (ReqMemWriteBulk =? ReqMemWriteCtrl) with false. cbv beta iota.
    destruct (control_out d h ReqMemWriteBulk 0 _) as [n [e|]].
    + eexists. split; [reflexivity|]. calls.
    + destruct (n =? _).
      * change (ReqMemWriteBulk =? ReqMemWriteBulk) with true. cbv beta iota.
        match goal with
        | |- context [ep_out_write d ?hh data] =>
            destruct (ep_out_write d hh data) as [w [e|]]
        end;
          [|destruct (w =? _)];
          (eexists; split; [cbn [snd]; rewrite <- app_assoc; reflexivity|];
           calls).
      * eexists. split; [reflexivity|]. calls.
Qed.

Lemma Write_calls (addr : Z) (data : list byte) (validate : bool)
  (mask : option (list byte)) (h : History) :
  exists calls,
    snd (Memory.Write d addr data validate mask h) = h ++ calls /\ Forall wideBulk calls.
Proof.
  unfold Memory.Write, doWrite, doWrite_verify, bind, ret.
  destruct (doWrite_send_calls addr data h) as (sent & Hs & Hsent).
  destruct (doWrite_send d addr data h) as [[e|] h1]; cbn [snd] in *; subst h1;
    [now exists sent|].
  destruct validate; [|now exists sent].
  destruct (Read_calls addr (length data) (h ++ sent)) as (read & Hr & Hread).
  destruct (Memory.Read d addr (length data) (h ++ sent)) as [[e|actual] h2];
    cbn [snd] in *; subst h2.
  - exists (sent ++ read). rewrite app_assoc. split; [reflexivity|]. now apply Forall_app.
  - assert (G : forall r : option error,
              exists calls, snd (r, (h ++ sent) ++ read) = h ++ calls /\ Forall wideBulk calls).
    { intro r. exists (sent ++ read). rewrite app_assoc. split; [reflexivity|].
      now apply Forall_app. }
    destruct mask as [m|].
    + destruct (negb _); [apply G|].
      destruct (bytes_Equal _ _); apply G.
    + destruct (bytes_Equal _ _); apply G.
Qed.

End Facts.

(** X21.  Whatever the device answers, every transfer that [Memory.Read] and
    [Memory.Write] make over the bulk endpoints, the read-back of a verified
    write included, is made with a buffer of 48 bytes at least: the slice
    expression [p[:32]] in the log lines of [UsbDevice.Read] and
    [UsbDevice.Write], which panics on a buffer of a capacity below 32,
    does not panic on any buffer that [Memory] hands over. *)
Theorem memory_bulk_buffers (d : Device) (addr : Z) (h : History) :
  (forall size,
     exists calls,
       snd (Memory.Read d addr size h) = h ++ calls /\
       Forall (fun c => forall k, bulkBuffer c = Some k ->
                          (48 <= k)%nat /\
                          forall capacity, (k <= capacity)%nat -> dumpPanics capacity = false)
         calls) /\
  (forall data validate mask,
     exists calls,
       snd (Memory.Write d addr data validate mask h) = h ++ calls /\
       Forall (fun c => forall k, bulkBuffer c = Some k ->
                          (48 <= k)%nat /\
                          forall capacity, (k <= capacity)%nat -> dumpPanics capacity = false)
         calls).
Proof.
  split.
  - intro size. apply Read_calls.
  - intros data validate mask. apply Write_calls.
Qed.

End BulkFacts.
